(** * IPAdapter-ComfyUI: a shallow embedding of [ip_adapter.py]

    The development follows the source file top-down: the channel
    schedules, the attention helper, the shallow image projector
    ([ImageProjModel]), the key/value bank ([To_KV]), the adapter bundle
    ([IPAdapterModel]), the node entry point ([IPAdapter.adapter]) with its
    layer enumeration, and the runtime patch ([CrossAttentionPatch]).

    Modelling conventions.
    - Tensor entries are real numbers: arithmetic on tensor entries inside
      torch kernels is idealised as exact, and overflow to infinity and
      NaN are not represented.  Rounding to a floating-point format is the
      uninterpreted function [rnd], applied wherever the source casts
      ([.to(dtype=...)]) and on the operands of the matmul-class kernels
      that run under [torch.autocast].
    - Floats that decide a shape or an index are IEEE 754 floats, computed
      bit for bit ([SpecFloat]): the scale factor [1/8/down_sample_rate]
      of the mask branch, the output size [F.interpolate] derives from it
      and the source index of each output cell.
    - A tensor of rank 1, 2, 3 is a [list R], a list of rows, a list of
      matrices; shapes are read off the lists, so a tensor with an empty
      leading dimension does not remember its trailing ones.  Kernels are
      total on lists: where torch would reject ill-shaped operands of a
      matmul-class kernel the lists are truncated instead; the elementwise
      kernels, whose shape errors decide the mask branch, do raise.
    - Python exceptions are values of [PyError]; code that can raise
      returns [Result].
    - A [dict] whose iteration order matters (a checkpoint's state) is an
      association list; the host's patch table is a [gmap]. *)

From Stdlib Require Import Reals Lra.
From Stdlib Require Import Floats.SpecFloat.
From stdpp Require Import gmap strings pretty list fin_maps.

Open Scope string_scope.
Open Scope R_scope.
Open Scope nat_scope.
Open Scope list_scope.

(** ** Exceptions *)

Inductive PyError :=
  | KeyError
  | IndexError
  | ZeroDivisionError
  | RuntimeError.

Inductive Result (A : Type) :=
  | Ok (a : A)
  | Raise (e : PyError).
Arguments Ok {A} a.
Arguments Raise {A} e.

#[global] Instance Result_ret : MRet Result := fun _ a => Ok a.
#[global] Instance Result_bind : MBind Result := fun _ _ k m =>
  match m with
  | Ok a => k a
  | Raise e => Raise e
  end.

#[global] Instance Result_fmap : FMap Result := fun _ _ f m =>
  match m with
  | Ok a => Ok (f a)
  | Raise e => Raise e
  end.

Definition is_ok {A} (m : Result A) : bool :=
  match m with Ok _ => true | Raise _ => false end.

(** ** Tensors *)

Inductive DType := float16 | float32.

Abbreviation Vec := (list R).
Abbreviation Mat := (list (list R)).
Abbreviation T3 := (list (list (list R))).

(** A tensor as it crosses the patch boundary: its dtype and its entries. *)
Record Tensor := mkTensor { t_dtype : DType; t_data : T3 }.

(** A checkpoint entry: a tensor of rank 1, 2 or 3. *)
Inductive PTensor :=
  | P1 (v : Vec)
  | P2 (m : Mat)
  | P3 (t : T3).

Definition shape1 (v : Vec) : list nat := [length v].
Definition shape2 (m : Mat) : list nat := [length m; length (hd [] m)].
Definition shape3 (t : T3) : list nat :=
  [length t; length (hd [] t); length (hd [] (hd [] t))].

Definition pshape (p : PTensor) : list nat :=
  match p with
  | P1 v => shape1 v
  | P2 m => shape2 m
  | P3 t => shape3 t
  end.

(** [d[key]] and [key in d] on an insertion-ordered dict. *)
Fixpoint dict_get {V} (d : list (string * V)) (key : string) : Result V :=
  match d with
  | [] => Raise KeyError
  | (k, v) :: d' => if String.eqb k key then Ok v else dict_get d' key
  end.

Definition dict_has {V} (d : list (string * V)) (key : string) : bool :=
  is_ok (dict_get d key).

Definition dict_keys {V} (d : list (string * V)) : list string := map fst d.

(** ** Channel schedules (attention channels of input, output, middle) *)

Definition SD_V12_CHANNELS : list nat :=
  replicate 4 320 ++ replicate 4 640 ++ replicate 4 1280 ++ replicate 6 1280
    ++ replicate 6 640 ++ replicate 6 320 ++ replicate 2 1280.

Definition SD_XL_CHANNELS : list nat :=
  replicate 8 640 ++ replicate 40 1280 ++ replicate 60 1280 ++ replicate 12 640
    ++ replicate 20 1280.

(** ** The torch kernels the file calls *)

Definition rsum (v : Vec) : R := fold_right Rplus 0%R v.
Definition dot (x y : Vec) : R := rsum (zip_with Rmult x y).

(** [chunks k l]: the consecutive length-[k] pieces of [l], which is how
    [reshape] and [view] split a row-major buffer. *)
Definition chunks {A} (k : nat) (l : list A) : list (list A) :=
  map (fun i => take k (drop (i * k) l)) (seq 0 (length l / k)).

Definition transpose (m : Mat) : Mat :=
  map (fun j => map (fun row => nth j row 0%R) m) (seq 0 (length (hd [] m))).

(** [F.linear(x, W, b)] on a batch of row vectors; [W] is out x in. *)
Definition linear_row (W : Mat) (b : option Vec) (row : Vec) : Vec :=
  match b with
  | None => map (dot row) W
  | Some bias => zip_with Rplus (map (dot row) W) bias
  end.

Definition linear2 (W : Mat) (b : option Vec) (x : Mat) : Mat :=
  map (linear_row W b) x.

Definition linear3 (W : Mat) (b : option Vec) (x : T3) : T3 :=
  map (linear2 W b) x.

(** [F.softmax(_, dim=-1)]. *)
Definition softmax_row (v : Vec) : Vec :=
  let e := map exp v in map (fun x => (x / rsum e)%R) e.

(** [torch.nn.LayerNorm(C)] over the last dimension, with its learnable
    scale and shift and its epsilon. *)
Definition mean (v : Vec) : R := (rsum v / INR (length v))%R.

Definition layer_norm_row (eps : R) (gamma beta : Vec) (v : Vec) : Vec :=
  let mu := mean v in
  let var := mean (map (fun x => ((x - mu) * (x - mu))%R) v) in
  zip_with Rplus
    (zip_with Rmult (map (fun x => ((x - mu) / sqrt (var + eps))%R) v) gamma)
    beta.

Definition layer_norm (eps : R) (gamma beta : Vec) (t : T3) : T3 :=
  map (map (layer_norm_row eps gamma beta)) t.

(** [x.reshape(-1, T, C)] of a rank-2 tensor. *)
Definition reshape_m1 (T C : nat) (x : Mat) : T3 :=
  chunks T (chunks C (concat x)).

(** [t.repeat(k, 1, 1)] and [torch.cat(ts, dim=0)]. *)
Definition repeat0 (k : nat) (t : T3) : T3 := concat (replicate k t).
Definition cat0 (ts : list T3) : T3 := concat ts.

(** Elementwise binary kernels.  In this file both operands always agree
    on dimensions 0 and 2; dimension 1 broadcasts when one side has size 1
    and raises otherwise. *)
Definition bcast1 {A} (f : A → A → A) (x y : list A) : Result (list A) :=
  if decide (length x = length y) then Ok (zip_with f x y)
  else match x, y with
       | [a], _ => Ok (map (f a) y)
       | _, [b] => Ok (map (fun a => f a b) x)
       | _, _ => Raise RuntimeError
       end.

Fixpoint sequence {A} (l : list (Result A)) : Result (list A) :=
  match l with
  | [] => Ok []
  | m :: l' => a ← m; r ← sequence l'; mret (a :: r)
  end.

Definition ewise (f : R → R → R) (x y : T3) : Result T3 :=
  sequence (zip_with (bcast1 (zip_with f)) x y).

Definition tmul := ewise Rmult.
Definition tadd := ewise Rplus.

(** [t * w] for a Python scalar [w]. *)
Definition tscale (t : T3) (w : R) : T3 :=
  map (map (map (fun x => (x * w)%R))) t.

(** ** IEEE 754 arithmetic

    A Python float is a binary64 and the interpolation kernel computes in
    binary32; every operation rounds to nearest, ties to even. *)

Definition f64_of_nat (n : nat) : spec_float :=
  binary_normalize 53 1024 (Z.of_nat n) 0 false.

Definition f64_div (x y : spec_float) : spec_float := SFdiv 53 1024 x y.
Definition f64_mul (x y : spec_float) : spec_float := SFmul 53 1024 x y.

Definition f32_of_nat (n : nat) : spec_float :=
  binary_normalize 24 128 (Z.of_nat n) 0 false.

(** [static_cast<float>(x)] of a double. *)
Definition f32_of_f64 (x : spec_float) : spec_float :=
  match x with
  | S754_finite s m e => binary_round 24 128 s m e
  | _ => x
  end.

Definition f32_mul (x y : spec_float) : spec_float := SFmul 24 128 x y.

(** Truncation of a float to an integer ([static_cast<int64_t>], [floorf]
    on a value that is not negative).  The sizes and indices computed here
    are finite and not negative; any other float reads as 0. *)
Definition float_to_nat (x : spec_float) : nat :=
  match x with
  | S754_finite false m e =>
      Z.to_nat (match e with
                | Z0 => Zpos m
                | Zpos _ => Z.shiftl (Zpos m) e
                | Zneg k => Z.shiftr (Zpos m) (Zpos k)
                end)
  | _ => 0
  end.

(** The Python expression [1/8/down_sample_rate]. *)
Definition scale_factor (down_sample_rate : nat) : spec_float :=
  f64_div (f64_div (f64_of_nat 1) (f64_of_nat 8)) (f64_of_nat down_sample_rate).

(** The output size [F.interpolate] derives from a scale factor:
    [int64(double(n) * scale_factor)]. *)
Definition interpolate_size (n : nat) (scale_factor : spec_float) : nat :=
  float_to_nat (f64_mul (f64_of_nat n) scale_factor).

(** The source index of output cell [dst] in nearest mode:
    [min(floorf(dst * (float)(1.0 / scale_factor)), n - 1)]. *)
Definition interpolate_index (dst n : nat) (scale_factor : spec_float) : nat :=
  Nat.min (float_to_nat
             (f32_mul (f32_of_nat dst)
                      (f32_of_f64 (f64_div (f64_of_nat 1) scale_factor))))
          (n - 1).

(** [F.interpolate(mask[None, None], scale_factor=s, mode="nearest")]
    followed by [.squeeze(0)]; an empty output raises. *)
Definition interpolate_nearest (mask : Mat) (scale_factor : spec_float)
    : Result Mat :=
  let H := length mask in
  let W := length (hd [] mask) in
  let oh := interpolate_size H scale_factor in
  let ow := interpolate_size W scale_factor in
  if decide (oh = 0 ∨ ow = 0) then Raise RuntimeError
  else Ok (map (fun i =>
             map (fun j =>
                    nth (interpolate_index j W scale_factor)
                        (nth (interpolate_index i H scale_factor) mask []) 0%R)
                 (seq 0 ow))
             (seq 0 oh)).

(** [m.view(1, -1, 1).repeat(b, 1, c)]. *)
Definition view_repeat (m : Mat) (b c : nat) : T3 :=
  replicate b (map (fun x => replicate c x) (concat m)).

(** The parts of the torch runtime that the file depends on but does not
    determine: [rnd d x] rounds a real to floating-point format [d];
    [init_weight i out inp] is the randomly initialised weight of the
    [i]-th fresh [torch.nn.Linear(inp, out, bias=False)]; [has_mha] is
    [hasattr(F, "multi_head_attention_forward")]. *)
Class Torch := {
  rnd : DType → R → R;
  init_weight : nat → nat → nat → Mat;
  has_mha : bool
}.

(** [resampler.Resampler], imported by the file: construction followed by
    its strict [load_state_dict], [.to(dtype)], and [forward]. *)
Class ResamplerModule := {
  Resampler : Type;
  Resampler_load :
    nat → nat → nat → list (string * PTensor) → Result Resampler;
  Resampler_to : DType → Resampler → Resampler;
  Resampler_forward : Resampler → PTensor → Result T3
}.

Section Model.

Context `{torch : Torch} `{resampler : ResamplerModule}.

Definition cast1 (d : DType) (v : Vec) : Vec := map (rnd d) v.
Definition cast2 (d : DType) (m : Mat) : Mat := map (cast1 d) m.
Definition cast3 (d : DType) (t : T3) : T3 := map (cast2 d) t.

(** [t.to(dtype=d)]. *)
Definition to (d : DType) (t : T3) : Tensor := mkTensor d (cast3 d t).

(** What [torch.autocast("cuda", dtype=d)] does to an operand of a
    matmul-class kernel ([linear], [einsum], scaled dot-product attention):
    it is cast to [d] before the kernel runs. *)
Definition autocast (d : DType) (t : T3) : T3 := cast3 d t.

(** ** [attention] *)

Record ExtraOptions := { n_heads : nat; dim_head : nat }.

(** [rearrange(t, 'b n (h d) -> (b h) n d', h=h)]. *)
Definition split_heads (h : nat) (t : T3) : T3 :=
  let d := length (hd [] (hd [] t)) / h in
  flat_map (fun x : Mat =>
              map (fun hi => map (fun row => take d (drop (hi * d) row)) x)
                  (seq 0 h)) t.

(** [rearrange(t, '(b h) n d -> b n (h d)', h=h)]. *)
Definition merge_heads (h : nat) (t : T3) : T3 :=
  map (fun g : T3 =>
         map (fun i => concat (map (fun m : Mat => nth i m []) g))
             (seq 0 (length (hd [] g))))
      (chunks h t).

(** [t.view(b, -1, h, d).transpose(1, 2)], heads listed batch-major. *)
Definition view_heads (h d : nat) (t : T3) : T3 :=
  flat_map (fun x : Mat =>
              let groups := chunks h (chunks d (concat x)) in
              map (fun hi => map (fun g : Mat => nth hi g []) groups) (seq 0 h))
           t.

(** [out.transpose(1, 2).reshape(b, -1, h * d)]. *)
Definition unview_heads (h d : nat) (t : T3) : T3 :=
  map (fun g : T3 =>
         chunks (h * d)
                (concat (flat_map (fun i => map (fun m : Mat => nth i m []) g)
                                  (seq 0 (length (hd [] g))))))
      (chunks h t).

(** [torch.einsum('b i d, b j d -> b i j', q, k)]. *)
Definition einsum_qk (q k : T3) : T3 :=
  zip_with (fun qb kb => map (fun qi => map (dot qi) kb) qb) q k.

(** [torch.einsum('b i j, b j d -> b i d', sim, v)]. *)
Definition einsum_sv (sim v : T3) : T3 :=
  zip_with (fun sb vb => map (fun si => map (dot si) (transpose vb)) sb) sim v.

(** [F.scaled_dot_product_attention(q, k, v)] with no mask, no dropout. *)
Definition scaled_dot_product_attention (q k v : T3) : T3 :=
  let E := length (hd [] (hd [] q)) in
  einsum_sv
    (map (map softmax_row)
         (map (map (map (fun s => (s / sqrt (INR E))%R))) (einsum_qk q k)))
    v.

(** [ctx] is the dtype of the enclosing autocast block. *)
Definition attention (ctx : DType)
    (q k v : T3) (extra_options : ExtraOptions) : T3 :=
  if negb has_mha then
    let q := split_heads (n_heads extra_options) q in
    let k := split_heads (n_heads extra_options) k in
    let v := split_heads (n_heads extra_options) v in
    let sim :=
      map (map (map (fun s =>
                       (s * Rpower (INR (dim_head extra_options)) (- (1 / 2)))%R)))
          (einsum_qk (autocast ctx q) (autocast ctx k)) in
    let sim := map (map softmax_row) sim in
    let out := einsum_sv (autocast ctx sim) (autocast ctx v) in
    merge_heads (n_heads extra_options) out
  else
    let q := view_heads (n_heads extra_options) (dim_head extra_options) q in
    let k := view_heads (n_heads extra_options) (dim_head extra_options) k in
    let v := view_heads (n_heads extra_options) (dim_head extra_options) v in
    let out :=
      scaled_dot_product_attention (autocast ctx q) (autocast ctx k)
                                   (autocast ctx v) in
    unview_heads (n_heads extra_options) (dim_head extra_options) out.


(** ** [ImageProjModel] *)

Record ImageProjModel := {
  cross_attention_dim : nat;
  clip_extra_context_tokens : nat;
  proj_weight : Mat;
  proj_bias : Vec;
  norm_weight : Vec;
  norm_bias : Vec
}.

(** Default [eps] of [torch.nn.LayerNorm]. *)
Definition LayerNorm_eps : R := (1 / 100000)%R.

Definition ImageProjModel_forward (m : ImageProjModel) (image_embeds : Mat) : T3 :=
  let embeds := image_embeds in
  let tokens :=
    reshape_m1 (clip_extra_context_tokens m) (cross_attention_dim m)
               (linear2 (proj_weight m) (Some (proj_bias m)) embeds) in
  layer_norm LayerNorm_eps (norm_weight m) (norm_bias m) tokens.

(** Construction followed by torch's strict [load_state_dict]: the state
    must hold exactly the four parameters, each of the constructed shape. *)
Definition ImageProjModel_load (cad clip_dim tokens : nat)
    (sd : list (string * PTensor)) : Result ImageProjModel :=
  match dict_get sd "proj.weight", dict_get sd "proj.bias",
        dict_get sd "norm.weight", dict_get sd "norm.bias" with
  | Ok (P2 W), Ok (P1 b), Ok (P1 g), Ok (P1 be) =>
      if decide (length sd = 4 ∧ shape2 W = [tokens * cad; clip_dim]
                 ∧ length b = tokens * cad ∧ length g = cad ∧ length be = cad)
      then Ok {| cross_attention_dim := cad;
                 clip_extra_context_tokens := tokens;
                 proj_weight := W; proj_bias := b;
                 norm_weight := g; norm_bias := be |}
      else Raise RuntimeError
  | _, _, _, _ => Raise RuntimeError
  end.

Definition ImageProjModel_to (d : DType) (m : ImageProjModel) : ImageProjModel :=
  {| cross_attention_dim := cross_attention_dim m;
     clip_extra_context_tokens := clip_extra_context_tokens m;
     proj_weight := cast2 d (proj_weight m);
     proj_bias := cast1 d (proj_bias m);
     norm_weight := cast1 d (norm_weight m);
     norm_bias := cast1 d (norm_bias m) |}.

(** ** [To_KV]: cross-attention to_k, to_v for the adapter *)

(** Each entry is the weight of one bias-free [Linear]. *)
Record To_KV := { to_kvs : list Mat }.

Definition To_KV_init (cross_attention_dim : nat) : To_KV :=
  let channels :=
    if decide (cross_attention_dim = 2048) then SD_XL_CHANNELS
    else SD_V12_CHANNELS in
  {| to_kvs := imap (fun i channel => init_weight i channel cross_attention_dim)
                    channels |}.

(** The loop body [self.to_kvs[i].weight.data = state_dict[key]], started
    at position [i]. *)
Fixpoint load_loop (state_dict : list (string * Mat)) (i : nat)
    (keys : list string) (kvs : list Mat) : Result (list Mat) :=
  match keys with
  | [] => Ok kvs
  | key :: keys' =>
      w ← dict_get state_dict key;
      if decide (i < length kvs)
      then load_loop state_dict (S i) keys' (<[i := w]> kvs)
      else Raise IndexError
  end.

Definition To_KV_load_state_dict (self : To_KV)
    (state_dict : list (string * Mat)) : Result To_KV :=
  kvs ← load_loop state_dict 0 (dict_keys state_dict) (to_kvs self);
  mret {| to_kvs := kvs |}.

(** ** [IPAdapterModel] *)

Inductive Projector :=
  | Shallow (m : ImageProjModel)
  | Deep (r : Resampler).

Record Checkpoint := {
  image_proj : list (string * PTensor);
  ip_adapter : list (string * Mat)
}.

Record IPAdapterModel := {
  plus : bool;
  image_proj_model : Projector;
  ip_layers : To_KV
}.

Definition IPAdapterModel_init (state_dict : Checkpoint) (plus : bool)
    (cross_attention_dim clip_embeddings_dim clip_extra_context_tokens : nat)
    : Result IPAdapterModel :=
  pm ← (if plus
        then Deep <$> Resampler_load cross_attention_dim
                        clip_extra_context_tokens clip_embeddings_dim
                        (image_proj state_dict)
        else Shallow <$> ImageProjModel_load cross_attention_dim
                           clip_embeddings_dim clip_extra_context_tokens
                           (image_proj state_dict));
  kv ← To_KV_load_state_dict (To_KV_init cross_attention_dim)
                             (ip_adapter state_dict);
  mret {| plus := plus; image_proj_model := pm; ip_layers := kv |}.

(** [self.ipadapter.to(device, dtype=d)]. *)
Definition IPAdapterModel_to (d : DType) (m : IPAdapterModel) : IPAdapterModel :=
  {| plus := plus m;
     image_proj_model :=
       match image_proj_model m with
       | Shallow p => Shallow (ImageProjModel_to d p)
       | Deep r => Deep (Resampler_to d r)
       end;
     ip_layers := {| to_kvs := map (cast2 d) (to_kvs (ip_layers m)) |} |}.

(** The projector applied to one encoder output.  The shallow projector
    flattens every leading dimension into rows. *)
Definition rows_of (p : PTensor) : Mat :=
  match p with
  | P1 v => [v]
  | P2 m => m
  | P3 t => concat t
  end.

Definition project (pm : Projector) (x : PTensor) : Result T3 :=
  match pm with
  | Shallow m => Ok (ImageProjModel_forward m (rows_of x))
  | Deep r => Resampler_forward r x
  end.

Definition get_image_embeds (self : IPAdapterModel) (cond uncond : PTensor)
    : Result (T3 * T3) :=
  image_prompt_embeds ← project (image_proj_model self) cond;
  uncond_image_prompt_embeds ← project (image_proj_model self) uncond;
  mret (image_prompt_embeds, uncond_image_prompt_embeds).

(** ** [CrossAttentionPatch] *)

Record CrossAttentionPatch := {
  weights : list R;
  ipadapters : list IPAdapterModel;
  conds : list T3;
  unconds : list T3;
  dtype : DType;
  number : nat;
  masks : list (option Mat)
}.

(** The keyword dictionary [patch_kwargs]. *)
Record PatchKwargs := {
  kw_number : nat;
  kw_weight : R;
  kw_ipadapter : IPAdapterModel;
  kw_dtype : DType;
  kw_cond : T3;
  kw_uncond : T3;
  kw_mask : option Mat
}.

Definition CrossAttentionPatch_init (kw : PatchKwargs) : CrossAttentionPatch :=
  {| weights := [kw_weight kw];
     ipadapters := [kw_ipadapter kw];
     conds := [kw_cond kw];
     unconds := [kw_uncond kw];
     dtype := kw_dtype kw;
     number := kw_number kw;
     masks := [kw_mask kw] |}.

Definition set_new_condition (self : CrossAttentionPatch) (kw : PatchKwargs)
    : CrossAttentionPatch :=
  {| weights := weights self ++ [kw_weight kw];
     ipadapters := ipadapters self ++ [kw_ipadapter kw];
     conds := conds self ++ [kw_cond kw];
     unconds := unconds self ++ [kw_uncond kw];
     dtype := kw_dtype kw;
     number := number self;
     masks := masks self ++ [kw_mask kw] |}.

(** [zip(self.weights, self.conds, self.unconds, self.ipadapters, self.masks)]. *)
Definition bundles (self : CrossAttentionPatch)
    : list (R * T3 * T3 * IPAdapterModel * option Mat) :=
  zip (zip (zip (zip (weights self) (conds self)) (unconds self))
           (ipadapters self))
      (masks self).

Definition list_get {A} (l : list A) (i : nat) : Result A :=
  match l !! i with
  | Some a => Ok a
  | None => Raise IndexError
  end.

Fixpoint foldlM {A B} (f : A → B → Result A) (a : A) (l : list B) : Result A :=
  match l with
  | [] => Ok a
  | b :: l' => a' ← f a b; foldlM f a' l'
  end.

(** Python's [t[i]] on a tuple: a negative index counts from the end. *)
Definition tuple_get {A} (t : list A) (i : Z) : Result A :=
  let n := Z.of_nat (length t) in
  if decide (0 ≤ i)%Z then list_get t (Z.to_nat i)
  else if decide (- n ≤ i)%Z then list_get t (Z.to_nat (n + i))
  else Raise IndexError.

(** [torch.cat([(cond.repeat(bp,1,1), uncond.repeat(bp,1,1))[i]
               for i in cond_or_uncond], dim=0)]. *)
Definition select_tokens (cond uncond : T3) (batch_prompt : nat)
    (cond_or_uncond : list Z) : Result T3 :=
  parts ← sequence
            (map (fun i => tuple_get [repeat0 batch_prompt cond;
                                      repeat0 batch_prompt uncond] i)
                 cond_or_uncond);
  mret (cat0 parts).

(** The mask branch up to [mask_downsample].  The rate
    [int((mask_size // 64 // out.shape[1]) ** (1/2))] is the integer
    square root: the float power is exact on the pixel counts that arise
    (below [2 ^ 52]). *)
Definition mask_downsample_of (mask : Mat) (out : T3) : Result T3 :=
  let mask_size := length mask * length (hd [] mask) in
  if decide (length (hd [] out) = 0) then Raise ZeroDivisionError
  else
    let down_sample_rate := Nat.sqrt (mask_size / 64 / length (hd [] out)) in
    if decide (down_sample_rate = 0) then Raise ZeroDivisionError
    else
      m ← interpolate_nearest mask (scale_factor down_sample_rate);
      mret (view_repeat m (length out) (length (hd [] (hd [] out)))).

(** One iteration of the loop over the registered bundles, in three
    parts: the adapter's attention pass (up to [ip_out = attention(...)]),
    the mask branch, and the accumulation. *)
Definition ip_attention (ctx : DType) (number : nat) (q : T3)
    (extra_options : ExtraOptions) (batch_prompt : nat)
    (cond_or_uncond : list Z) (cond uncond : T3)
    (ipadapter : IPAdapterModel) : Result T3 :=
  uncond_cond ← select_tokens cond uncond batch_prompt cond_or_uncond;
  (* k, v for ip_adapter *)
  to_k ← list_get (to_kvs (ip_layers ipadapter)) (number * 2);
  let ip_k := linear3 (cast2 ctx to_k) None (autocast ctx uncond_cond) in
  to_v ← list_get (to_kvs (ip_layers ipadapter)) (number * 2 + 1);
  let ip_v := linear3 (cast2 ctx to_v) None (autocast ctx uncond_cond) in
  mret (attention ctx q ip_k ip_v extra_options).

Definition apply_mask (mask : option Mat) (out ip_out : T3) : Result T3 :=
  match mask with
  | Some mask =>
      mask_downsample ← mask_downsample_of mask out;
      tmul ip_out mask_downsample
  | None => Ok ip_out
  end.

Definition patch_step (ctx : DType) (number : nat) (q : T3)
    (extra_options : ExtraOptions) (batch_prompt : nat)
    (cond_or_uncond : list Z) (out : T3)
    (bundle : R * T3 * T3 * IPAdapterModel * option Mat) : Result T3 :=
  let '(weight, cond, uncond, ipadapter, mask) := bundle in
  ip_out ← ip_attention ctx number q extra_options batch_prompt
                        cond_or_uncond cond uncond ipadapter;
  ip_out ← apply_mask mask out ip_out;
  tadd out (tscale ip_out weight).

(** The body of [with torch.autocast("cuda", dtype=ctx)]. *)
Definition autocast_block (ctx : DType) (self : CrossAttentionPatch)
    (n context_attn2 value_attn2 : Tensor) (extra_options : ExtraOptions)
    (cond_or_uncond : list Z) : Result T3 :=
  let q := t_data n in
  let k := t_data context_attn2 in
  let v := t_data value_attn2 in
  let b := length q in
  if decide (length cond_or_uncond = 0) then Raise ZeroDivisionError
  else
    let batch_prompt := b / length cond_or_uncond in
    let out := attention ctx q k v extra_options in
    foldlM (patch_step ctx (number self) q extra_options batch_prompt
                       cond_or_uncond)
           out (bundles self).

(** [frame] is [outer_frame.f_locals["transformer_options"]["cond_or_uncond"]],
    absent when the caller's frame does not provide it. *)
Definition CrossAttentionPatch_call (self : CrossAttentionPatch)
    (n context_attn2 value_attn2 : Tensor) (extra_options : ExtraOptions)
    (frame : option (list Z)) : Result Tensor :=
  let org_dtype := t_dtype n in
  cond_or_uncond ← match frame with
                   | Some c => Ok c
                   | None => Raise KeyError
                   end;
  out ← autocast_block (dtype self) self n context_attn2 value_attn2
                       extra_options cond_or_uncond;
  mret (to org_dtype out).

(** ** The host's patch table and [set_model_patch_replace] *)

Inductive Block := input | output | middle.

(** [(block, id)] for sd v1-2, [(block, id, transformer_index)] for sdxl. *)
Inductive LayerKey :=
  | Key2 (block : Block) (id : nat)
  | Key3 (block : Block) (id : nat) (index : nat).

#[global] Instance Block_eq_dec : EqDecision Block.
Proof. solve_decision. Defined.

#[global] Instance Block_countable : Countable Block.
Proof.
  refine (inj_countable'
            (fun b => match b with input => 0 | output => 1 | middle => 2 end)
            (fun n => match n with 0 => input | 1 => output | _ => middle end)
            _).
  by intros [].
Defined.

#[global] Instance LayerKey_eq_dec : EqDecision LayerKey.
Proof. solve_decision. Defined.

#[global] Instance LayerKey_countable : Countable LayerKey.
Proof.
  refine (inj_countable'
            (fun k => match k with
                      | Key2 b i => (b, i, None)
                      | Key3 b i j => (b, i, Some j)
                      end)
            (fun t => match t with
                      | (b, i, None) => Key2 b i
                      | (b, i, Some j) => Key3 b i j
                      end)
            _).
  by intros [].
Defined.

(** [model.model_options["transformer_options"]], as far as this file
    reads and writes it. *)
Record TransformerOptions := {
  patches_replace : option (gmap string (gmap LayerKey CrossAttentionPatch))
}.

Definition set_model_patch_replace (model : TransformerOptions)
    (patch_kwargs : PatchKwargs) (key : LayerKey) : TransformerOptions :=
  let pr := default ∅ (patches_replace model) in
  let attn2 := default ∅ (pr !! "attn2") in
  let patch :=
    match attn2 !! key with
    | None => CrossAttentionPatch_init patch_kwargs
    | Some p => set_new_condition p patch_kwargs
    end in
  {| patches_replace := Some (<["attn2" := <[key := patch]> attn2]> pr) |}.

(** ** [IPAdapter.adapter] *)

Definition set_number (kw : PatchKwargs) (n : nat) : PatchKwargs :=
  {| kw_number := n;
     kw_weight := kw_weight kw;
     kw_ipadapter := kw_ipadapter kw;
     kw_dtype := kw_dtype kw;
     kw_cond := kw_cond kw;
     kw_uncond := kw_uncond kw;
     kw_mask := kw_mask kw |}.

(** The enumeration of the layers that have cross attention.  The state is
    the pair of the object the patches go into and the shared
    [patch_kwargs] dictionary; [visit] stands for
    [set_model_patch_replace]. *)
Section Enumeration.

Context {St : Type} (visit : St → PatchKwargs → LayerKey → St).

(** [visit(new_model, patch_kwargs, key); patch_kwargs["number"] += 1]. *)
Definition visit_incr (st : St * PatchKwargs) (key : LayerKey)
    : St * PatchKwargs :=
  (visit st.1 st.2 key, set_number st.2 (kw_number st.2 + 1)).

Definition range (n : nat) : list nat := seq 0 n.

Definition install_with (sdxl : bool) (new_model : St)
    (patch_kwargs : PatchKwargs) : St * PatchKwargs :=
  let st := (new_model, patch_kwargs) in
  if negb sdxl then
    let st := foldl (fun st id => visit_incr st (Key2 input id))
                    st [1; 2; 4; 5; 7; 8] in
    let st := foldl (fun st id => visit_incr st (Key2 output id))
                    st [3; 4; 5; 6; 7; 8; 9; 10; 11] in
    (visit st.1 st.2 (Key2 middle 0), st.2)
  else
    let st :=
      foldl (fun st id =>
               let block_indices :=
                 if bool_decide (id ∈ [4; 5]) then range 2 else range 10 in
               foldl (fun st index => visit_incr st (Key3 input id index))
                     st block_indices)
            st [4; 5; 7; 8] in
    let st :=
      foldl (fun st id =>
               let block_indices :=
                 if bool_decide (id ∈ [3; 4; 5]) then range 2 else range 10 in
               foldl (fun st index => visit_incr st (Key3 output id index))
                     st block_indices)
            st (range 6) in
    foldl (fun st index => visit_incr st (Key3 middle 0 index)) st (range 10).

End Enumeration.

Definition pcast (d : DType) (p : PTensor) : PTensor :=
  match p with
  | P1 v => P1 (cast1 d v)
  | P2 m => P2 (cast2 d m)
  | P3 t => P3 (cast3 d t)
  end.

(** [ckpt] is what [torch.load] returns for [model_name]; [clip_vision]
    is [clip_vision_encode] on the node's image, giving the conditional
    and unconditional encoder outputs for the chosen projector kind. *)
Definition adapter (model : TransformerOptions) (ckpt : Checkpoint)
    (clip_vision : bool → PTensor * PTensor) (weight : R) (dtype : string)
    (mask : option Mat) : Result TransformerOptions :=
  let self_dtype := if String.eqb dtype "fp32" then float32 else float16 in
  let ip_state_dict := ckpt in
  let self_plus := dict_has (image_proj ip_state_dict) "latents" in
  (* cross_attention_dim is equal to text_encoder output *)
  w ← dict_get (ip_adapter ip_state_dict) "1.to_k_ip.weight";
  let self_cross_attention_dim := length (hd [] w) in
  (* number of tokens of ip_adapter embedding *)
  self_clip_extra_context_tokens ←
    (if self_plus then
       latents ← dict_get (image_proj ip_state_dict) "latents";
       list_get (pshape latents) 1
     else
       pw ← dict_get (image_proj ip_state_dict) "proj.weight";
       if decide (self_cross_attention_dim = 0) then Raise ZeroDivisionError
       else Ok (hd 0 (pshape pw) / self_cross_attention_dim));
  let '(cond, uncond) := clip_vision self_plus in
  let self_clip_embeddings_dim := List.last (pshape cond) 0 in
  (* sd_v1-2: 1024, sd_xl: 2048 *)
  let self_sdxl := bool_decide (self_cross_attention_dim = 2048) in
  self_ipadapter ← IPAdapterModel_init ip_state_dict self_plus
                     self_cross_attention_dim self_clip_embeddings_dim
                     self_clip_extra_context_tokens;
  let self_ipadapter := IPAdapterModel_to self_dtype self_ipadapter in
  embeds ← get_image_embeds self_ipadapter (pcast self_dtype cond)
                            (pcast self_dtype uncond);
  let self_image_emb := cast3 self_dtype embeds.1 in
  let self_uncond_image_emb := cast3 self_dtype embeds.2 in
  let new_model := model in
  let patch_kwargs :=
    {| kw_number := 0;
       kw_weight := weight;
       kw_ipadapter := self_ipadapter;
       kw_dtype := self_dtype;
       kw_cond := self_image_emb;
       kw_uncond := self_uncond_image_emb;
       kw_mask := mask |} in
  mret (install_with set_model_patch_replace self_sdxl new_model patch_kwargs).1.

(** The coordinates visited, each with the layer number [patch_kwargs]
    carries at the visit. *)
Definition enumerate_layers (sdxl : bool) (patch_kwargs : PatchKwargs)
    : list (LayerKey * nat) :=
  (install_with (fun tr kw key => tr ++ [(key, kw_number kw)])
                sdxl [] patch_kwargs).1.

End Model.

(** ** [get_file_list] *)

(** [listing] is what [os.listdir(path)] returns. *)
Definition get_file_list (listing : list string) : list string :=
  filter (fun file => file ≠ "put_models_here.txt") listing.

(** ** [IPAdapter.clip_vision_encode] *)

(** What the vision encoder returns, as far as the node reads it:
    [outputs.image_embeds] and [outputs.hidden_states[-2]]. *)
Record ClipVisionOutput := {
  image_embeds : Mat;
  penultimate_hidden_state : T3
}.

(** [torch.zeros_like] of a rank-2 tensor. *)
Definition zeros_like (x : Mat) : Mat := map (map (fun _ => 0%R)) x.

(** The conditional and unconditional encoder outputs.  [outputs] is the
    encoder run on the image and [zero_outputs] the encoder run on
    [torch.zeros_like(pixel_values)], which only the resampler branch
    reads.  The third result of the source, the encoder outputs moved to
    the CPU with the hidden states dropped, takes no part in what the node
    computes and is left out. *)
Definition clip_vision_encode (outputs zero_outputs : ClipVisionOutput)
    (plus : bool) : PTensor * PTensor :=
  if plus then
    let cond := penultimate_hidden_state outputs in
    let uncond := penultimate_hidden_state zero_outputs in
    (P3 cond, P3 uncond)
  else
    let cond := image_embeds outputs in
    let uncond := zeros_like cond in
    (P2 cond, P2 uncond).

(** ** The coordinates and schedules the specification lists *)

(** V1_2: input ids 1,2,4,5,7,8, output ids 3..11, one middle layer. *)
Definition v12_coordinates : list LayerKey :=
  map (Key2 input) [1; 2; 4; 5; 7; 8]
    ++ map (Key2 output) [3; 4; 5; 6; 7; 8; 9; 10; 11]
    ++ [Key2 middle 0].

(** XL: each block id paired with its transformer depth. *)
Definition expand (block : Block) (ids : list (nat * nat)) : list LayerKey :=
  flat_map (fun '(id, depth) => map (Key3 block id) (seq 0 depth)) ids.

Definition xl_coordinates : list LayerKey :=
  expand input [(4, 2); (5, 2); (7, 10); (8, 10)]
    ++ expand output [(0, 10); (1, 10); (2, 10); (3, 2); (4, 2); (5, 2)]
    ++ expand middle [(0, 10)].

Definition coordinates (sdxl : bool) : list LayerKey :=
  if sdxl then xl_coordinates else v12_coordinates.

Definition channels_of (sdxl : bool) : list nat :=
  if sdxl then SD_XL_CHANNELS else SD_V12_CHANNELS.

(** The patch stored at a coordinate of the host's table. *)
Definition patch_at `{ResamplerModule} (model : TransformerOptions)
    (key : LayerKey) : option CrossAttentionPatch :=
  pr ← patches_replace model; attn2 ← pr !! "attn2"; attn2 !! key.

Definition fresh_model `{ResamplerModule} : TransformerOptions :=
  {| patches_replace := None |}.

(** Visiting a list of numbered coordinates in order. *)
Definition install_list `{ResamplerModule} (kw : PatchKwargs) (m : TransformerOptions)
    (l : list (LayerKey * nat)) : TransformerOptions :=
  foldl (fun m '(key, n) => set_model_patch_replace m (set_number kw n) key) m l.

(** The patch obtained by constructing with [kw] and then stacking [kws],
    oldest first. *)
Definition stack `{ResamplerModule} (kw : PatchKwargs)
    (kws : list PatchKwargs) : CrossAttentionPatch :=
  foldl set_new_condition (CrossAttentionPatch_init kw) kws.

Definition bundle_of `{ResamplerModule} (kw : PatchKwargs)
    : R * T3 * T3 * IPAdapterModel * option Mat :=
  (kw_weight kw, kw_cond kw, kw_uncond kw, kw_ipadapter kw, kw_mask kw).

(** [has_shape b n c t]: [t] is a full [b] x [n] x [c] tensor. *)
Definition has_shape (b n c : nat) (t : T3) : Prop :=
  length t = b
  ∧ Forall (fun x : Mat => length x = n ∧ Forall (fun r : Vec => length r = c) x) t.

(** The parameter shapes [ImageProjModel.__init__] sets up and the strict
    load preserves, for positive token count and dimensionality. *)
Definition ImageProjModel_wf (m : ImageProjModel) : Prop :=
  0 < clip_extra_context_tokens m
  ∧ 0 < cross_attention_dim m
  ∧ length (proj_weight m) = clip_extra_context_tokens m * cross_attention_dim m
  ∧ length (proj_bias m) = clip_extra_context_tokens m * cross_attention_dim m
  ∧ length (norm_weight m) = cross_attention_dim m
  ∧ length (norm_bias m) = cross_attention_dim m.

(** The shallow projector in the specification's words: the linear map,
    each row regrouped into its tokens of [cross_attention_dim] entries,
    then layer normalisation over the last dimension. *)
Definition shallow_projector_spec (m : ImageProjModel) (raw_embedding : Mat)
    : T3 :=
  layer_norm LayerNorm_eps (norm_weight m) (norm_bias m)
    (map (chunks (cross_attention_dim m))
         (linear2 (proj_weight m) (Some (proj_bias m)) raw_embedding)).

(** The mask's resolution downsamples evenly to an attention grid of
    [tokens] positions: for some rate [r], the mask is [8 r h] by [8 r w]
    and the grid is [h] by [w]. *)
Definition downsamples_evenly (mask : Mat) (tokens : nat) : Prop :=
  ∃ r h w,
    0 < r ∧ 0 < h ∧ 0 < w
    ∧ length mask = 8 * r * h
    ∧ Forall (fun row : Vec => length row = 8 * r * w) mask
    ∧ tokens = h * w.

(** The downsample rate a call computes for the mask on a layer with
    [tokens] positions, and the height and width of the mask that
    [F.interpolate] returns at that rate. *)
Definition mask_rate (mask : Mat) (tokens : nat) : nat :=
  Nat.sqrt (length mask * length (hd [] mask) / 64 / tokens).

Definition mask_grid (mask : Mat) (tokens : nat) : nat * nat :=
  let s := scale_factor (mask_rate mask tokens) in
  (interpolate_size (length mask) s, interpolate_size (length (hd [] mask)) s).

(** The mask fits a layer with [tokens] positions: it is a matrix, the
    rate is positive, and the downsampled mask has one cell per position. *)
Definition mask_fits (mask : Mat) (tokens : nat) : Prop :=
  Forall (fun row : Vec => length row = length (hd [] mask)) mask
  ∧ 0 < tokens
  ∧ 0 < mask_rate mask tokens
  ∧ (mask_grid mask tokens).1 * (mask_grid mask tokens).2 = tokens.

(** Every entry of the mask is [c]. *)
Definition constant_mask (c : R) (mask : Mat) : Prop :=
  Forall (Forall (fun x => x = c)) mask.

(** The [b] x [n] x [c] tensor with every entry [v]. *)
Definition full (b n c : nat) (v : R) : T3 :=
  replicate b (replicate n (replicate c v)).


(** The entry of the table of another patch family, such as [attn1]. *)
Definition family_at `{ResamplerModule} (model : TransformerOptions) (family : string)
    : option (gmap LayerKey CrossAttentionPatch) :=
  pr ← patches_replace model; pr !! family.

(** The mask values an [h] x [w] attention grid reads at downsample rate
    [r], row by row: position [(i, j)] reads pixel [(8 r i, 8 r j)]. *)
Definition grid_samples (mask : Mat) (r h w : nat) : Vec :=
  flat_map (fun i => map (fun j => nth (j * (8 * r)) (nth (i * (8 * r)) mask []) 0%R)
                         (seq 0 w))
           (seq 0 h).

(** The token sets of a bundle fit a call on a layer with [h] heads of
    width [d] and batch [b]: the two sets have one shape, the selected
    tokens fill the batch, and the two projectors of layer [num] exist and
    map the tokens' width [cad] to [h d]. *)
Definition tokens_fit `{ResamplerModule} (h d b num batch_prompt : nat)
    (cond_or_uncond : list Z) (kw : PatchKwargs) : Prop :=
  ∃ (bc t cad : nat) (to_k to_v : Mat),
    has_shape bc t cad (kw_cond kw)
    ∧ has_shape bc t cad (kw_uncond kw)
    ∧ 0 < t
    ∧ length cond_or_uncond * (batch_prompt * bc) = b
    ∧ to_kvs (ip_layers (kw_ipadapter kw)) !! (num * 2) = Some to_k
    ∧ length to_k = h * d
    ∧ Forall (fun row : Vec => length row = cad) to_k
    ∧ to_kvs (ip_layers (kw_ipadapter kw)) !! (num * 2 + 1) = Some to_v
    ∧ length to_v = h * d
    ∧ Forall (fun row : Vec => length row = cad) to_v.

(** A bundle fits a call on a layer with [n] positions: its tokens fit and
    its mask, if any, is downsampled to one cell per position. *)
Definition bundle_fits `{ResamplerModule} (h d b n num batch_prompt : nat)
    (cond_or_uncond : list Z) (kw : PatchKwargs) : Prop :=
  tokens_fit h d b num batch_prompt cond_or_uncond kw
  ∧ match kw_mask kw with
    | None => True
    | Some mask => mask_fits mask n
    end.

(** ** Concrete environments and checkpoints *)

(** Exact arithmetic, zero initial weights, and a torch that has
    [F.multi_head_attention_forward]. *)
Definition zeros (r c : nat) : Mat := replicate r (replicate c 0%R).

Definition exact_torch : Torch :=
  {| rnd := fun _ x => x;
     init_weight := fun _ out inp => zeros out inp;
     has_mha := true |}.

(** A resampler module that carries no weights. *)
Definition unit_resampler : ResamplerModule :=
  {| Resampler := unit;
     Resampler_load := fun _ _ _ _ => Ok tt;
     Resampler_to := fun _ r => r;
     Resampler_forward := fun _ _ => Ok [] |}.

(** The name of the [i]-th tensor of an [ip_adapter] state:
    [1.to_k_ip.weight], [1.to_v_ip.weight], [3.to_k_ip.weight], ... *)
Definition key_name (i : nat) : string :=
  pretty (2 * (i / 2) + 1)
    +:+ (if Nat.even i then ".to_k_ip.weight" else ".to_v_ip.weight").

(** A shallow-projector checkpoint of cross-attention dimensionality [d]
    with [tokens] context tokens, encoder width [E], and one stored
    projection of each of the given output [widths]. *)
Definition synthetic_checkpoint (d tokens E : nat) (widths : list nat)
    : Checkpoint :=
  {| image_proj := [("proj.weight", P2 (zeros (tokens * d) E));
                    ("proj.bias", P1 (replicate (tokens * d) 0%R));
                    ("norm.weight", P1 (replicate d 1%R));
                    ("norm.bias", P1 (replicate d 0%R))];
     ip_adapter := imap (fun i c => (key_name i, zeros c d)) widths |}.

(** The pooled encoder output for one image, and its zero counterpart. *)
Definition pooled_embeds (E : nat) (plus : bool) : PTensor * PTensor :=
  (P2 (zeros 1 E), P2 (zeros 1 E)).

(** A one-head, one-channel layer with a one-token adapter. *)
Definition tiny_options : ExtraOptions := {| n_heads := 1; dim_head := 1 |}.

Definition tiny_ipadapter : IPAdapterModel (resampler := unit_resampler) :=
  {| plus := false;
     image_proj_model :=
       Shallow {| cross_attention_dim := 1;
                  clip_extra_context_tokens := 1;
                  proj_weight := [[1%R]];
                  proj_bias := [0%R];
                  norm_weight := [1%R];
                  norm_bias := [0%R] |};
     ip_layers := {| to_kvs := [[[1%R]]; [[1%R]]] |} |}.

Definition tiny_kwargs (weight : R) (mask : option Mat)
    : PatchKwargs (resampler := unit_resampler) :=
  {| kw_number := 0;
     kw_weight := weight;
     kw_ipadapter := tiny_ipadapter;
     kw_dtype := float16;
     kw_cond := [[[1%R]]];
     kw_uncond := [[[0%R]]];
     kw_mask := mask |}.

(** Queries with one and with two positions, and a one-position context. *)
Definition query1 : Tensor := mkTensor float32 [[[1%R]]].
Definition query2 : Tensor := mkTensor float32 [[[1%R]; [1%R]]].
Definition context1 : Tensor := mkTensor float32 [[[1%R]]].

Definition mask8x8 (v : R) : Mat := replicate 8 (replicate 8 v).

(** A square mask with every pixel [v], and a query with 64 positions, the
    8 x 8 grid of the deepest layers of a 512 x 512 generation. *)
Definition square_mask (side : nat) (v : R) : Mat :=
  replicate side (replicate side v).

Definition query64 : Tensor := mkTensor float32 [replicate 64 [1%R]].

(** A two-by-two projector on two-entry embeddings. *)
Definition tiny_projector : ImageProjModel :=
  {| cross_attention_dim := 2;
     clip_extra_context_tokens := 1;
     proj_weight := [[1%R; 0%R]; [0%R; 1%R]];
     proj_bias := [0%R; 0%R];
     norm_weight := [1%R; 1%R];
     norm_bias := [0%R; 0%R] |}.

(** A three-projector bank and a two-tensor state. *)
Definition tiny_bank : To_KV := {| to_kvs := [[[1%R]]; [[2%R]]; [[3%R]]] |}.

Definition tiny_state : list (string * Mat) :=
  [("1.to_k_ip.weight", [[5%R; 6%R]]); ("1.to_v_ip.weight", [[7%R]])].

(** The checkpoints of the counterexamples: dimensionality 768 with only
    the first 16 projections stored; dimensionality 512 with the full V1_2
    set; dimensionality 768 whose first projection has output width 1. *)
Definition checkpoint_16_weights : Checkpoint :=
  synthetic_checkpoint 768 4 1024 (take 16 SD_V12_CHANNELS).

Definition checkpoint_dim_512 : Checkpoint :=
  synthetic_checkpoint 512 4 1024 SD_V12_CHANNELS.

Definition state_narrow_first : list (string * Mat) :=
  [("1.to_k_ip.weight", zeros 1 768)].

(** Further concrete inputs: a four-position query and a state of XL size
    under dimensionality 768. *)
Definition query4 : Tensor := mkTensor float32 [replicate 4 [1%R]].

Definition checkpoint_xl_sized_dim_768 : Checkpoint :=
  synthetic_checkpoint 768 4 1024 SD_XL_CHANNELS.

Definition tiny_outputs : ClipVisionOutput :=
  {| image_embeds := [[1%R; 2%R]; [3%R; 4%R]];
     penultimate_hidden_state := [] |}.

(** Three incomplete checkpoints: one without the tensor that gives the
    cross-attention dimensionality, one without the projection weight, and
    one whose key tensor has no columns. *)
Definition checkpoint_without_key : Checkpoint :=
  {| image_proj := []; ip_adapter := [] |}.

Definition checkpoint_without_proj : Checkpoint :=
  {| image_proj := []; ip_adapter := [("1.to_k_ip.weight", zeros 1 1)] |}.

Definition checkpoint_zero_dim : Checkpoint :=
  {| image_proj := [("proj.weight", P2 (zeros 4 1))];
     ip_adapter := [("1.to_k_ip.weight", [[]])] |}.

(** * Properties *)

Section Theory.

Context `{torch : Torch} `{resampler : ResamplerModule}.

(** Case analysis on the first computation of a monadic chain that is
    known to return. *)
Ltac inv_bind H :=
  match type of H with
  | (?m ≫= _) = Ok _ =>
      let x := fresh "x" in
      destruct m as [x|] eqn:?; [cbn [mbind Result_bind] in H|done]
  end.

(** ** Layer enumeration *)

Lemma enumerate_layers_eq (sdxl : bool) (kw : PatchKwargs) :
  enumerate_layers sdxl kw
  = zip (coordinates sdxl)
        (seq (kw_number kw) (length (coordinates sdxl))).
Proof.
  destruct sdxl; vm_compute; rewrite ?Nat.add_1_r; reflexivity.
Qed.

Lemma install_with_enumerate {St} (visit : St → PatchKwargs → LayerKey → St)
    (sdxl : bool) (s : St) (kw : PatchKwargs) :
  (install_with visit sdxl s kw).1
  = foldl (fun s '(key, n) => visit s (set_number kw n) key) s
          (enumerate_layers sdxl kw).
Proof. destruct kw, sdxl; reflexivity. Qed.

(** ** Stacking on a patch *)

Lemma stack_snoc kw kws kw' :
  stack kw (kws ++ [kw']) = set_new_condition (stack kw kws) kw'.
Proof. unfold stack. by rewrite foldl_app. Qed.

Lemma stack_lists kw kws :
  weights (stack kw kws) = map kw_weight (kw :: kws)
  ∧ ipadapters (stack kw kws) = map kw_ipadapter (kw :: kws)
  ∧ conds (stack kw kws) = map kw_cond (kw :: kws)
  ∧ unconds (stack kw kws) = map kw_uncond (kw :: kws)
  ∧ masks (stack kw kws) = map kw_mask (kw :: kws)
  ∧ number (stack kw kws) = kw_number kw.
Proof.
  induction kws as [|kw' kws IH] using rev_ind.
  - by cbn.
  - rewrite stack_snoc. destruct IH as (Hw & Hi & Hc & Hu & Hm & Hn).
    cbn [set_new_condition weights ipadapters conds unconds masks number].
    rewrite Hw, Hi, Hc, Hu, Hm, Hn.
    change (kw :: kws ++ [kw']) with ((kw :: kws) ++ [kw']).
    by rewrite !map_app.
Qed.


Lemma bundles_stack kw kws : bundles (stack kw kws) = map bundle_of (kw :: kws).
Proof.
  unfold bundles. destruct (stack_lists kw kws) as (-> & -> & -> & -> & -> & _).
  generalize (kw :: kws). intros l. induction l as [|a l IH]; [done|].
  cbn. by rewrite IH.
Qed.

(** C8. Whatever sequence of registrations built an injection patch, one
    construction followed by any number of [set_new_condition] calls, its
    five per-bundle lists have the same length, one entry per registration;
    the bundles are exactly the registered ones in registration order, so
    stacking one more leaves the earlier ones in place. *)
Theorem per_bundle_lists_have_equal_length (kw : PatchKwargs)
    (kws : list PatchKwargs) :
  let p := stack kw kws in
  length (weights p) = S (length kws)
  ∧ length (ipadapters p) = length (weights p)
  ∧ length (conds p) = length (weights p)
  ∧ length (unconds p) = length (weights p)
  ∧ length (masks p) = length (weights p)
  ∧ bundles p = map bundle_of (kw :: kws)
  ∧ ∀ kw', bundles (set_new_condition p kw') = bundles p ++ [bundle_of kw'].
Proof.
  intros p. subst p.
  destruct (stack_lists kw kws) as (Hw & Hi & Hc & Hu & Hm & _).
  rewrite Hw, Hi, Hc, Hu, Hm, !length_map. cbn [length].
  repeat split; try done.
  - apply bundles_stack.
  - intros kw'. rewrite <- stack_snoc, !bundles_stack.
    change (kw :: kws ++ [kw']) with ((kw :: kws) ++ [kw']).
    by rewrite map_app.
Qed.

(** C9. One [set_new_condition] call appends exactly one entry to each of
    the five per-bundle lists, keeps the layer number, and replaces the
    dtype by the new adapter's; the next call of the patch then runs its
    whole autocast block, every stacked adapter's pass included, under
    that dtype. *)
Theorem set_new_condition_frame (p : CrossAttentionPatch) (kw : PatchKwargs)
    (n context_attn2 value_attn2 : Tensor) (extra_options : ExtraOptions)
    (frame : option (list Z)) :
  let p' := set_new_condition p kw in
  weights p' = weights p ++ [kw_weight kw]
  ∧ ipadapters p' = ipadapters p ++ [kw_ipadapter kw]
  ∧ conds p' = conds p ++ [kw_cond kw]
  ∧ unconds p' = unconds p ++ [kw_uncond kw]
  ∧ masks p' = masks p ++ [kw_mask kw]
  ∧ length (weights p') = S (length (weights p))
  ∧ length (ipadapters p') = S (length (ipadapters p))
  ∧ length (conds p') = S (length (conds p))
  ∧ length (unconds p') = S (length (unconds p))
  ∧ length (masks p') = S (length (masks p))
  ∧ number p' = number p
  ∧ dtype p' = kw_dtype kw
  ∧ CrossAttentionPatch_call p' n context_attn2 value_attn2 extra_options frame
    = (cond_or_uncond ← match frame with
                        | Some c => Ok c
                        | None => Raise KeyError
                        end;
       out ← autocast_block (kw_dtype kw) p' n context_attn2 value_attn2
                            extra_options cond_or_uncond;
       mret (to (t_dtype n) out)).
Proof.
  cbn. rewrite !length_app. cbn. repeat split; lia.
Qed.

(** ** The patch table *)

Lemma patch_at_set (m : TransformerOptions) (kw : PatchKwargs)
    (key key' : LayerKey) :
  patch_at (set_model_patch_replace m kw key) key'
  = if decide (key = key')
    then Some (match patch_at m key with
               | None => CrossAttentionPatch_init kw
               | Some p => set_new_condition p kw
               end)
    else patch_at m key'.
Proof.
  unfold patch_at, set_model_patch_replace. cbn.
  rewrite lookup_insert_eq. cbn. rewrite lookup_insert.
  destruct (patches_replace m) as [pr|]; cbn.
  - destruct (pr !! "attn2") as [attn2|]; cbn; by case_decide.
  - rewrite !lookup_empty. cbn. rewrite !lookup_empty. by case_decide.
Qed.

Lemma install_list_other kw l : ∀ m key,
  key ∉ l.*1 → patch_at (install_list kw m l) key = patch_at m key.
Proof.
  induction l as [|[k n] l IH]; intros m key Hnot; [done|].
  cbn in Hnot. apply not_elem_of_cons in Hnot as [Hne Hnot].
  cbn. unfold install_list in IH. rewrite IH by done.
  rewrite patch_at_set. by rewrite decide_False.
Qed.

Lemma install_list_fresh kw l : ∀ m,
  NoDup l.*1 → (∀ key, key ∈ l.*1 → patch_at m key = None) →
  Forall (fun '(key, n) =>
            patch_at (install_list kw m l) key
            = Some (CrossAttentionPatch_init (set_number kw n))) l.
Proof.
  induction l as [|[k n] l IH]; intros m Hnd Hfresh; [constructor|].
  cbn in Hnd. apply NoDup_cons in Hnd as [Hk Hnd].
  constructor.
  - cbn. fold (install_list kw (set_model_patch_replace m (set_number kw n) k) l).
    rewrite install_list_other by done.
    rewrite patch_at_set, decide_True by done.
    rewrite Hfresh; [done|]. cbn. apply elem_of_cons. by left.
  - cbn. apply IH; [done|]. intros key Hin.
    rewrite patch_at_set, decide_False; [|intros Heq; subst; contradiction].
    apply Hfresh. cbn. apply elem_of_cons. by right.
Qed.

Lemma coordinates_NoDup (sdxl : bool) : NoDup (coordinates sdxl).
Proof. destruct sdxl; apply (bool_decide_unpack _); by vm_compute. Qed.

Lemma fresh_install_numbers (sdxl : bool) (kw : PatchKwargs) :
  Forall (fun '(key, n) =>
            number <$> patch_at
              (install_with set_model_patch_replace sdxl fresh_model kw).1 key
            = Some n)
         (enumerate_layers sdxl kw).
Proof.
  rewrite install_with_enumerate.
  pose proof (install_list_fresh kw (enumerate_layers sdxl kw) fresh_model)
    as Hfr.
  rewrite enumerate_layers_eq in Hfr |- *.
  rewrite fst_zip in Hfr by (by rewrite length_seq).
  specialize (Hfr (coordinates_NoDup sdxl)).
  eapply Forall_impl; [apply Hfr; done|].
  intros [key n] Hp. unfold install_list in Hp. by rewrite Hp.
Qed.

(** C1. For both variants the installer visits the fixed coordinates in
    input, output, middle order and hands them the layer numbers 0, 1, 2,
    ... in that order (V1_2: 16 coordinates, numbers 0..15; XL: 70
    coordinates, numbers 0..69); the number of coordinates is the number of
    key/value projector pairs of the variant's channel schedule.  On a host
    without patches each visited coordinate ends up holding a patch that
    carries its layer number. *)
Theorem layer_enumeration_matches_channel_schedule (sdxl : bool)
    (kw : PatchKwargs) (model : TransformerOptions) :
  let kw0 := set_number kw 0 in
  let visited := enumerate_layers sdxl kw0 in
  visited.*1 = coordinates sdxl
  ∧ visited.*2 = seq 0 (length (coordinates sdxl))
  ∧ length visited = length (channels_of sdxl) / 2
  ∧ length (channels_of sdxl) / 2 = (if sdxl then 70 else 16)
  ∧ (install_with set_model_patch_replace sdxl model kw0).1
    = foldl (fun m '(key, n) => set_model_patch_replace m (set_number kw n) key)
            model visited
  ∧ Forall (fun '(key, n) =>
              number <$> patch_at
                (install_with set_model_patch_replace sdxl fresh_model kw0).1 key
              = Some n) visited.
Proof.
  intros kw0 visited.
  assert (Hv : visited = zip (coordinates sdxl)
                             (seq 0 (length (coordinates sdxl)))).
  { subst visited. by rewrite enumerate_layers_eq. }
  assert (Hfst : visited.*1 = coordinates sdxl).
  { rewrite Hv. apply fst_zip. by rewrite length_seq. }
  split; [done|]. split.
  { rewrite Hv. apply snd_zip. by rewrite length_seq. }
  split.
  { rewrite Hv, length_zip_with, length_seq. by destruct sdxl. }
  split; [by destruct sdxl|]. split.
  { rewrite install_with_enumerate. fold visited. by destruct kw. }
  subst visited. eapply Forall_impl; [apply fresh_install_numbers|].
  by intros [key n].
Qed.

(** ** Loading the key/value bank *)

Lemma dict_get_elem {V} (sd : list (string * V)) (k : string) (v : V) :
  NoDup (dict_keys sd) → (k, v) ∈ sd → dict_get sd k = Ok v.
Proof.
  induction sd as [|[k' v'] sd IH]; intros Hnd Hin.
  - by apply elem_of_nil in Hin.
  - cbn in Hnd. apply NoDup_cons in Hnd as [Hk Hnd].
    apply elem_of_cons in Hin as [[= -> ->]|Hin]; cbn.
    + by rewrite String.eqb_refl.
    + destruct (String.eqb_spec k' k) as [->|]; [|by apply IH].
      destruct Hk. apply list_elem_of_fmap. by exists (k, v).
Qed.

Lemma dict_get_keys {V} (sd : list (string * V)) :
  NoDup (dict_keys sd) →
  Forall2 (fun k v => dict_get sd k = Ok v) (dict_keys sd) sd.*2.
Proof.
  intros Hnd. unfold dict_keys.
  apply Forall2_fmap, Forall_Forall2_diag, Forall_forall.
  intros [k v] Hin. by apply dict_get_elem.
Qed.

Lemma dict_get_own_keys {V} (sd : list (string * V)) :
  Forall (fun k => is_ok (dict_get sd k) = true) (dict_keys sd).
Proof.
  induction sd as [|[k v] sd IH]; [constructor|].
  cbn. constructor.
  - by rewrite String.eqb_refl.
  - eapply Forall_impl; [exact IH|].
    intros k' Hok. cbn. by destruct (String.eqb k k').
Qed.

Lemma load_loop_positional (sd : list (string * Mat)) :
  ∀ (keys : list string) (vals : list Mat) (i : nat) (kvs : list Mat),
  Forall2 (fun k v => dict_get sd k = Ok v) keys vals →
  i + length keys ≤ length kvs →
  load_loop sd i keys kvs
  = Ok (take i kvs ++ vals ++ drop (i + length keys) kvs).
Proof.
  induction keys as [|key keys IH]; intros vals i kvs Hget Hlen.
  - apply Forall2_nil_inv_l in Hget as ->. cbn.
    by rewrite Nat.add_0_r, take_drop.
  - apply Forall2_cons_inv_l in Hget as (w & vals' & Hw & Hget & ->).
    cbn in Hlen. cbn [load_loop]. rewrite Hw. cbn.
    rewrite decide_True by lia.
    rewrite (IH vals') by (rewrite ?length_insert; done || lia).
    f_equal.
    rewrite (take_S_r _ _ w) by (apply list_lookup_insert_eq; lia).
    rewrite take_insert_ge by lia.
    rewrite drop_insert_lt by lia.
    rewrite <- app_assoc. cbn.
    by replace (i + S (length keys)) with (S (i + length keys)) by lia.
Qed.

Lemma load_loop_succeeds (sd : list (string * Mat)) :
  ∀ (keys : list string) (i : nat) (kvs : list Mat),
  Forall (fun k => is_ok (dict_get sd k) = true) keys →
  i + length keys ≤ length kvs →
  ∃ kvs', load_loop sd i keys kvs = Ok kvs' ∧ length kvs' = length kvs.
Proof.
  induction keys as [|key keys IH]; intros i kvs Hget Hlen.
  - by exists kvs.
  - apply Forall_cons in Hget as [Hw Hget]. cbn in Hlen. cbn [load_loop].
    destruct (dict_get sd key) as [w|]; [|done]. cbn.
    rewrite decide_True by lia.
    destruct (IH (S i) (<[i:=w]> kvs) Hget) as (kvs' & -> & Hl).
    { rewrite length_insert. lia. }
    exists kvs'. by rewrite Hl, length_insert.
Qed.

Lemma load_loop_overflow (sd : list (string * Mat)) :
  ∀ (keys : list string) (i : nat) (kvs : list Mat),
  Forall (fun k => is_ok (dict_get sd k) = true) keys →
  i ≤ length kvs → length kvs < i + length keys →
  load_loop sd i keys kvs = Raise IndexError.
Proof.
  induction keys as [|key keys IH]; intros i kvs Hget Hi Hlen.
  - cbn in Hlen. lia.
  - apply Forall_cons in Hget as [Hw Hget]. cbn in Hlen. cbn [load_loop].
    destruct (dict_get sd key) as [w|]; [|done]. cbn.
    case_decide; [|done].
    apply IH; rewrite ?length_insert; done || lia.
Qed.

(** C2, as the code has it. Loading fills the projectors strictly by
    position: the i-th tensor of the serialized state becomes the weight of
    projector i, whatever its shape, and the projectors past the end of the
    state keep what they had.  No width is compared with the channel
    schedule; the one failure is an index error, raised exactly when the
    state holds more tensors than the bank has projectors. *)
Theorem load_state_dict_is_positional (self : To_KV)
    (state_dict : list (string * Mat)) :
  NoDup (dict_keys state_dict) →
  (length state_dict ≤ length (to_kvs self) →
   To_KV_load_state_dict self state_dict
   = Ok {| to_kvs := state_dict.*2
                       ++ drop (length state_dict) (to_kvs self) |})
  ∧ (length (to_kvs self) < length state_dict →
     To_KV_load_state_dict self state_dict = Raise IndexError).
Proof.
  intros Hnd. unfold To_KV_load_state_dict. split; intros Hlen.
  - rewrite (load_loop_positional _ _ state_dict.*2).
    + cbn. unfold dict_keys. by rewrite length_map.
    + by apply dict_get_keys.
    + unfold dict_keys. by rewrite length_map.
  - rewrite load_loop_overflow; [done| |lia|].
    + apply dict_get_own_keys.
    + unfold dict_keys. rewrite length_map. lia.
Qed.

(** ** The loader *)

Lemma synthetic_dimension (d tokens E : nat) (widths : list nat) :
  0 < hd 0 widths →
  ∃ w, dict_get (ip_adapter (synthetic_checkpoint d tokens E widths))
                "1.to_k_ip.weight" = Ok w
       ∧ length (hd [] w) = d.
Proof.
  intros Hc. destruct widths as [|c0 rest]; [cbn in Hc; lia|]. cbn [hd] in Hc.
  exists (zeros c0 d). split; [reflexivity|].
  destruct c0; [lia|]. cbn. by rewrite length_replicate.
Qed.

Lemma adapter_inv (model : TransformerOptions) (ckpt : Checkpoint)
    (clip_vision : bool → PTensor * PTensor) (weight : R) (dt : string)
    (mask : option Mat) (m' : TransformerOptions) :
  adapter model ckpt clip_vision weight dt mask = Ok m' →
  ∃ w kw,
    dict_get (ip_adapter ckpt) "1.to_k_ip.weight" = Ok w
    ∧ kw_number kw = 0 ∧ kw_weight kw = weight ∧ kw_mask kw = mask
    ∧ m' = (install_with set_model_patch_replace
                         (bool_decide (length (hd [] w) = 2048)) model kw).1.
Proof.
  unfold adapter. intros Hok.
  destruct (dict_get (ip_adapter ckpt) "1.to_k_ip.weight") as [w|]; [|done].
  cbn [mbind Result_bind] in Hok.
  inv_bind Hok. destruct (clip_vision _) as [cond uncond].
  inv_bind Hok. inv_bind Hok.
  cbn in Hok. injection Hok as <-.
  eexists w, _. split; [done|]. split; [|split; [|split; [|reflexivity]]]; done.
Qed.

Lemma hd_zeros r c : 0 < r → hd [] (zeros r c) = replicate c 0%R.
Proof. destruct r; [lia|done]. Qed.

Lemma shape2_zeros r c : 0 < r → shape2 (zeros r c) = [r; c].
Proof.
  intros Hr. unfold shape2. rewrite hd_zeros by done.
  unfold zeros. by rewrite !length_replicate.
Qed.

Lemma To_KV_init_length (d : nat) :
  length (to_kvs (To_KV_init d)) = length (channels_of (bool_decide (d = 2048))).
Proof.
  unfold To_KV_init. cbn. rewrite length_imap.
  by case_decide; [rewrite bool_decide_eq_true_2|rewrite bool_decide_eq_false_2].
Qed.

Lemma load_synthetic_image_proj (d tokens E : nat) (widths : list nat) :
  0 < d → 0 < tokens →
  ∃ m, ImageProjModel_load d E tokens
         (image_proj (synthetic_checkpoint d tokens E widths)) = Ok m.
Proof.
  intros Hd Ht. unfold ImageProjModel_load, synthetic_checkpoint, image_proj.
  cbn [dict_get String.eqb Ascii.eqb Bool.eqb].
  rewrite decide_True; [by eexists|].
  rewrite shape2_zeros by lia. by rewrite !length_replicate.
Qed.

Lemma adapter_accepts_synthetic (model : TransformerOptions)
    (d tokens E : nat) (widths : list nat) (weight : R) (dt : string)
    (mask : option Mat) :
  0 < d → 0 < tokens → 0 < hd 0 widths →
  length widths ≤ length (channels_of (bool_decide (d = 2048))) →
  ∃ kw, kw_number kw = 0 ∧ kw_weight kw = weight ∧ kw_mask kw = mask
    ∧ adapter model (synthetic_checkpoint d tokens E widths)
              (pooled_embeds E) weight dt mask
      = Ok (install_with set_model_patch_replace (bool_decide (d = 2048))
                         model kw).1.
Proof.
  intros Hd Ht Hc Hlen. destruct widths as [|c0 rest]; [cbn in Hc; lia|].
  cbn [hd] in Hc. unfold adapter.
  set (ck := synthetic_checkpoint d tokens E (c0 :: rest)).
  change (dict_has (image_proj ck) "latents") with false.
  change (dict_get (ip_adapter ck) "1.to_k_ip.weight") with (Ok (zeros c0 d)).
  change (dict_get (image_proj ck) "proj.weight")
    with (Ok (P2 (zeros (tokens * d) E))).
  cbn [mbind Result_bind].
  rewrite hd_zeros by done. rewrite length_replicate.
  rewrite decide_False by lia.
  cbn [pooled_embeds pshape]. rewrite !shape2_zeros by lia.
  cbn [hd List.last]. rewrite Nat.div_mul by lia.
  unfold IPAdapterModel_init.
  destruct (load_synthetic_image_proj d tokens E (c0 :: rest) Hd Ht) as [m Hm].
  fold ck in Hm. cbn [mbind Result_bind]. rewrite Hm. cbn [fmap Result_fmap mbind Result_bind].
  destruct (load_loop_succeeds (ip_adapter ck) (dict_keys (ip_adapter ck)) 0
              (to_kvs (To_KV_init d))) as (kvs & Hkvs & _).
  { apply dict_get_own_keys. }
  { rewrite To_KV_init_length. unfold dict_keys, ck, synthetic_checkpoint.
    cbn [ip_adapter]. by rewrite length_map, length_imap. }
  unfold To_KV_load_state_dict. rewrite Hkvs.
  cbn [mbind Result_bind mret Result_ret IPAdapterModel_to image_proj_model
       get_image_embeds project].
  eexists. split; [|split; [|split; [|reflexivity]]]; done.
Qed.

(** C3, as the code has it. The loader has no notion of an unsupported
    dimensionality: 2048 selects the XL schedule and every other value, not
    only 768 and 1024, selects the V1_2 schedule.  So every accepted
    checkpoint is installed as XL exactly when its dimensionality is 2048,
    and for every positive dimensionality [d] there is a checkpoint of that
    dimensionality which the loader accepts. *)
Theorem every_dimension_selects_a_variant (d : nat)
    (model : TransformerOptions) (weight : R) (dt : string)
    (mask : option Mat) :
  0 < d →
  let sdxl := bool_decide (d = 2048) in
  let ckpt := synthetic_checkpoint d 4 1024 (channels_of sdxl) in
  length (to_kvs (To_KV_init d)) = length (channels_of sdxl)
  ∧ (∃ w, dict_get (ip_adapter ckpt) "1.to_k_ip.weight" = Ok w
          ∧ length (hd [] w) = d)
  ∧ (∃ kw, kw_number kw = 0
           ∧ adapter model ckpt (pooled_embeds 1024) weight dt mask
             = Ok (install_with set_model_patch_replace sdxl model kw).1)
  ∧ ∀ ckpt' clip_vision m',
      adapter model ckpt' clip_vision weight dt mask = Ok m' →
      ∃ w kw,
        dict_get (ip_adapter ckpt') "1.to_k_ip.weight" = Ok w
        ∧ m' = (install_with set_model_patch_replace
                  (bool_decide (length (hd [] w) = 2048)) model kw).1.
Proof.
  intros Hd sdxl ckpt.
  assert (Hhd : 0 < hd 0 (channels_of sdxl)) by (destruct sdxl; cbn; lia).
  split; [apply To_KV_init_length|].
  split; [by apply synthetic_dimension|]. split.
  - destruct (adapter_accepts_synthetic model d 4 1024 (channels_of sdxl)
                weight dt mask) as (kw & Hn & _ & _ & Hok); try done; try lia.
    by exists kw.
  - intros ckpt' clip_vision m' Hok.
    apply adapter_inv in Hok as (w & kw & Hw & _ & _ & _ & ->).
    by exists w, kw.
Qed.

(** C6, as the code has it. A checkpoint of cross-attention
    dimensionality 768 is installed on the V1_2 schedule, whose 16
    coordinates are fixed in the code: whatever the number of stored
    [ip_adapter] weights (16 included) and whichever projector it has, the
    installer visits exactly 16 coordinates, which is
    [len(SD_V12_CHANNELS) // 2], and numbers them 0..15 in input, output,
    middle order. *)
Theorem v12_enumeration_is_fixed (model : TransformerOptions)
    (ckpt : Checkpoint) (clip_vision : bool → PTensor * PTensor)
    (weight : R) (dt : string) (mask : option Mat) (w : Mat)
    (m' : TransformerOptions) :
  dict_get (ip_adapter ckpt) "1.to_k_ip.weight" = Ok w →
  length (hd [] w) = 768 →
  adapter model ckpt clip_vision weight dt mask = Ok m' →
  ∃ kw, kw_number kw = 0
        ∧ m' = (install_with set_model_patch_replace false model kw).1
        ∧ (enumerate_layers false kw).*1 = v12_coordinates
        ∧ (enumerate_layers false kw).*2 = seq 0 16
        ∧ length (enumerate_layers false kw) = 16
        ∧ length SD_V12_CHANNELS / 2 = 16.
Proof.
  intros Hw Hdim Hok.
  apply adapter_inv in Hok as (w' & kw & Hw' & Hn & _ & _ & ->).
  rewrite Hw in Hw'. injection Hw' as <-. rewrite Hdim.
  exists kw. split; [done|]. split; [done|].
  rewrite enumerate_layers_eq, Hn.
  rewrite fst_zip, snd_zip, length_zip_with, length_seq by (by rewrite length_seq).
  done.
Qed.

(** ** Reshaping *)

Lemma chunks_length {A} (k : nat) (l : list A) :
  length (chunks k l) = length l / k.
Proof. unfold chunks. by rewrite length_map, length_seq. Qed.

Lemma chunks_cons {A} (k : nat) (x l : list A) :
  0 < k → length x = k → chunks k (x ++ l) = x :: chunks k l.
Proof.
  intros Hk Hx. unfold chunks. rewrite length_app, Hx.
  replace (k + length l) with (1 * k + length l) by lia.
  rewrite Nat.div_add_l by lia. cbn [Nat.add seq map].
  f_equal.
  - rewrite Nat.mul_0_l, drop_0. by apply take_app_length'.
  - rewrite <- seq_shift, map_map. apply map_ext. intros i.
    replace (S i * k) with (length x + i * k) by lia.
    by rewrite drop_app_add.
Qed.

Lemma chunks_concat {A} (k : nat) (l : list (list A)) :
  0 < k → Forall (fun r => length r = k) l → chunks k (concat l) = l.
Proof.
  intros Hk Hl. induction Hl as [|x l Hx Hl IH]; cbn.
  - unfold chunks. cbn. by rewrite Nat.Div0.div_0_l.
  - by rewrite chunks_cons, IH.
Qed.

Lemma chunks_Forall {A} (k : nat) (l : list A) :
  Forall (fun r => length r = k) (chunks k l).
Proof.
  unfold chunks. apply Forall_map, Forall_forall. intros i Hi.
  apply elem_of_seq in Hi as [_ Hi]. cbn in Hi.
  destruct (decide (k = 0)) as [->|Hk]; [by rewrite take_0|].
  rewrite length_take, length_drop.
  pose proof (Nat.div_mod (length l) k Hk) as Hdm.
  assert (S i * k ≤ length l) by nia. lia.
Qed.

Lemma chunks_app {A} (k n : nat) (l1 l2 : list A) :
  0 < k → length l1 = n * k →
  chunks k (l1 ++ l2) = chunks k l1 ++ chunks k l2.
Proof.
  intros Hk. revert l1. induction n as [|n IH]; intros l1 Hl1.
  - apply nil_length_inv in Hl1 as ->. cbn.
    unfold chunks at 2. cbn. by rewrite Nat.Div0.div_0_l.
  - rewrite <- (take_drop k l1), <- app_assoc.
    assert (length (take k l1) = k) by (rewrite length_take; lia).
    rewrite (chunks_cons k (take k l1) (drop k l1 ++ l2)) by done.
    rewrite (chunks_cons k (take k l1) (drop k l1)) by done.
    rewrite IH by (rewrite length_drop; lia). done.
Qed.

Lemma chunks_concat_rows {A} (k n : nat) (rows : list (list A)) :
  0 < k → Forall (fun r => length r = n * k) rows →
  chunks k (concat rows) = concat (map (chunks k) rows).
Proof.
  intros Hk Hrows. induction Hrows as [|r rows Hr Hrows IH]; cbn.
  - unfold chunks. cbn. by rewrite Nat.Div0.div_0_l.
  - by rewrite (chunks_app k n), IH.
Qed.

Lemma reshape_m1_rows (T C : nat) (x : Mat) :
  0 < T → 0 < C → Forall (fun r => length r = T * C) x →
  reshape_m1 T C x = map (chunks C) x.
Proof.
  intros HT HC Hx. unfold reshape_m1.
  rewrite (chunks_concat_rows C T) by done.
  apply chunks_concat; [done|].
  apply Forall_map. eapply Forall_impl; [exact Hx|].
  intros r Hr. cbn. rewrite chunks_length, Hr. by apply Nat.div_mul; lia.
Qed.

Lemma linear2_rows (W : Mat) (b : Vec) (x : Mat) :
  length b = length W →
  Forall (fun r => length r = length W) (linear2 W (Some b) x).
Proof.
  intros Hb. apply Forall_map, Forall_forall. intros r _. cbn.
  rewrite length_zip_with, length_map, Hb. apply Nat.min_id.
Qed.

Lemma layer_norm_row_length (eps : R) (gamma beta v : Vec) :
  length gamma = length v → length beta = length v →
  length (layer_norm_row eps gamma beta v) = length v.
Proof.
  intros Hg Hb. unfold layer_norm_row.
  rewrite !length_zip_with, length_map. lia.
Qed.

Lemma ImageProjModel_load_wf (cad clip_dim tokens : nat)
    (sd : list (string * PTensor)) (m : ImageProjModel) :
  0 < tokens → 0 < cad →
  ImageProjModel_load cad clip_dim tokens sd = Ok m → ImageProjModel_wf m.
Proof.
  intros Ht Hc. unfold ImageProjModel_load.
  destruct (dict_get sd "proj.weight") as [[| W |]|]; try done.
  destruct (dict_get sd "proj.bias") as [[b | |]|]; try done.
  destruct (dict_get sd "norm.weight") as [[g | |]|]; try done.
  destruct (dict_get sd "norm.bias") as [[be | |]|]; try done.
  case_decide as Hshape; [|done]. intros [= <-].
  destruct Hshape as (_ & HW & Hb & Hg & Hbe).
  injection HW as HW _. by repeat split.
Qed.

Lemma ImageProjModel_to_wf (d : DType) (m : ImageProjModel) :
  ImageProjModel_wf m → ImageProjModel_wf (ImageProjModel_to d m).
Proof.
  intros (HT & HC & HW & Hb & Hg & Hbe). unfold ImageProjModel_wf. cbn.
  unfold cast2, cast1. by rewrite !length_map.
Qed.

(** C7. On every raw embedding of shape (batch, embed_dim) the shallow
    projector computes LayerNorm(reshape(Linear(raw), (batch, num_tokens,
    cross_attention_dim))), normalising over the last dimension, and its
    result has shape (batch, num_tokens, cross_attention_dim). *)
Theorem shallow_projector_is_linear_reshape_norm (m : ImageProjModel)
    (raw_embedding : Mat) :
  ImageProjModel_wf m →
  ImageProjModel_forward m raw_embedding
  = shallow_projector_spec m raw_embedding
  ∧ has_shape (length raw_embedding) (clip_extra_context_tokens m)
              (cross_attention_dim m)
              (ImageProjModel_forward m raw_embedding).
Proof.
  intros (HT & HC & HW & Hb & Hg & Hbe).
  assert (Heq : ImageProjModel_forward m raw_embedding
                = shallow_projector_spec m raw_embedding).
  { unfold ImageProjModel_forward, shallow_projector_spec.
    rewrite reshape_m1_rows; [done..|].
    rewrite <- HW. apply linear2_rows. lia. }
  split; [done|]. rewrite Heq. unfold shallow_projector_spec, layer_norm.
  split; [unfold linear2; by rewrite !length_map|].
  apply Forall_map, Forall_map, Forall_forall. intros r Hr. cbn.
  pose proof (linear2_rows (proj_weight m) (proj_bias m) raw_embedding) as Hrows.
  rewrite Forall_forall in Hrows. specialize (Hrows ltac:(lia) r Hr).
  rewrite length_map, chunks_length, Hrows, HW.
  split; [by apply Nat.div_mul; lia|].
  apply Forall_map. eapply Forall_impl; [apply chunks_Forall|].
  intros v Hv. cbn in *. rewrite layer_norm_row_length; lia.
Qed.

(** ** Elementwise kernels on full tensors *)

Lemma sequence_Ok {A} (l : list A) : sequence (map Ok l) = Ok l.
Proof. induction l as [|a l IH]; [done|]. cbn. by rewrite IH. Qed.

Lemma zip_with_replicate_r {A B C} (f : A → B → C) (l : list A) (b : B) :
  zip_with f l (replicate (length l) b) = map (fun a => f a b) l.
Proof. induction l as [|a l IH]; [done|]. cbn. by rewrite IH. Qed.

Lemma ewise_full (f : R → R → R) (b n c : nat) (v : R) (x : T3) :
  has_shape b n c x →
  ewise f x (full b n c v) = Ok (map (map (map (fun a => f a v))) x).
Proof.
  intros [Hb Hx]. unfold ewise, full. subst b.
  rewrite zip_with_replicate_r, <- sequence_Ok. f_equal.
  rewrite <- list_fmap_compose. apply Forall_fmap_ext_1.
  eapply Forall_impl; [exact Hx|]. intros m [Hn Hm]. cbn in Hn, Hm |- *.
  unfold bcast1. rewrite decide_True by (by rewrite length_replicate).
  f_equal. subst n. rewrite zip_with_replicate_r.
  apply Forall_fmap_ext_1. eapply Forall_impl; [exact Hm|].
  intros r Hr. cbn in Hr |- *. subst c. apply zip_with_replicate_r.
Qed.

Lemma map3_const_full (b n c : nat) (v : R) (x : T3) :
  has_shape b n c x →
  map (map (map (fun _ => v))) x = full b n c v.
Proof.
  intros [Hb Hx]. unfold full. subst b.
  induction Hx as [|m x [Hn Hm] Hx IH]; [done|]. cbn. f_equal; [|exact IH].
  subst n. clear -Hm. induction Hm as [|r m Hr Hm IH]; [done|].
  cbn. f_equal; [|exact IH]. subst c. clear.
  induction r as [|a r IH]; [done|]. cbn. by rewrite IH.
Qed.

Lemma map3_id (g : R → R) (x : T3) :
  (∀ a, g a = a) → map (map (map g)) x = x.
Proof.
  intros Hg. rewrite <- (list_fmap_id x) at 2.
  apply list_fmap_ext. intros _ m _. rewrite <- (list_fmap_id m) at 2.
  apply list_fmap_ext. intros _ r _. rewrite <- (list_fmap_id r) at 2.
  apply list_fmap_ext. intros _ a _. apply Hg.
Qed.

Lemma tscale_one (t : T3) : tscale t 1 = t.
Proof. apply map3_id. intros a. lra. Qed.




Lemma tadd_zeros (b n c : nat) (x : T3) :
  has_shape b n c x → tadd x (full b n c 0) = Ok x.
Proof.
  intros Hx. unfold tadd. rewrite (ewise_full _ b n c) by done.
  f_equal. apply map3_id. intros a. lra.
Qed.

(** ** Downsampling a constant mask *)

Lemma map_const_replicate {A B} (x : B) (l : list A) :
  map (fun _ => x) l = replicate (length l) x.
Proof. induction l as [|a l IH]; [done|]. cbn. by rewrite IH. Qed.



Lemma evenly_rate (r h w : nat) :
  0 < r → 0 < h → 0 < w →
  Nat.sqrt (8 * r * h * (8 * r * w) / 64 / (h * w)) = r.
Proof.
  intros Hr Hh Hw.
  replace (8 * r * h * (8 * r * w)) with (r * r * (h * w) * 64) by lia.
  rewrite Nat.div_mul by lia. rewrite Nat.div_mul by lia.
  apply Nat.sqrt_square.
Qed.

Lemma f64_mul_zero_l (x : spec_float) :
  float_to_nat (f64_mul (S754_zero false) x) = 0.
Proof. by destruct x as [[]|[]| |[] ? ?]. Qed.

Lemma interpolate_size_0 (s : spec_float) : interpolate_size 0 s = 0.
Proof. apply f64_mul_zero_l. Qed.





(** ** Calling the patch *)

Lemma call_unfold (p : CrossAttentionPatch) (n ck cv : Tensor)
    (opts : ExtraOptions) (sel : list Z) :
  sel ≠ [] →
  CrossAttentionPatch_call p n ck cv opts (Some sel)
  = (out ← foldlM (patch_step (dtype p) (number p) (t_data n) opts
                              (length (t_data n) / length sel) sel)
                  (attention (dtype p) (t_data n) (t_data ck) (t_data cv) opts)
                  (bundles p);
     mret (to (t_dtype n) out)).
Proof.
  intros Hsel. unfold CrossAttentionPatch_call, autocast_block.
  cbn [mbind Result_bind].
  rewrite decide_False; [done|]. by destruct sel.
Qed.

Lemma call_single (kw : PatchKwargs) (n ck cv : Tensor)
    (opts : ExtraOptions) (sel : list Z) :
  sel ≠ [] →
  CrossAttentionPatch_call (CrossAttentionPatch_init kw) n ck cv opts (Some sel)
  = (out ← patch_step (kw_dtype kw) (kw_number kw) (t_data n) opts
                      (length (t_data n) / length sel) sel
                      (attention (kw_dtype kw) (t_data n) (t_data ck)
                                 (t_data cv) opts)
                      (bundle_of kw);
     mret (to (t_dtype n) out)).
Proof.
  intros Hsel. rewrite call_unfold by done.
  cbn [CrossAttentionPatch_init dtype number bundles weights conds unconds
       ipadapters masks zip zip_with foldlM].
  fold (bundle_of kw).
  by destruct (patch_step _ _ _ _ _ _ _ _).
Qed.

Lemma call_dtype (p : CrossAttentionPatch) (n ck cv : Tensor)
    (opts : ExtraOptions) (frame : option (list Z)) (t : Tensor) :
  CrossAttentionPatch_call p n ck cv opts frame = Ok t →
  t_dtype t = t_dtype n.
Proof.
  unfold CrossAttentionPatch_call. intros Hok.
  inv_bind Hok. inv_bind Hok. by injection Hok as <-.
Qed.

(** C4. A patch holding a single bundle with weight 1 and no mask returns
    the baseline attention over (query, context key, context value) plus
    one attention pass of the query against the bundle's tokens projected
    by [to_kvs[2 * number]] (keys) and [to_kvs[2 * number + 1]] (values),
    cast to the dtype the query came in with. *)
Theorem single_adapter_adds_one_attention_pass (kw : PatchKwargs)
    (n context_attn2 value_attn2 : Tensor) (extra_options : ExtraOptions)
    (cond_or_uncond : list Z) (uncond_cond : T3) (to_k to_v : Mat) :
  kw_weight kw = 1%R →
  kw_mask kw = None →
  cond_or_uncond ≠ [] →
  select_tokens (kw_cond kw) (kw_uncond kw)
                (length (t_data n) / length cond_or_uncond) cond_or_uncond
  = Ok uncond_cond →
  to_kvs (ip_layers (kw_ipadapter kw)) !! (2 * kw_number kw) = Some to_k →
  to_kvs (ip_layers (kw_ipadapter kw)) !! (2 * kw_number kw + 1) = Some to_v →
  let ctx := kw_dtype kw in
  let q := t_data n in
  let baseline :=
    attention ctx q (t_data context_attn2) (t_data value_attn2) extra_options in
  let ip_k := linear3 (cast2 ctx to_k) None (autocast ctx uncond_cond) in
  let ip_v := linear3 (cast2 ctx to_v) None (autocast ctx uncond_cond) in
  let adapter_pass := attention ctx q ip_k ip_v extra_options in
  CrossAttentionPatch_call (CrossAttentionPatch_init kw) n context_attn2
                           value_attn2 extra_options (Some cond_or_uncond)
  = (out ← tadd baseline adapter_pass; mret (to (t_dtype n) out))
  ∧ ∀ t, CrossAttentionPatch_call (CrossAttentionPatch_init kw) n
           context_attn2 value_attn2 extra_options (Some cond_or_uncond)
         = Ok t → t_dtype t = t_dtype n.
Proof.
  intros Hw Hm Hsel Huc Hk Hv ctx q baseline ip_k ip_v adapter_pass.
  split; [|intros t; apply call_dtype].
  rewrite call_single by done.
  unfold patch_step, bundle_of, ip_attention, list_get.
  rewrite Hw, Hm, Huc. cbn [mbind Result_bind].
  rewrite (Nat.mul_comm (kw_number kw) 2), Hk, Hv.
  cbn [mbind Result_bind mret Result_ret apply_mask].
  by rewrite tscale_one.
Qed.

Lemma patch_step_mask_error (ctx : DType) (num : nat) (q : T3)
    (opts : ExtraOptions) (bp : nat) (sel : list Z) (out : T3)
    (kw : PatchKwargs) (mask : Mat) :
  kw_mask kw = Some mask →
  mask_downsample_of mask out = Raise ZeroDivisionError →
  patch_step ctx num q opts bp sel out (bundle_of kw)
  = (ip_out ← ip_attention ctx num q opts bp sel (kw_cond kw) (kw_uncond kw)
                           (kw_ipadapter kw);
     Raise ZeroDivisionError).
Proof.
  intros Hmask Hmd. unfold patch_step, bundle_of. rewrite Hmask.
  destruct (ip_attention _ _ _ _ _ _ _ _ _) as [ip_out|e]; [|done].
  cbn [mbind Result_bind apply_mask]. by rewrite Hmd.
Qed.

(** C10. The masked path is partial. Whenever a bundle has a mask and
    [mask_height * mask_width // 64 // tokens] is 0, the integer downsample
    rate is 0 and the loop iteration for that bundle does not return: once
    the adapter's own attention pass has been computed it raises a division
    by zero.  So a patch whose first bundle has such a mask never returns
    from a call.  A 64 x 64 mask at a layer with 4096 tokens is such a
    case. *)
Theorem masked_call_divides_by_zero (kw : PatchKwargs)
    (kws : list PatchKwargs) (mask : Mat)
    (n context_attn2 value_attn2 : Tensor) (extra_options : ExtraOptions) :
  let p := stack kw kws in
  let q := t_data n in
  let out :=
    attention (dtype p) q (t_data context_attn2) (t_data value_attn2)
              extra_options in
  kw_mask kw = Some mask →
  length mask * length (hd [] mask) / 64 / length (hd [] out) = 0 →
  (∀ ctx num bp cond_or_uncond,
     patch_step ctx num q extra_options bp cond_or_uncond out (bundle_of kw)
     = (ip_out ← ip_attention ctx num q extra_options bp cond_or_uncond
                   (kw_cond kw) (kw_uncond kw) (kw_ipadapter kw);
        Raise ZeroDivisionError))
  ∧ (∀ frame, is_ok (CrossAttentionPatch_call p n context_attn2 value_attn2
                                              extra_options frame) = false)
  ∧ (∀ cond_or_uncond ip_out,
       cond_or_uncond ≠ [] →
       ip_attention (dtype p) (number p) q extra_options
                    (length q / length cond_or_uncond) cond_or_uncond
                    (kw_cond kw) (kw_uncond kw) (kw_ipadapter kw) = Ok ip_out →
       CrossAttentionPatch_call p n context_attn2 value_attn2 extra_options
                                (Some cond_or_uncond)
       = Raise ZeroDivisionError)
  ∧ (∀ out' : T3, length (hd [] out') = 4096 →
       mask_downsample_of (zeros 64 64) out' = Raise ZeroDivisionError).
Proof.
  intros p q out Hmask Hzero.
  assert (Hmd : mask_downsample_of mask out = Raise ZeroDivisionError).
  { unfold mask_downsample_of. case_decide; [done|].
    rewrite Hzero. by rewrite decide_True. }
  assert (Hstep : ∀ sel, sel ≠ [] →
            CrossAttentionPatch_call p n context_attn2 value_attn2
                                     extra_options (Some sel)
            = (ip_out ← ip_attention (dtype p) (number p) q extra_options
                          (length q / length sel) sel
                          (kw_cond kw) (kw_uncond kw) (kw_ipadapter kw);
               Raise ZeroDivisionError)).
  { intros sel Hsel. rewrite call_unfold by done.
    subst p. rewrite bundles_stack. cbn [map foldlM]. fold q. fold out.
    rewrite (patch_step_mask_error _ _ _ _ _ _ _ _ mask) by done.
    by destruct (ip_attention _ _ _ _ _ _ _ _ _). }
  split; [|split; [|split]].
  - intros ctx num bp sel. by apply (patch_step_mask_error _ _ _ _ _ _ _ _ mask).
  - intros [sel|]; [|done].
    destruct (decide (sel = [])) as [->|Hsel]; [done|].
    rewrite Hstep by done. by destruct (ip_attention _ _ _ _ _ _ _ _ _).
  - intros sel ip_out Hsel Hip. rewrite Hstep by done. by rewrite Hip.
  - intros out' Hout'. unfold mask_downsample_of. rewrite Hout'.
    rewrite decide_False by lia.
    replace (length (zeros 64 64) * length (hd [] (zeros 64 64)) / 64 / 4096)
      with 0; [done|].
    rewrite hd_zeros by lia. unfold zeros. rewrite !length_replicate.
    by vm_compute.
Qed.

(** ** IEEE arithmetic at powers of two

    Scaling by a power of two is exact.  The lemmas of this section follow
    a rounding through [SpecFloat]'s definitions: a mantissa of [prec]
    bits followed by [k] zero bits is shifted right [k] times without
    loss. *)

Section Rounding.

Variables prec emax : Z.
Hypothesis Hprec : (0 < prec)%Z.
Hypothesis Hemax : (prec < emax)%Z.

Lemma iter_pos_iter {A} (f : A → A) (p : positive) (x : A) :
  SpecFloat.iter_pos f p x = Nat.iter (Pos.to_nat p) f x.
Proof.
  revert x. induction p as [p IH|p IH|]; intros x; cbn [SpecFloat.iter_pos].
  - rewrite !IH, Pos2Nat.inj_xI.
    replace (S (2 * Pos.to_nat p)) with (Pos.to_nat p + (Pos.to_nat p + 1))
      by lia.
    by rewrite !Nat.iter_add.
  - rewrite !IH, Pos2Nat.inj_xO.
    replace (2 * Pos.to_nat p) with (Pos.to_nat p + Pos.to_nat p) by lia.
    by rewrite Nat.iter_add.
  - done.
Qed.

Lemma shr_1_shift (k : nat) (m : positive) :
  Nat.iter k shr_1
           {| shr_m := Zpos (Nat.iter k xO m); shr_r := false; shr_s := false |}
  = {| shr_m := Zpos m; shr_r := false; shr_s := false |}.
Proof.
  revert m. induction k as [|k IH]; intros m; [done|].
  rewrite (Nat.iter_succ_r k xO m), (Nat.iter_succ k shr_1).
  by rewrite IH.
Qed.

Lemma digits_shift (k : nat) (m : positive) :
  Zpos (digits2_pos (Nat.iter k xO m))
  = (Zpos (digits2_pos m) + Z.of_nat k)%Z.
Proof.
  induction k as [|k IH]; [cbn; lia|].
  rewrite Nat.iter_succ. cbn [digits2_pos]. rewrite Pos2Z.inj_succ, IH. lia.
Qed.

Lemma Zpos_shift (k : nat) (m : positive) :
  Zpos (Nat.iter k xO m) = (Zpos m * 2 ^ Z.of_nat k)%Z.
Proof.
  induction k as [|k IH]; [cbn; lia|].
  rewrite Nat.iter_succ, (Pos2Z.inj_xO (Nat.iter k xO m)), IH, Nat2Z.inj_succ, Z.pow_succ_r by lia.
  lia.
Qed.

Lemma mul_shift (k : nat) (m : positive) :
  Pos.mul m (Nat.iter k xO 1%positive) = Nat.iter k xO m.
Proof.
  induction k as [|k IH]; [cbn; lia|].
  by rewrite !Nat.iter_succ, Pos.mul_xO_r, IH.
Qed.

Lemma digits_bounds (p : positive) :
  (2 ^ (Zpos (digits2_pos p) - 1) ≤ Zpos p < 2 ^ Zpos (digits2_pos p))%Z.
Proof.
  induction p as [p IH|p IH|]; cbn [digits2_pos]; [| |by cbn].
  - rewrite Pos2Z.inj_succ, (Pos2Z.inj_xI p).
    replace (Z.succ (Zpos (digits2_pos p)) - 1)%Z
      with (Z.succ (Zpos (digits2_pos p) - 1))%Z by lia.
    rewrite !Z.pow_succ_r by lia. lia.
  - rewrite Pos2Z.inj_succ, (Pos2Z.inj_xO p).
    replace (Z.succ (Zpos (digits2_pos p)) - 1)%Z
      with (Z.succ (Zpos (digits2_pos p) - 1))%Z by lia.
    rewrite !Z.pow_succ_r by lia. lia.
Qed.

Lemma digits_le (p : positive) (n : Z) :
  (0 ≤ n)%Z → (Zpos p < 2 ^ n)%Z → (Zpos (digits2_pos p) ≤ n)%Z.
Proof.
  intros Hn Hp. destruct (digits_bounds p) as [Hlow _].
  destruct (decide (Zpos (digits2_pos p) ≤ n)%Z) as [|Hgt]; [done|].
  assert (2 ^ n ≤ 2 ^ (Zpos (digits2_pos p) - 1))%Z
    by (apply Z.pow_le_mono_r; lia).
  lia.
Qed.

(** A mantissa of [prec] bits followed by [k] zero bits rounds to
    itself. *)
Lemma binary_round_aux_shift (s : bool) (m : positive) (k : nat) (e : Z) :
  Zpos (digits2_pos m) = prec →
  (3 - emax - prec ≤ e + Z.of_nat k ≤ emax - prec)%Z →
  binary_round_aux prec emax s (Zpos (Nat.iter k xO m)) e loc_Exact
  = S754_finite s m (e + Z.of_nat k).
Proof.
  intros Hm He.
  assert (Hfexp : ∀ e', (3 - emax - prec ≤ e')%Z →
            fexp prec emax (prec + e') = e').
  { intros e' He'. unfold fexp, emin. lia. }
  assert (Hsecond :
            shr_fexp prec emax (Zpos m) (e + Z.of_nat k) loc_Exact
            = ({| shr_m := Zpos m; shr_r := false; shr_s := false |},
               (e + Z.of_nat k)%Z)).
  { unfold shr_fexp. cbn [Zdigits2 shr_record_of_loc]. rewrite Hm.
    rewrite Hfexp by lia. by rewrite Z.sub_diag. }
  unfold binary_round_aux.
  assert (Hfirst :
            shr_fexp prec emax (Zpos (Nat.iter k xO m)) e loc_Exact
            = ({| shr_m := Zpos m; shr_r := false; shr_s := false |},
               (e + Z.of_nat k)%Z)).
  { unfold shr_fexp. cbn [Zdigits2 shr_record_of_loc].
    rewrite digits_shift, Hm.
    replace (prec + Z.of_nat k + e)%Z with (prec + (e + Z.of_nat k))%Z by lia.
    rewrite Hfexp by lia.
    replace (e + Z.of_nat k - e)%Z with (Z.of_nat k) by lia.
    destruct k as [|k].
    - cbn [Z.of_nat shr Nat.iter]. by rewrite Z.add_0_r.
    - change (Z.of_nat (S k)) with (Zpos (Pos.of_succ_nat k)). unfold shr.
      rewrite iter_pos_iter, SuccNat2Pos.id_succ.
      by rewrite shr_1_shift. }
  rewrite Hfirst. cbn [shr_m loc_of_shr_record round_nearest_even].
  rewrite Hsecond. cbn [shr_m].
  destruct (Z.leb_spec (e + Z.of_nat k) (emax - prec)); [done|lia].
Qed.

(** The float of a natural number below [2 ^ prec]. *)
Lemma binary_normalize_nat (p : positive) :
  (Zpos p < 2 ^ prec)%Z →
  let k := Z.to_nat (prec - Zpos (digits2_pos p)) in
  binary_normalize prec emax (Zpos p) 0 false
  = S754_finite false (Nat.iter k xO p) (- Z.of_nat k).
Proof.
  intros Hp k. pose proof (digits_le p prec ltac:(lia) Hp) as Hd.
  assert (Hk : Z.of_nat k = (prec - Zpos (digits2_pos p))%Z) by lia.
  cbn [binary_normalize]. unfold binary_round, shl_align.
  rewrite Z.add_0_r.
  assert (Hf : fexp prec emax (Zpos (digits2_pos p)) = (- Z.of_nat k)%Z).
  { unfold fexp, emin. lia. }
  rewrite Hf, Z.sub_0_r.
  assert (Hshift : Nat.iter k xO p
                   = match (- Z.of_nat k)%Z with
                     | Zneg d => Pos.iter xO p d
                     | _ => p
                     end).
  { destruct k as [|k]; [done|].
    change (- Z.of_nat (S k))%Z with (Zneg (Pos.of_succ_nat k)).
    cbv beta iota. by rewrite Pos2Nat.inj_iter, SuccNat2Pos.id_succ. }
  replace (let '(mz, ez) :=
             match (- Z.of_nat k)%Z with
             | Zneg d => (Pos.iter xO p d, (- Z.of_nat k)%Z)
             | _ => (p, 0%Z)
             end in
           binary_round_aux prec emax false (Zpos mz) ez loc_Exact)
    with (binary_round_aux prec emax false (Zpos (Nat.iter k xO p))
                           (- Z.of_nat k) loc_Exact).
  2: { rewrite Hshift. destruct k as [|k]; [done|].
       by change (- Z.of_nat (S k))%Z with (Zneg (Pos.of_succ_nat k)). }
  change (Nat.iter k xO p) with (Nat.iter 0 xO (Nat.iter k xO p)) at 1.
  rewrite (binary_round_aux_shift false (Nat.iter k xO p) 0).
  - by rewrite Z.add_0_r.
  - rewrite digits_shift. lia.
  - cbn [Z.of_nat]. lia.
Qed.

End Rounding.

Lemma SFmul_pow2 (prec emax : Z) (m : positive) (e e2 : Z) :
  (0 < prec)%Z → (prec < emax)%Z →
  Zpos (digits2_pos m) = prec →
  (3 - emax - prec ≤ e + e2 + (prec - 1) ≤ emax - prec)%Z →
  SFmul prec emax (S754_finite false m e)
        (S754_finite false (Nat.iter (Z.to_nat (prec - 1)) xO 1%positive) e2)
  = S754_finite false m (e + e2 + (prec - 1)).
Proof.
  intros Hprec Hemax Hm He. cbn [SFmul xorb]. rewrite mul_shift.
  rewrite (binary_round_aux_shift prec emax) by (done || lia).
  f_equal. lia.
Qed.

Lemma float_to_nat_finite (m : positive) (e : Z) :
  float_to_nat (S754_finite false m e) = Z.to_nat (Z.shiftl (Zpos m) e).
Proof. by destruct e. Qed.

Lemma shiftl_scaled (a j t : Z) :
  (0 ≤ j)%Z → (0 ≤ t)%Z →
  Z.shiftl (a * 2 ^ j) (t - j) = (a * 2 ^ t)%Z.
Proof.
  intros Hj Ht. destruct (decide (j ≤ t)%Z) as [Hle|Hgt].
  - rewrite Z.shiftl_mul_pow2 by lia.
    rewrite <- Z.mul_assoc, <- Z.pow_add_r by lia. do 2 f_equal. lia.
  - rewrite Z.shiftl_div_pow2 by lia.
    replace j with (t + (j - t))%Z at 1 by lia.
    rewrite Z.pow_add_r, Z.mul_assoc by lia.
    replace (- (t - j))%Z with (j - t)%Z by lia.
    apply Z.div_mul. apply Z.pow_nonzero; lia.
Qed.

Lemma of_nat_pow2 (k : nat) : Pos.of_nat (2 ^ k) = Nat.iter k xO 1%positive.
Proof.
  induction k as [|k IH]; [done|].
  rewrite Nat.iter_succ, <- IH, Nat.pow_succ_r'.
  assert (2 ^ k ≠ 0) by (apply Nat.pow_nonzero; lia).
  rewrite Nat2Pos.inj_mul by lia. done.
Qed.

(** The float of a positive natural number below [2 ^ prec]: its [prec]-bit
    mantissa and its exponent. *)
Lemma float_of_nat (prec emax : Z) (n : nat) :
  (0 < prec)%Z → (prec < emax)%Z →
  0 < n → (Z.of_nat n < 2 ^ prec)%Z →
  ∃ (m : positive) (j : nat),
    binary_normalize prec emax (Z.of_nat n) 0 false
    = S754_finite false m (- Z.of_nat j)
    ∧ Zpos (digits2_pos m) = prec
    ∧ Zpos m = (Z.of_nat n * 2 ^ Z.of_nat j)%Z
    ∧ (Z.of_nat j < prec)%Z.
Proof.
  intros Hprec Hemax Hn Hlt.
  destruct n as [|n]; [lia|].
  assert (Hz : Z.of_nat (S n) = Zpos (Pos.of_succ_nat n)) by done.
  rewrite Hz in Hlt |- *.
  set (p := Pos.of_succ_nat n) in *.
  pose proof (digits_le p prec ltac:(lia) Hlt) as Hd.
  exists (Nat.iter (Z.to_nat (prec - Zpos (digits2_pos p))) xO p),
         (Z.to_nat (prec - Zpos (digits2_pos p))).
  split; [by apply binary_normalize_nat|].
  split; [rewrite digits_shift; lia|].
  split; [apply Zpos_shift|lia].
Qed.

(** ** The scale factor and the grid at a power-of-two rate *)

Lemma f64_div_pow2 (e1 e2 : Z) :
  (-1073 ≤ e1 - e2 - 52 ≤ 971)%Z →
  f64_div (S754_finite false (Nat.iter 52 xO 1%positive) e1)
          (S754_finite false (Nat.iter 52 xO 1%positive) e2)
  = S754_finite false (Nat.iter 52 xO 1%positive) (e1 - e2 - 52).
Proof.
  intros He. unfold f64_div. cbn [SFdiv xorb].
  assert (Hcore :
            SFdiv_core_binary 53 1024 (Zpos (Nat.iter 52 xO 1%positive)) e1
                              (Zpos (Nat.iter 52 xO 1%positive)) e2
            = (Zpos (Nat.iter 1 xO (Nat.iter 52 xO 1%positive)),
               (e1 - e2 - 53)%Z, loc_Exact)).
  { unfold SFdiv_core_binary.
    change (Zdigits2 (Zpos (Nat.iter 52 xO 1%positive))) with 53%Z.
    replace (Z.min (fexp 53 1024 (53 + e1 - (53 + e2))) (e1 - e2))
      with (e1 - e2 - 53)%Z by (unfold fexp, emin; lia).
    replace (e1 - e2 - (e1 - e2 - 53))%Z with 53%Z by lia.
    reflexivity. }
  rewrite Hcore.
  rewrite (binary_round_aux_shift 53 1024) by (done || lia).
  f_equal. lia.
Qed.

Lemma f64_of_pow2 (k : nat) :
  k ≤ 52 →
  f64_of_nat (2 ^ k)
  = S754_finite false (Nat.iter 52 xO 1%positive) (Z.of_nat k - 52).
Proof.
  intros Hk. unfold f64_of_nat.
  assert (Hpos : 2 ^ k ≠ 0) by (apply Nat.pow_nonzero; lia).
  assert (Hz : Z.of_nat (2 ^ k) = Zpos (Nat.iter k xO 1%positive)).
  { rewrite <- of_nat_pow2. destruct (2 ^ k) as [|n] eqn:Hn; [done|].
    by rewrite <- Pos.of_nat_succ. }
  rewrite Hz.
  assert (Hd : Zpos (digits2_pos (Nat.iter k xO 1%positive))
               = (1 + Z.of_nat k)%Z) by (by rewrite digits_shift).
  rewrite (binary_normalize_nat 53 1024); [|lia|lia|].
  2: { rewrite Zpos_shift. change (Zpos 1) with 1%Z.
       rewrite Z.mul_1_l. apply Z.pow_lt_mono_r; lia. }
  cbv zeta. rewrite Hd.
  replace (Z.to_nat (53 - (1 + Z.of_nat k))) with (52 - k) by lia.
  rewrite <- Nat.iter_add.
  replace (52 - k + k) with 52 by lia. f_equal. lia.
Qed.

Lemma scale_factor_pow2 (k : nat) :
  k ≤ 52 →
  scale_factor (2 ^ k)
  = S754_finite false (Nat.iter 52 xO 1%positive) (- 55 - Z.of_nat k).
Proof.
  intros Hk. unfold scale_factor. rewrite f64_of_pow2 by done.
  change (f64_div (f64_of_nat 1) (f64_of_nat 8))
    with (S754_finite false (Nat.iter 52 xO 1%positive) (-55)).
  rewrite f64_div_pow2 by lia. f_equal. lia.
Qed.

Lemma binary_round_shift (prec emax : Z) (s : bool) (m : positive) (k : nat)
    (e : Z) :
  (0 < prec)%Z → (prec < emax)%Z →
  Zpos (digits2_pos m) = prec →
  (3 - emax - prec ≤ e + Z.of_nat k ≤ emax - prec)%Z →
  binary_round prec emax s (Nat.iter k xO m) e
  = S754_finite s m (e + Z.of_nat k).
Proof.
  intros Hprec Hemax Hm He. unfold binary_round, shl_align.
  rewrite digits_shift, Hm.
  replace (fexp prec emax (prec + Z.of_nat k + e) - e)%Z with (Z.of_nat k)
    by (unfold fexp, emin; lia).
  destruct k as [|k]; cbn [Z.of_nat];
    by apply (binary_round_aux_shift prec emax).
Qed.

(** At a power-of-two rate the scale factor is exact, and so are the output
    size and the source index: they are the integer quotient and the
    integer product. *)
Lemma interpolate_size_pow2 (k n : nat) :
  k ≤ 52 → (Z.of_nat n < 2 ^ 53)%Z →
  interpolate_size n (scale_factor (2 ^ k)) = n / (8 * 2 ^ k).
Proof.
  intros Hk Hlt. destruct n as [|n].
  { rewrite interpolate_size_0. by rewrite Nat.Div0.div_0_l. }
  destruct (float_of_nat 53 1024 (S n))
    as (m & j & Hf & Hd & Hm & Hj); [lia|lia|lia|done|].
  unfold interpolate_size, f64_of_nat, f64_mul.
  rewrite Hf, scale_factor_pow2 by done.
  change (Nat.iter 52 xO 1%positive)
    with (Nat.iter (Z.to_nat (53 - 1)) xO 1%positive).
  rewrite SFmul_pow2 by (done || lia).
  rewrite float_to_nat_finite, Hm.
  rewrite Z.shiftl_div_pow2 by lia.
  replace (- (- Z.of_nat j + (-55 - Z.of_nat k) + (53 - 1)))%Z
    with (3 + Z.of_nat k + Z.of_nat j)%Z by lia.
  rewrite (Z.pow_add_r 2 (3 + Z.of_nat k)) by lia.
  rewrite Z.div_mul_cancel_r by (apply Z.pow_nonzero; lia).
  rewrite Z.pow_add_r by lia.
  change (2 ^ 3)%Z with (Z.of_nat 8).
  replace (2 ^ Z.of_nat k)%Z with (Z.of_nat (2 ^ k))
    by (by rewrite Nat2Z.inj_pow).
  rewrite <- Nat2Z.inj_mul, <- Nat2Z.inj_div. by rewrite Nat2Z.id.
Qed.

Lemma interpolate_index_pow2 (k i n : nat) :
  k ≤ 52 → (Z.of_nat i < 2 ^ 24)%Z →
  interpolate_index i n (scale_factor (2 ^ k))
  = Nat.min (i * (8 * 2 ^ k)) (n - 1).
Proof.
  intros Hk Hi. unfold interpolate_index. f_equal.
  rewrite scale_factor_pow2 by done.
  change (f64_of_nat 1)
    with (S754_finite false (Nat.iter 52 xO 1%positive) (-52)).
  rewrite f64_div_pow2 by lia. cbn [f32_of_f64].
  change (Nat.iter 52 xO 1%positive)
    with (Nat.iter 29 xO (Nat.iter 23 xO 1%positive)).
  rewrite (binary_round_shift 24 128) by (done || lia).
  destruct i as [|i]; [done|].
  destruct (float_of_nat 24 128 (S i))
    as (m & j & Hf & Hd & Hm & Hj); [lia|lia|lia|done|].
  unfold f32_of_nat, f32_mul. rewrite Hf.
  change (Nat.iter 23 xO 1%positive)
    with (Nat.iter (Z.to_nat (24 - 1)) xO 1%positive).
  rewrite SFmul_pow2 by (done || lia).
  rewrite float_to_nat_finite, Hm.
  replace (- Z.of_nat j + (-52 - (-55 - Z.of_nat k) - 52 + Z.of_nat 29)
           + (24 - 1))%Z
    with (3 + Z.of_nat k - Z.of_nat j)%Z by lia.
  rewrite shiftl_scaled by lia.
  rewrite Z.pow_add_r by lia.
  change (2 ^ 3)%Z with (Z.of_nat 8).
  replace (2 ^ Z.of_nat k)%Z with (Z.of_nat (2 ^ k))
    by (by rewrite Nat2Z.inj_pow).
  rewrite <- !Nat2Z.inj_mul. by rewrite Nat2Z.id.
Qed.

Lemma interpolate_index_0 (n : nat) (s : spec_float) :
  interpolate_index 0 n s = 0.
Proof.
  unfold interpolate_index.
  change (f32_of_nat 0) with (S754_zero false).
  by destruct (f32_of_f64 _) as [[]|[]| |[] ? ?].
Qed.

Lemma pow2_bound (k n : nat) (e : Z) :
  2 ^ k ≤ n → (0 ≤ e)%Z → (Z.of_nat n < 2 ^ e)%Z → (Z.of_nat k < e)%Z.
Proof.
  intros Hle He Hlt.
  apply (Z.pow_lt_mono_r_iff 2); [lia|lia|].
  apply Z.le_lt_trans with (Z.of_nat n); [|done].
  change 2%Z with (Z.of_nat 2). rewrite <- Nat2Z.inj_pow. lia.
Qed.

(** At a power-of-two rate the grid of the mask is the integer quotient of
    its sides by [8 rate]. *)
Lemma mask_grid_pow2 (mask : Mat) (tokens k : nat) :
  mask_rate mask tokens = 2 ^ k → k ≤ 52 →
  (Z.of_nat (length mask) < 2 ^ 53)%Z →
  (Z.of_nat (length (hd [] mask)) < 2 ^ 53)%Z →
  mask_grid mask tokens
  = (length mask / (8 * 2 ^ k), length (hd [] mask) / (8 * 2 ^ k)).
Proof.
  intros Hrate Hk HH HW. unfold mask_grid. rewrite Hrate.
  by rewrite !interpolate_size_pow2.
Qed.

(** ** The shape of an attention pass *)

Lemma has_shape_hd (b n c : nat) (t : T3) :
  has_shape b n c t → 0 < b → 0 < n →
  length (hd [] t) = n ∧ length (hd [] (hd [] t)) = c.
Proof.
  intros [Hb Ht] Hb0 Hn0.
  destruct t as [|x t]; [cbn in Hb; lia|].
  apply Forall_cons in Ht as [[Hx Hrows] _]. cbn [hd]. split; [done|].
  destruct x as [|r x]; [cbn in Hx; lia|].
  by apply Forall_cons in Hrows as [? _].
Qed.

Lemma has_shape_map3 (f : R → R) (b n c : nat) (t : T3) :
  has_shape b n c t → has_shape b n c (map (map (map f)) t).
Proof.
  intros [Hb Ht]. split; [by rewrite length_map|].
  apply Forall_map. eapply Forall_impl; [exact Ht|].
  intros x [Hx Hrows]. cbn. split; [by rewrite length_map|].
  apply Forall_map. eapply Forall_impl; [exact Hrows|].
  intros r Hr. cbn in Hr |- *. by rewrite length_map.
Qed.

Lemma has_shape_map_rows (f : Vec → Vec) (b n c c' : nat) (t : T3) :
  (∀ r, length r = c → length (f r) = c') →
  has_shape b n c t → has_shape b n c' (map (map f) t).
Proof.
  intros Hf [Hb Ht]. split; [by rewrite length_map|].
  apply Forall_map. eapply Forall_impl; [exact Ht|].
  intros x [Hx Hrows]. cbn. split; [by rewrite length_map|].
  apply Forall_map. eapply Forall_impl; [exact Hrows|].
  intros r Hr. cbn in Hr |- *. by apply Hf.
Qed.

Lemma autocast_shape (ctx : DType) (b n c : nat) (t : T3) :
  has_shape b n c t → has_shape b n c (autocast ctx t).
Proof. apply has_shape_map3. Qed.

Lemma concat_length_const {A} (k : nat) (l : list (list A)) :
  Forall (fun x => length x = k) l → length (concat l) = length l * k.
Proof.
  induction 1 as [|x l Hx Hl IH]; [done|].
  cbn. rewrite length_app, IH, Hx. lia.
Qed.

Lemma chunks_sub {A} (P : A → Prop) (k : nat) (l : list A) :
  Forall P l → Forall (Forall P) (chunks k l).
Proof.
  intros Hl. unfold chunks. apply Forall_map, Forall_forall. intros i _.
  cbn. by apply Forall_take, Forall_drop.
Qed.

Lemma flat_map_shape {A} (f : A → T3) (h n d : nat) (t : list A) :
  (∀ x, x ∈ t → has_shape h n d (f x)) →
  has_shape (length t * h) n d (flat_map f t).
Proof.
  intros Hf. rewrite flat_map_concat_map. split.
  - rewrite (concat_length_const h), length_map; [done|].
    apply Forall_map, Forall_forall. intros x Hx. by apply Hf.
  - apply Forall_concat, Forall_map, Forall_forall. intros x Hx.
    by apply Hf.
Qed.

Lemma split_heads_shape (h d b n : nat) (t : T3) :
  0 < h → has_shape b n (h * d) t →
  has_shape (b * h) n d (split_heads h t).
Proof.
  intros Hh Ht. pose proof Ht as [Hb Hall]. unfold split_heads. subst b.
  apply flat_map_shape. intros x Hx.
  rewrite Forall_forall in Hall. destruct (Hall x Hx) as [Hn Hrows].
  split; [by rewrite length_map, length_seq|].
  apply Forall_map, Forall_forall. intros hi Hhi. cbn.
  apply elem_of_seq in Hhi as [_ Hhi]. cbn in Hhi.
  split; [by rewrite length_map|].
  apply Forall_map, Forall_forall. intros r Hr. cbn.
  assert (Hd : length (hd [] (hd [] t)) = h * d).
  { apply (has_shape_hd (length t) n (h * d) t Ht).
    - destruct t; [by apply elem_of_nil in Hx|cbn; lia].
    - destruct x; [by apply elem_of_nil in Hr|cbn in Hn; lia]. }
  rewrite Hd, Nat.mul_comm, Nat.div_mul by lia.
  rewrite Forall_forall in Hrows. specialize (Hrows r Hr). cbn in Hrows.
  rewrite length_take, length_drop, Hrows. nia.
Qed.

Lemma zip_with_shape (f : Mat → Mat → Mat) (B n n' m c c' d : nat)
    (x y : T3) :
  (∀ a b, length a = n → Forall (fun r : Vec => length r = c) a →
          length b = n' → Forall (fun r : Vec => length r = c') b →
          length (f a b) = m ∧ Forall (fun r : Vec => length r = d) (f a b)) →
  has_shape B n c x → has_shape B n' c' y →
  has_shape B m d (zip_with f x y).
Proof.
  intros Hf [Hx Hxa] [Hy Hya]. split; [rewrite length_zip_with; lia|].
  clear Hx Hy. revert y Hya.
  induction Hxa as [|a x [Ha Har] Hxa IH]; intros y Hya; [constructor|].
  destruct Hya as [|b y [Hb Hbr] Hya]; cbn; constructor.
  - by apply Hf.
  - by apply IH.
Qed.

Lemma einsum_qk_shape (B n m d : nat) (q k : T3) :
  has_shape B n d q → has_shape B m d k →
  has_shape B n m (einsum_qk q k).
Proof.
  apply zip_with_shape. intros a b Ha _ Hb _.
  split; [by rewrite length_map|].
  apply Forall_map, Forall_forall. intros r _. cbn. by rewrite length_map.
Qed.

Lemma transpose_length (m d : nat) (v : Mat) :
  0 < m → length v = m → Forall (fun r : Vec => length r = d) v →
  length (transpose v) = d.
Proof.
  intros Hm Hv Hrows. unfold transpose. rewrite length_map, length_seq.
  destruct v as [|r v]; [cbn in Hv; lia|].
  by apply Forall_cons in Hrows as [? _].
Qed.

Lemma einsum_sv_shape (B n m d : nat) (sim v : T3) :
  0 < m → has_shape B n m sim → has_shape B m d v →
  has_shape B n d (einsum_sv sim v).
Proof.
  intros Hm. apply zip_with_shape. intros a b Ha _ Hb Hbr.
  split; [by rewrite length_map|].
  apply Forall_map, Forall_forall. intros r _. cbn.
  rewrite length_map. by apply (transpose_length m).
Qed.

Lemma softmax_row_length (v : Vec) : length (softmax_row v) = length v.
Proof. unfold softmax_row. by rewrite !length_map. Qed.

Lemma chunks_groups (h b n d : nat) (t : T3) :
  0 < h → has_shape (b * h) n d t →
  length (chunks h t) = b
  ∧ Forall (fun g : T3 => has_shape h n d g) (chunks h t).
Proof.
  intros Hh [Hb Ht]. split.
  - rewrite chunks_length, Hb. apply Nat.div_mul. lia.
  - pose proof (chunks_Forall h t) as Hlen.
    pose proof (chunks_sub _ h t Ht) as Hsub.
    apply Forall_forall. intros g Hg.
    rewrite Forall_forall in Hlen, Hsub. split; [by apply Hlen|].
    by apply Hsub.
Qed.

Lemma nth_row_length (n d i : nat) (m : Mat) :
  i < n → length m = n → Forall (fun r : Vec => length r = d) m →
  length (nth i m []) = d.
Proof.
  intros Hi Hm Hrows.
  destruct (lookup_lt_is_Some_2 m i) as [r Hr]; [lia|].
  rewrite (nth_lookup_Some _ _ _ _ Hr).
  rewrite Forall_lookup in Hrows. exact (Hrows i r Hr).
Qed.

Lemma merge_heads_shape (h d b n : nat) (t : T3) :
  0 < h → has_shape (b * h) n d t →
  has_shape b n (h * d) (merge_heads h t).
Proof.
  intros Hh Ht. destruct (chunks_groups h b n d t Hh Ht) as [Hlen Hgroups].
  unfold merge_heads. split; [by rewrite length_map|].
  apply Forall_map. eapply Forall_impl; [exact Hgroups|].
  intros g [Hg Hall]. cbn.
  assert (Hn : length (hd [] g) = n).
  { destruct g as [|m g]; [cbn in Hg; lia|].
    by apply Forall_cons in Hall as [[? _] _]. }
  rewrite Hn. split; [by rewrite length_map, length_seq|].
  apply Forall_map, Forall_forall. intros i Hi. cbn.
  apply elem_of_seq in Hi as [_ Hi]. cbn in Hi.
  rewrite (concat_length_const d), length_map, Hg; [done|].
  apply Forall_map. eapply Forall_impl; [exact Hall|].
  intros m [Hm Hrows]. cbn. by apply (nth_row_length n).
Qed.

Lemma view_heads_shape (h d b n : nat) (t : T3) :
  0 < h → 0 < d → has_shape b n (h * d) t →
  has_shape (b * h) n d (view_heads h d t).
Proof.
  intros Hh Hd [Hb Hall]. unfold view_heads. subst b.
  apply flat_map_shape. intros x Hx.
  rewrite Forall_forall in Hall. destruct (Hall x Hx) as [Hn Hrows].
  assert (Hflat : length (concat x) = n * h * d).
  { rewrite (concat_length_const (h * d)), Hn by done. lia. }
  assert (Hpieces : length (chunks d (concat x)) = n * h).
  { rewrite chunks_length, Hflat. apply Nat.div_mul. lia. }
  assert (Hgroups : length (chunks h (chunks d (concat x))) = n).
  { rewrite chunks_length, Hpieces. apply Nat.div_mul. lia. }
  split; [by rewrite length_map, length_seq|].
  apply Forall_map, Forall_forall. intros hi Hhi. cbn.
  apply elem_of_seq in Hhi as [_ Hhi]. cbn in Hhi.
  split; [by rewrite length_map|].
  apply Forall_map, Forall_forall. intros g Hg. cbn.
  pose proof (chunks_Forall h (chunks d (concat x))) as Hlen.
  pose proof (chunks_sub _ h _ (chunks_Forall d (concat x))) as Hsub.
  rewrite Forall_forall in Hlen, Hsub.
  apply (nth_row_length h); [done|by apply Hlen|by apply Hsub].
Qed.

Lemma unview_heads_shape (h d b n : nat) (t : T3) :
  0 < h → 0 < d → has_shape (b * h) n d t →
  has_shape b n (h * d) (unview_heads h d t).
Proof.
  intros Hh Hd Ht. destruct (chunks_groups h b n d t Hh Ht) as [Hlen Hgroups].
  unfold unview_heads. split; [by rewrite length_map|].
  apply Forall_map. eapply Forall_impl; [exact Hgroups|].
  intros g [Hg Hall]. cbn.
  assert (Hn : length (hd [] g) = n).
  { destruct g as [|m g]; [cbn in Hg; lia|].
    by apply Forall_cons in Hall as [[? _] _]. }
  rewrite Hn.
  set (pieces := flat_map _ _).
  assert (Hpieces : length pieces = n * h
                    ∧ Forall (fun r : Vec => length r = d) pieces).
  { subst pieces. rewrite flat_map_concat_map. split.
    - rewrite (concat_length_const h), length_map, length_seq; [done|].
      apply Forall_map, Forall_forall. intros i _. cbn.
      by rewrite length_map.
    - apply Forall_concat, Forall_map, Forall_forall. intros i Hi. cbn.
      apply elem_of_seq in Hi as [_ Hi]. cbn in Hi.
      apply Forall_map. eapply Forall_impl; [exact Hall|].
      intros m [Hm Hrows]. cbn. by apply (nth_row_length n). }
  destruct Hpieces as [Hpl Hpr].
  split; [|apply chunks_Forall].
  rewrite chunks_length, (concat_length_const d), Hpl by done.
  replace (n * h * d) with (n * (h * d)) by lia.
  apply Nat.div_mul. nia.
Qed.

(** Both code paths of [attention] return a tensor of the query's shape
    when the query is [b] x [n] x [h d] and key and value are
    [b] x [m] x [h d] with at least one position. *)
Lemma attention_shape (ctx : DType) (opts : ExtraOptions)
    (b n m : nat) (q k v : T3) :
  let h := n_heads opts in
  let d := dim_head opts in
  0 < h → 0 < d → 0 < m →
  has_shape b n (h * d) q →
  has_shape b m (h * d) k →
  has_shape b m (h * d) v →
  has_shape b n (h * d) (attention ctx q k v opts).
Proof.
  intros h d Hh Hd Hm Hq Hk Hv. unfold attention.
  destruct has_mha; cbn [negb].
  - apply unview_heads_shape; [done..|].
    unfold scaled_dot_product_attention.
    apply (einsum_sv_shape _ _ m); [done| |].
    + apply (has_shape_map_rows _ _ _ m);
        [intros r Hr; by rewrite softmax_row_length|].
      apply has_shape_map3.
      apply (einsum_qk_shape _ _ _ d);
        by apply autocast_shape, view_heads_shape.
    + by apply autocast_shape, view_heads_shape.
  - apply merge_heads_shape; [done|].
    apply (einsum_sv_shape _ _ m); [done| |].
    + apply autocast_shape.
      apply (has_shape_map_rows _ _ _ m);
        [intros r Hr; by rewrite softmax_row_length|].
      apply has_shape_map3.
      apply (einsum_qk_shape _ _ _ d);
        by apply autocast_shape, split_heads_shape.
    + by apply autocast_shape, split_heads_shape.
Qed.

(** The projected keys and values keep the batch and token counts of the
    selected tokens and take the projector's output width. *)
Lemma linear3_shape (W : Mat) (b t c : nat) (x : T3) :
  has_shape b t c x → has_shape b t (length W) (linear3 W None x).
Proof.
  intros Hx. unfold linear3, linear2.
  apply (has_shape_map_rows _ _ _ c); [|done].
  intros r _. cbn. by rewrite length_map.
Qed.

(** Adding two tensors of one shape returns, with that shape. *)
Lemma tadd_same_shape (b n c : nat) (x y : T3) :
  has_shape b n c x → has_shape b n c y →
  tadd x y = Ok (zip_with (zip_with (zip_with Rplus)) x y).
Proof.
  intros [Hx Hxa] [Hy Hya]. unfold tadd, ewise.
  rewrite <- sequence_Ok. f_equal. clear Hx Hy. revert y Hya.
  induction Hxa as [|a x [Ha _] Hxa IH]; intros y Hya; [done|].
  destruct Hya as [|a' y [Ha' _] Hya]; [done|].
  cbn. rewrite IH by done. f_equal.
  unfold bcast1. by rewrite decide_True by lia.
Qed.

(** * Further properties of the code *)

(** ** Selecting conditional and unconditional tokens *)

Lemma tuple_get_pair {A} (a b : A) (i : Z) :
  tuple_get [a; b] i
  = if decide (-2 ≤ i < 2)%Z
    then Ok (if decide (i = 0 ∨ i = -2)%Z then a else b)
    else Raise IndexError.
Proof.
  unfold tuple_get, list_get. cbn [length].
  destruct (decide (0 ≤ i)%Z) as [Hpos|Hneg].
  - destruct (Z.to_nat i) as [|[|k]] eqn:Hi; cbn.
    + rewrite decide_True by lia. by rewrite decide_True by lia.
    + rewrite decide_True by lia. by rewrite decide_False by lia.
    + by rewrite decide_False by lia.
  - destruct (decide (- Z.of_nat 2 ≤ i)%Z) as [Hlow|Hlow].
    + rewrite decide_True by lia.
      destruct (Z.to_nat (Z.of_nat 2 + i)) as [|[|k]] eqn:Hi; cbn.
      * by rewrite decide_True by lia.
      * by rewrite decide_False by lia.
      * lia.
    + by rewrite decide_False by lia.
Qed.

Lemma select_tokens_eq (cond uncond : T3) (batch_prompt : nat)
    (cond_or_uncond : list Z) :
  select_tokens cond uncond batch_prompt cond_or_uncond
  = if decide (Forall (fun i => (-2 ≤ i < 2)%Z) cond_or_uncond)
    then Ok (concat (map (fun i => repeat0 batch_prompt
                                     (if decide (i = 0 ∨ i = -2)%Z
                                      then cond else uncond))
                         cond_or_uncond))
    else Raise IndexError.
Proof.
  unfold select_tokens, cat0.
  induction cond_or_uncond as [|i sel IH]; [done|].
  cbn [map sequence]. rewrite tuple_get_pair.
  destruct (decide (-2 ≤ i < 2)%Z) as [Hi|Hi].
  - destruct (decide (Forall (fun i => (-2 ≤ i < 2)%Z) sel)) as [Hsel|Hsel].
    + destruct (sequence _) as [parts|e]; [|done].
      cbn in IH. injection IH as IH. cbn. rewrite ?IH.
      destruct (decide (Forall _ (i :: sel))) as [_|Hno];
        [|by destruct Hno; apply Forall_cons].
      by destruct (decide (i = 0 ∨ i = -2)%Z).
    + destruct (sequence _) as [parts|e]; [done|].
      cbn in IH. injection IH as ->. cbn.
      by destruct (decide (Forall _ (i :: sel))) as [[_ ?]%Forall_cons|_].
  - cbn. by destruct (decide (Forall _ (i :: sel))) as [[? _]%Forall_cons|_].
Qed.

Lemma select_tokens_error (cond uncond : T3) (bp : nat) (sel : list Z) :
  ¬ Forall (fun i => (-2 ≤ i < 2)%Z) sel →
  select_tokens cond uncond bp sel = Raise IndexError.
Proof.
  intros Hsel. rewrite select_tokens_eq. by rewrite decide_False.
Qed.

Lemma repeat0_shape (k b n c : nat) (t : T3) :
  has_shape b n c t → has_shape (k * b) n c (repeat0 k t).
Proof.
  intros [Hb Ht]. unfold repeat0. split.
  - rewrite (concat_length_const b), length_replicate; [done|].
    by apply Forall_replicate.
  - apply Forall_concat, Forall_replicate. exact Ht.
Qed.

Lemma selected_tokens_shape (cond uncond : T3) (bp bc t c : nat)
    (sel : list Z) :
  has_shape bc t c cond → has_shape bc t c uncond →
  has_shape (length sel * (bp * bc)) t c
    (concat (map (fun i => repeat0 bp (if decide (i = 0 ∨ i = -2)%Z
                                       then cond else uncond))
                 sel)).
Proof.
  intros Hc Hu. split.
  - rewrite (concat_length_const (bp * bc)), length_map; [done|].
    apply Forall_map, Forall_forall. intros i _. cbn.
    case_decide; by eapply proj1, repeat0_shape.
  - apply Forall_concat, Forall_map, Forall_forall. intros i _. cbn.
    case_decide; by eapply proj2, repeat0_shape.
Qed.

Lemma select_tokens_shape (cond uncond uc : T3) (bp bc t c : nat)
    (sel : list Z) :
  has_shape bc t c cond → has_shape bc t c uncond →
  select_tokens cond uncond bp sel = Ok uc →
  has_shape (length sel * (bp * bc)) t c uc.
Proof.
  intros Hc Hu. rewrite select_tokens_eq. case_decide; [|done].
  intros [= <-]. by apply selected_tokens_shape.
Qed.

(** X1. The tokens a call attends to.  The selector indexes the pair
    (conditional tokens, unconditional tokens) as Python indexes a tuple:
    0 and -2 pick the conditional tokens, 1 and -1 the unconditional ones.
    For a non-empty selector and token sets of one shape
    [bc] x [t] x [c], the token tensor is defined exactly when every entry
    of the selector is one of -2, -1, 0, 1: it is then the concatenation,
    in selector order, of the picked token sets, each repeated
    [batch_prompt] times, a tensor of
    [len(cond_or_uncond) * batch_prompt * bc] rows of [t] tokens; any
    other entry raises an index error. *)
Theorem select_tokens_by_selector (cond uncond : T3)
    (batch_prompt bc t c : nat) (cond_or_uncond : list Z) :
  cond_or_uncond ≠ [] →
  has_shape bc t c cond → has_shape bc t c uncond →
  let uncond_cond :=
    concat (map (fun i => repeat0 batch_prompt
                            (if decide (i = 0 ∨ i = -2)%Z
                             then cond else uncond))
                cond_or_uncond) in
  select_tokens cond uncond batch_prompt cond_or_uncond
  = (if decide (Forall (fun i => (-2 ≤ i < 2)%Z) cond_or_uncond)
     then Ok uncond_cond else Raise IndexError)
  ∧ has_shape (length cond_or_uncond * (batch_prompt * bc)) t c uncond_cond.
Proof.
  intros _ Hcond Huncond uncond_cond.
  split; [apply select_tokens_eq|]. by apply selected_tokens_shape.
Qed.

(** ** Errors a call raises before any adapter pass is computed *)

Lemma patch_step_selector_error (ctx : DType) (num : nat) (q : T3)
    (opts : ExtraOptions) (bp : nat) (sel : list Z) (out : T3)
    (kw : PatchKwargs) :
  ¬ Forall (fun i => (-2 ≤ i < 2)%Z) sel →
  patch_step ctx num q opts bp sel out (bundle_of kw) = Raise IndexError.
Proof.
  intros Hsel. unfold patch_step, bundle_of, ip_attention.
  by rewrite select_tokens_error.
Qed.

(** X2. What a call does with the host's selector.  A call of a patch
    raises a key error when the caller's frame does not provide the
    selector and a division by zero when the selector is empty, whatever
    the tensors; on well-shaped operands, where the baseline attention
    returns, it raises an index error when the selector has an entry that
    is none of -2, -1, 0, 1, the indices Python accepts on a pair.  This
    holds for every patch that construction and stacking can produce. *)
Theorem call_rejects_bad_selector (kw : PatchKwargs) (kws : list PatchKwargs)
    (n context_attn2 value_attn2 : Tensor) (extra_options : ExtraOptions) :
  let call := CrossAttentionPatch_call (stack kw kws) n context_attn2
                                       value_attn2 extra_options in
  let h := n_heads extra_options in
  let d := dim_head extra_options in
  call None = Raise KeyError
  ∧ call (Some []) = Raise ZeroDivisionError
  ∧ ∀ cond_or_uncond b tokens m,
      0 < h → 0 < d → 0 < m →
      has_shape b tokens (h * d) (t_data n) →
      has_shape b m (h * d) (t_data context_attn2) →
      has_shape b m (h * d) (t_data value_attn2) →
      cond_or_uncond ≠ [] →
      ¬ Forall (fun i => (-2 ≤ i < 2)%Z) cond_or_uncond →
      call (Some cond_or_uncond) = Raise IndexError.
Proof.
  intros call h d. subst call. split; [done|]. split; [done|].
  intros sel b tokens m _ _ _ _ _ _ Hne Hsel. rewrite call_unfold by done.
  rewrite bundles_stack. cbn [map foldlM].
  by rewrite patch_step_selector_error.
Qed.

(** ** The patch table *)

Lemma family_at_set (m : TransformerOptions) (kw : PatchKwargs)
    (key : LayerKey) (family : string) :
  family ≠ "attn2" →
  family_at (set_model_patch_replace m kw key) family = family_at m family.
Proof.
  intros Hne. unfold family_at, set_model_patch_replace. cbn.
  rewrite lookup_insert_ne by done.
  destruct (patches_replace m) as [pr|]; cbn; [done|].
  by rewrite lookup_empty.
Qed.

(** X3. [set_model_patch_replace] touches one coordinate of the [attn2]
    table only: there it creates the patch when the coordinate is free and
    stacks on the existing patch otherwise; every other coordinate keeps
    its patch, the tables of other patch families are untouched, and no
    patch is ever removed. *)
Theorem set_model_patch_replace_creates_or_stacks (model : TransformerOptions)
    (patch_kwargs : PatchKwargs) (key : LayerKey) :
  let model' := set_model_patch_replace model patch_kwargs key in
  patch_at model' key
  = Some (match patch_at model key with
          | None => CrossAttentionPatch_init patch_kwargs
          | Some p => set_new_condition p patch_kwargs
          end)
  ∧ (∀ key', key' ≠ key → patch_at model' key' = patch_at model key')
  ∧ (∀ family, family ≠ "attn2" →
       family_at model' family = family_at model family)
  ∧ (∀ key', is_Some (patch_at model key') → is_Some (patch_at model' key')).
Proof.
  intros model'. subst model'. split; [|split; [|split]].
  - by rewrite patch_at_set, decide_True.
  - intros key' Hne. by rewrite patch_at_set, decide_False.
  - intros family Hne. by apply family_at_set.
  - intros key' Hsome. rewrite patch_at_set. by case_decide.
Qed.

Lemma install_list_stacks (kw : PatchKwargs) (g : LayerKey → CrossAttentionPatch)
    (l : list (LayerKey * nat)) : ∀ m,
  NoDup l.*1 →
  (∀ key, key ∈ l.*1 → patch_at m key = Some (g key)) →
  Forall (fun '(key, n) =>
            patch_at (install_list kw m l) key
            = Some (set_new_condition (g key) (set_number kw n))) l.
Proof.
  induction l as [|[k n] l IH]; intros m Hnd Hold; [constructor|].
  cbn in Hnd. apply NoDup_cons in Hnd as [Hk Hnd].
  constructor.
  - cbn. fold (install_list kw (set_model_patch_replace m (set_number kw n) k) l).
    rewrite install_list_other by done.
    rewrite patch_at_set, decide_True by done.
    rewrite Hold; [done|]. cbn. apply elem_of_cons. by left.
  - cbn. apply IH; [done|]. intros key Hin.
    rewrite patch_at_set, decide_False; [|intros Heq; subst; contradiction].
    apply Hold. cbn. apply elem_of_cons. by right.
Qed.

Lemma enumerate_layers_keys (sdxl : bool) (kw : PatchKwargs) :
  (enumerate_layers sdxl kw).*1 = coordinates sdxl.
Proof. rewrite enumerate_layers_eq. apply fst_zip. by rewrite length_seq. Qed.

Lemma enumerate_layers_set_number (sdxl : bool) (kw kw' : PatchKwargs) :
  kw_number kw = kw_number kw' →
  enumerate_layers sdxl kw = enumerate_layers sdxl kw'.
Proof. intros Hn. by rewrite !enumerate_layers_eq, Hn. Qed.

Lemma fresh_install_patches (sdxl : bool) (kw : PatchKwargs) :
  Forall (fun '(key, n) =>
            patch_at (install_with set_model_patch_replace sdxl fresh_model kw).1
                     key
            = Some (CrossAttentionPatch_init (set_number kw n)))
         (enumerate_layers sdxl kw).
Proof.
  rewrite install_with_enumerate.
  apply (install_list_fresh kw (enumerate_layers sdxl kw) fresh_model);
    [|done].
  rewrite enumerate_layers_keys. apply coordinates_NoDup.
Qed.

(** X4. Loading a second adapter of the same variant on a host that holds
    the patches of a first one stacks at every coordinate: the patch then
    holds the first adapter's bundle followed by the second's, keeps the
    layer number the first load gave it, and takes the second adapter's
    dtype. *)
Theorem second_adapter_stacks_at_every_coordinate (sdxl : bool)
    (kw1 kw2 : PatchKwargs) :
  let install model kw :=
    (install_with set_model_patch_replace sdxl model (set_number kw 0)).1 in
  let model2 := install (install fresh_model kw1) kw2 in
  Forall (fun '(key, n) =>
            ∃ p, patch_at model2 key = Some p
                 ∧ bundles p = [bundle_of kw1; bundle_of kw2]
                 ∧ number p = n
                 ∧ dtype p = kw_dtype kw2)
         (zip (coordinates sdxl) (seq 0 (length (coordinates sdxl)))).
Proof.
  intros install model2.
  pose proof (fresh_install_patches sdxl (set_number kw1 0)) as Hfirst.
  rewrite enumerate_layers_eq in Hfirst. cbn [set_number kw_number] in Hfirst.
  set (l := zip (coordinates sdxl) (seq 0 (length (coordinates sdxl)))) in *.
  assert (Hkeys : l.*1 = coordinates sdxl).
  { subst l. apply fst_zip. by rewrite length_seq. }
  set (g key := default (CrossAttentionPatch_init kw1)
                        (patch_at (install fresh_model kw1) key)).
  pose proof (install_list_stacks (set_number kw2 0) g l
                (install fresh_model kw1)) as Hsecond.
  rewrite Hkeys in Hsecond. specialize (Hsecond (coordinates_NoDup sdxl)).
  assert (Hold : ∀ key, key ∈ coordinates sdxl →
            patch_at (install fresh_model kw1) key = Some (g key)).
  { intros key Hin. rewrite <- Hkeys in Hin.
    apply list_elem_of_fmap in Hin as ([key' n] & -> & Hin).
    rewrite Forall_forall in Hfirst. specialize (Hfirst _ Hin).
    cbn in Hfirst |- *. subst g. cbn. subst install. cbn.
    by rewrite Hfirst. }
  specialize (Hsecond Hold).
  subst model2. unfold install at 1.
  rewrite install_with_enumerate, enumerate_layers_eq.
  cbn [set_number kw_number]. fold l.
  rewrite Forall_forall in Hsecond, Hfirst |- *.
  intros [key n] Hin. specialize (Hsecond _ Hin). specialize (Hfirst _ Hin).
  cbn in Hsecond, Hfirst. unfold install_list in Hsecond.
  eexists. split; [exact Hsecond|].
  subst g. cbn. subst install. cbn. rewrite Hfirst. cbn. done.
Qed.

Lemma install_with_install_list (sdxl : bool) (m : TransformerOptions)
    (kw : PatchKwargs) :
  (install_with set_model_patch_replace sdxl m kw).1
  = install_list kw m (enumerate_layers sdxl kw).
Proof. apply install_with_enumerate. Qed.

Lemma coordinates_disjoint (sdxl : bool) (key : LayerKey) :
  key ∈ coordinates sdxl → key ∉ coordinates (negb sdxl).
Proof.
  revert key. apply Forall_forall.
  destruct sdxl; apply (bool_decide_unpack _); by vm_compute.
Qed.

(** X5. The coordinates of the two variants are disjoint, so adapters of
    different variants never stack on each other: after loading one of each
    on a host without patches, every coordinate of either variant holds a
    patch with the single bundle of its own adapter. *)
Theorem adapters_of_different_variants_do_not_stack (sdxl : bool)
    (kw1 kw2 : PatchKwargs) :
  let model1 :=
    (install_with set_model_patch_replace sdxl fresh_model
                  (set_number kw1 0)).1 in
  let model2 :=
    (install_with set_model_patch_replace (negb sdxl) model1
                  (set_number kw2 0)).1 in
  (∀ key, key ∈ coordinates sdxl → key ∉ coordinates (negb sdxl))
  ∧ Forall (fun '(key, n) =>
              patch_at model2 key
              = Some (CrossAttentionPatch_init (set_number kw1 n)))
           (zip (coordinates sdxl) (seq 0 (length (coordinates sdxl))))
  ∧ Forall (fun '(key, n) =>
              patch_at model2 key
              = Some (CrossAttentionPatch_init (set_number kw2 n)))
           (zip (coordinates (negb sdxl))
                (seq 0 (length (coordinates (negb sdxl))))).
Proof.
  intros model1 model2. split; [apply coordinates_disjoint|].
  pose proof (fresh_install_patches sdxl (set_number kw1 0)) as Hfirst.
  rewrite enumerate_layers_eq in Hfirst. cbn [set_number kw_number] in Hfirst.
  fold model1 in Hfirst.
  assert (Hother : ∀ key, key ∈ coordinates sdxl →
            patch_at model2 key = patch_at model1 key).
  { intros key Hin. subst model2. rewrite install_with_enumerate.
    apply (install_list_other (set_number kw2 0)).
    rewrite enumerate_layers_keys. by apply coordinates_disjoint. }
  split.
  - rewrite Forall_forall in Hfirst |- *. intros [key n] Hin.
    specialize (Hfirst _ Hin). cbn in Hfirst |- *.
    rewrite Hother; [done|].
    apply elem_of_zip_l in Hin. done.
  - subst model2. rewrite install_with_enumerate.
    pose proof (install_list_fresh (set_number kw2 0)
                  (enumerate_layers (negb sdxl) (set_number kw2 0)) model1)
      as Hsecond.
    rewrite enumerate_layers_keys in Hsecond.
    rewrite enumerate_layers_eq in Hsecond |- *.
    cbn [set_number kw_number] in Hsecond |- *.
    apply Hsecond; [apply coordinates_NoDup|].
    intros key Hin. subst model1. rewrite install_with_install_list.
    rewrite (install_list_other (set_number kw1 0)); [done|].
    rewrite enumerate_layers_keys.
    intros Hin'. apply coordinates_disjoint in Hin'. done.
Qed.

(** ** The loader *)

Lemma load_loop_length (sd : list (string * Mat)) :
  ∀ (keys : list string) (i : nat) (kvs kvs' : list Mat),
  load_loop sd i keys kvs = Ok kvs' → length kvs' = length kvs.
Proof.
  induction keys as [|key keys IH]; intros i kvs kvs' Hok.
  - by injection Hok as <-.
  - cbn [load_loop] in Hok. inv_bind Hok. case_decide; [|done].
    apply IH in Hok. by rewrite Hok, length_insert.
Qed.

Lemma IPAdapterModel_init_bank (ckpt : Checkpoint) (plus : bool)
    (cad E T : nat) (ipa : IPAdapterModel) :
  IPAdapterModel_init ckpt plus cad E T = Ok ipa →
  length (to_kvs (ip_layers ipa))
  = length (channels_of (bool_decide (cad = 2048))).
Proof.
  unfold IPAdapterModel_init. intros Hok.
  inv_bind Hok. destruct (To_KV_load_state_dict _ _) as [kv|] eqn:Hkv; [|done].
  cbn in Hok. injection Hok as <-. cbn.
  unfold To_KV_load_state_dict in Hkv. inv_bind Hkv. injection Hkv as <-. cbn.
  match goal with
  | Hl : load_loop _ _ _ _ = Ok _ |- _ => apply load_loop_length in Hl as ->
  end.
  apply To_KV_init_length.
Qed.

(** What a successful [adapter] call has computed on its way. *)
Lemma adapter_inv_full (model : TransformerOptions) (ckpt : Checkpoint)
    (clip_vision : bool → PTensor * PTensor) (weight : R) (dt : string)
    (mask : option Mat) (m' : TransformerOptions) :
  adapter model ckpt clip_vision weight dt mask = Ok m' →
  ∃ w tokens ipa embeds cond uncond d,
    d = (if String.eqb dt "fp32" then float32 else float16)
    ∧ clip_vision (dict_has (image_proj ckpt) "latents") = (cond, uncond)
    ∧ dict_get (ip_adapter ckpt) "1.to_k_ip.weight" = Ok w
    ∧ (if dict_has (image_proj ckpt) "latents"
       then latents ← dict_get (image_proj ckpt) "latents";
            list_get (pshape latents) 1
       else pw ← dict_get (image_proj ckpt) "proj.weight";
            if decide (length (hd [] w) = 0) then Raise ZeroDivisionError
            else Ok (hd 0 (pshape pw) / length (hd [] w))) = Ok tokens
    ∧ IPAdapterModel_init ckpt (dict_has (image_proj ckpt) "latents")
        (length (hd [] w)) (List.last (pshape cond) 0) tokens = Ok ipa
    ∧ get_image_embeds (IPAdapterModel_to d ipa) (pcast d cond)
                       (pcast d uncond) = Ok embeds
    ∧ m' = (install_with set_model_patch_replace
              (bool_decide (length (hd [] w) = 2048)) model
              {| kw_number := 0;
                 kw_weight := weight;
                 kw_ipadapter := IPAdapterModel_to d ipa;
                 kw_dtype := d;
                 kw_cond := cast3 d embeds.1;
                 kw_uncond := cast3 d embeds.2;
                 kw_mask := mask |}).1.
Proof.
  unfold adapter. intros Hok.
  destruct (dict_get (ip_adapter ckpt) "1.to_k_ip.weight") as [w|]; [|done].
  cbn [mbind Result_bind] in Hok.
  inv_bind Hok. destruct (clip_vision _) as [cond uncond] eqn:Hclip.
  inv_bind Hok. inv_bind Hok.
  cbn in Hok. injection Hok as <-.
  eexists w, _, _, _, cond, uncond, _.
  split; [reflexivity|]. split; [done|]. split; [done|].
  split; [eassumption|]. split; [eassumption|]. split; [eassumption|]. done.
Qed.

(** X6. Every patch that a successful load installs on a host without
    patches finds its two projectors: the bank of the installed adapter has
    one projector per entry of the variant's channel schedule, whatever the
    checkpoint stored, so positions [2 * number] and [2 * number + 1] exist
    at every coordinate and a call never fails on the bank lookup. *)
Theorem installed_patches_find_their_projectors (ckpt : Checkpoint)
    (clip_vision : bool → PTensor * PTensor) (weight : R) (dt : string)
    (mask : option Mat) (m' : TransformerOptions) :
  adapter fresh_model ckpt clip_vision weight dt mask = Ok m' →
  ∃ sdxl,
    Forall (fun '(key, n) =>
              ∃ p ipa,
                patch_at m' key = Some p
                ∧ number p = n
                ∧ ipadapters p = [ipa]
                ∧ length (to_kvs (ip_layers ipa)) = length (channels_of sdxl)
                ∧ is_Some (to_kvs (ip_layers ipa) !! (number p * 2))
                ∧ is_Some (to_kvs (ip_layers ipa) !! (number p * 2 + 1)))
           (zip (coordinates sdxl) (seq 0 (length (coordinates sdxl)))).
Proof.
  intros Hok.
  apply adapter_inv_full
    in Hok as (w & tokens & ipa & embeds & cond & uncond & d
               & _ & _ & _ & _ & Hinit & _ & ->).
  apply IPAdapterModel_init_bank in Hinit.
  set (sdxl := bool_decide (length (hd [] w) = 2048)) in *.
  exists sdxl.
  match goal with
  | |- context [install_with _ _ _ ?k] => set (kw := k)
  end.
  pose proof (fresh_install_patches sdxl kw) as Hfresh.
  rewrite enumerate_layers_eq in Hfresh. cbn [kw kw_number] in Hfresh.
  assert (Hbank : length (to_kvs (ip_layers (kw_ipadapter kw)))
                  = length (channels_of sdxl)).
  { cbn. by rewrite length_map. }
  rewrite Forall_forall in Hfresh |- *. intros [key n] Hin.
  specialize (Hfresh _ Hin). cbn in Hfresh.
  eexists _, _. split; [exact Hfresh|]. cbn [CrossAttentionPatch_init number
    ipadapters set_number kw_number kw_ipadapter].
  split; [done|]. split; [done|]. split; [exact Hbank|].
  apply elem_of_zip_r, elem_of_seq in Hin.
  assert (Hn : n * 2 + 1 < length (channels_of sdxl)).
  { destruct sdxl; cbn in Hin |- *; lia. }
  split; apply lookup_lt_is_Some_2; rewrite Hbank; lia.
Qed.

(** X7. A checkpoint whose [ip_adapter] state holds more tensors than the
    channel schedule of its variant has entries is never accepted: the
    bank is sized by the schedule, so the positional load runs past its
    end.  In particular a state with more than 32 tensors is refused unless
    the cross-attention dimensionality is 2048. *)
Theorem oversized_state_is_rejected (model : TransformerOptions)
    (ckpt : Checkpoint) (clip_vision : bool → PTensor * PTensor)
    (weight : R) (dt : string) (mask : option Mat) (w : Mat) :
  dict_get (ip_adapter ckpt) "1.to_k_ip.weight" = Ok w →
  length (channels_of (bool_decide (length (hd [] w) = 2048)))
  < length (ip_adapter ckpt) →
  To_KV_load_state_dict (To_KV_init (length (hd [] w))) (ip_adapter ckpt)
  = Raise IndexError
  ∧ is_ok (adapter model ckpt clip_vision weight dt mask) = false.
Proof.
  intros Hw Hlen.
  assert (Hload : To_KV_load_state_dict (To_KV_init (length (hd [] w)))
                    (ip_adapter ckpt) = Raise IndexError).
  { unfold To_KV_load_state_dict. rewrite load_loop_overflow; [done| |lia|].
    - apply dict_get_own_keys.
    - rewrite To_KV_init_length. unfold dict_keys. rewrite length_map. lia. }
  split; [exact Hload|].
  destruct (adapter _ _ _ _ _ _) as [m'|] eqn:Hok; [|done].
  apply adapter_inv_full
    in Hok as (w' & tokens & ipa & embeds & cond & uncond & d
               & _ & _ & Hw' & _ & Hinit & _).
  rewrite Hw in Hw'. injection Hw' as <-.
  unfold IPAdapterModel_init in Hinit. inv_bind Hinit.
  by rewrite Hload in Hinit.
Qed.

Lemma dict_get_missing {V} (d : list (string * V)) (key : string) :
  dict_has d key = false → dict_get d key = Raise KeyError.
Proof.
  unfold dict_has. induction d as [|[k v] d IH]; [done|].
  cbn. by destruct (String.eqb k key).
Qed.

(** X8. What [adapter] checks before it builds anything, in this order:
    a state without the tensor [1.to_k_ip.weight] raises a key error; a
    shallow checkpoint (no [latents]) without [proj.weight] raises a key
    error; a shallow checkpoint whose cross-attention dimensionality reads
    as 0 raises a division by zero. *)
Theorem adapter_rejects_incomplete_checkpoint (model : TransformerOptions)
    (ckpt : Checkpoint) (clip_vision : bool → PTensor * PTensor)
    (weight : R) (dt : string) (mask : option Mat) :
  let run := adapter model ckpt clip_vision weight dt mask in
  (dict_has (ip_adapter ckpt) "1.to_k_ip.weight" = false →
   run = Raise KeyError)
  ∧ (dict_has (ip_adapter ckpt) "1.to_k_ip.weight" = true →
     dict_has (image_proj ckpt) "latents" = false →
     dict_has (image_proj ckpt) "proj.weight" = false →
     run = Raise KeyError)
  ∧ (∀ w, dict_get (ip_adapter ckpt) "1.to_k_ip.weight" = Ok w →
          length (hd [] w) = 0 →
          dict_has (image_proj ckpt) "latents" = false →
          dict_has (image_proj ckpt) "proj.weight" = true →
          run = Raise ZeroDivisionError).
Proof.
  intros run. subst run. unfold adapter. split; [|split].
  - intros Hk. by rewrite (dict_get_missing _ _ Hk).
  - intros Hk Hl Hp. unfold dict_has in Hk.
    destruct (dict_get (ip_adapter ckpt) "1.to_k_ip.weight") as [w|]; [|done].
    cbn [mbind Result_bind]. rewrite Hl.
    by rewrite (dict_get_missing _ _ Hp).
  - intros w Hw Hz Hl Hp. rewrite Hw. cbn [mbind Result_bind].
    rewrite Hl. unfold dict_has in Hp.
    destruct (dict_get (image_proj ckpt) "proj.weight") as [pw|]; [|done].
    cbn [mbind Result_bind]. by rewrite decide_True.
Qed.

(** ** The mask branch *)

Lemma grid_length {A} (f : nat → nat → A) (h w : nat) :
  length (flat_map (fun i => map (f i) (seq 0 w)) (seq 0 h)) = h * w.
Proof.
  rewrite flat_map_concat_map.
  rewrite (concat_length_const w), length_map, length_seq; [done|].
  apply Forall_map, Forall_forall. intros i _. cbn.
  by rewrite length_map, length_seq.
Qed.

Lemma grid_lookup {A} (f : nat → nat → A) (h w i j : nat) :
  i < h → j < w →
  flat_map (fun i => map (f i) (seq 0 w)) (seq 0 h) !! (i * w + j)
  = Some (f i j).
Proof.
  intros Hi Hj. induction h as [|h IH]; [lia|].
  rewrite seq_S, flat_map_app. cbn [Nat.add flat_map].
  destruct (decide (i < h)) as [Hlt|Hge].
  - rewrite lookup_app_l by (rewrite grid_length; nia). by apply IH.
  - assert (i = h) as -> by lia.
    rewrite lookup_app_r by (rewrite grid_length; lia).
    rewrite grid_length, app_nil_r.
    replace (h * w + j - h * w) with j by lia.
    rewrite list_lookup_fmap, lookup_seq_lt by done. done.
Qed.

Lemma grid_samples_length (mask : Mat) (r h w : nat) :
  length (grid_samples mask r h w) = h * w.
Proof. apply grid_length. Qed.

Lemma interpolate_nearest_cells (mask m : Mat) (s : spec_float) :
  interpolate_nearest mask s = Ok m →
  length (concat m)
  = interpolate_size (length mask) s * interpolate_size (length (hd [] mask)) s.
Proof.
  unfold interpolate_nearest. case_decide; [done|]. intros [= <-].
  rewrite <- flat_map_concat_map. apply grid_length.
Qed.

Lemma view_repeat_shape (m : Mat) (b c : nat) :
  has_shape b (length (concat m)) c (view_repeat m b c).
Proof.
  unfold view_repeat. split; [by rewrite length_replicate|].
  apply Forall_replicate. split; [by rewrite length_map|].
  apply Forall_map, Forall_forall. intros x _. cbn.
  by rewrite length_replicate.
Qed.

(** What the mask branch computes up to [mask_downsample], on an attention
    output with a batch and at least one position. *)
Lemma mask_downsample_unfold (mask : Mat) (out : T3) (b n c : nat) :
  0 < b → 0 < n → has_shape b n c out →
  0 < mask_rate mask n →
  mask_downsample_of mask out
  = (m ← interpolate_nearest mask (scale_factor (mask_rate mask n));
     mret (view_repeat m b c)).
Proof.
  intros Hb Hn Hout Hrate.
  destruct (has_shape_hd b n c out Hout Hb Hn) as [Htok Hc].
  unfold mask_downsample_of. rewrite Htok, Hc.
  rewrite decide_False by lia. fold (mask_rate mask n).
  rewrite decide_False by lia. by destruct Hout as [-> _].
Qed.

Lemma mask_downsample_shape (mask : Mat) (out : T3) (b n c : nat) :
  0 < b → has_shape b n c out → mask_fits mask n →
  ∃ md, mask_downsample_of mask out = Ok md ∧ has_shape b n c md.
Proof.
  intros Hb Hout (_ & Hn & Hrate & Hgrid).
  rewrite (mask_downsample_unfold mask out b n c) by done.
  unfold mask_grid in Hgrid. cbn [fst snd] in Hgrid.
  destruct (interpolate_nearest mask _) as [m|e] eqn:Hm.
  - exists (view_repeat m b c). split; [done|].
    rewrite <- Hgrid, <- (interpolate_nearest_cells mask m _ Hm).
    apply view_repeat_shape.
  - unfold interpolate_nearest in Hm. rewrite decide_False in Hm; [done|].
    nia.
Qed.

Lemma ewise_same_shape (f : R → R → R) (b n c : nat) (x y : T3) :
  has_shape b n c x → has_shape b n c y →
  ewise f x y = Ok (zip_with (zip_with (zip_with f)) x y)
  ∧ has_shape b n c (zip_with (zip_with (zip_with f)) x y).
Proof.
  intros [Hx Hxa] [Hy Hya]. split.
  - unfold ewise. rewrite <- sequence_Ok. f_equal. clear Hx Hy. revert y Hya.
    induction Hxa as [|a x [Ha _] Hxa IH]; intros y Hya; [done|].
    destruct Hya as [|a' y [Ha' _] Hya]; [done|].
    cbn. rewrite IH by done. f_equal.
    unfold bcast1. by rewrite decide_True by lia.
  - apply (zip_with_shape _ b n n n c c c); [|done..].
    intros a a' Ha Har Ha' Har'. split; [rewrite length_zip_with; lia|].
    clear Ha Ha'. revert a' Har'.
    induction Har as [|r a Hr Har IH]; intros a' Har'; [constructor|].
    destruct Har' as [|r' a' Hr' Har']; cbn; constructor; [|by apply IH].
    rewrite length_zip_with. lia.
Qed.

(** A mask whose sides are [8 r h] and [8 r w] at a layer with [h w]
    positions: the rate is [r]. *)
Lemma evenly_mask_rate (mask : Mat) (r h w : nat) :
  0 < r → 0 < h → 0 < w →
  length mask = 8 * r * h →
  Forall (fun row : Vec => length row = 8 * r * w) mask →
  length (hd [] mask) = 8 * r * w ∧ mask_rate mask (h * w) = r.
Proof.
  intros Hr Hh Hw HH Hrows.
  assert (HW : length (hd [] mask) = 8 * r * w).
  { destruct mask as [|row mask]; [cbn in HH; lia|].
    by apply Forall_cons in Hrows as [? _]. }
  split; [done|]. unfold mask_rate. rewrite HH, HW. by apply evenly_rate.
Qed.

(** X9. At a power-of-two rate the float arithmetic of the mask branch is
    exact.  When the mask is [8 r h] by [8 r w] pixels with [r] a power of
    two and sides below [2 ^ 24], on a layer with [h w] positions, the
    computed rate is [r], the mask fits the layer, and the mask the
    adapter's pass is multiplied with is the nearest-neighbour sample of
    the mask at the top-left pixel [(8 r i, 8 r j)] of each grid cell,
    flattened row by row and repeated over the batch and the channels; it
    has the shape of the attention output. *)
Theorem evenly_downsampled_mask_samples_cell_corners (mask : Mat)
    (out : T3) (b c k h w : nat) :
  let r := 2 ^ k in
  0 < b → has_shape b (h * w) c out →
  0 < h → 0 < w →
  length mask = 8 * r * h →
  Forall (fun row : Vec => length row = 8 * r * w) mask →
  (Z.of_nat (8 * r * h) < 2 ^ 24)%Z →
  (Z.of_nat (8 * r * w) < 2 ^ 24)%Z →
  let mask_downsample :=
    replicate b (map (fun x => replicate c x) (grid_samples mask r h w)) in
  mask_rate mask (h * w) = r
  ∧ mask_fits mask (h * w)
  ∧ mask_downsample_of mask out = Ok mask_downsample
  ∧ has_shape b (h * w) c mask_downsample
  ∧ ∀ i j, i < h → j < w →
      grid_samples mask r h w !! (i * w + j)
      = Some (nth (j * (8 * r)) (nth (i * (8 * r)) mask []) 0%R).
Proof.
  intros r Hb Hout Hh Hw HH Hrows HHlt HWlt md.
  assert (Hr : 0 < r) by (apply Nat.neq_0_lt_0, Nat.pow_nonzero; lia).
  destruct (evenly_mask_rate mask r h w) as [HW Hrate]; [done..|].
  assert (Hk : k ≤ 52).
  { pose proof (pow2_bound k (8 * r * h) 24 ltac:(subst r; nia) ltac:(lia)
                  HHlt). lia. }
  assert (Hgrid : mask_grid mask (h * w) = (h, w)).
  { rewrite (mask_grid_pow2 mask (h * w) k) by (done || lia).
    fold r. rewrite HH, HW.
    replace (8 * r * h) with (h * (8 * r)) by lia.
    replace (8 * r * w) with (w * (8 * r)) by lia.
    by rewrite !Nat.div_mul by lia. }
  assert (Hfits : mask_fits mask (h * w)).
  { split; [by rewrite HW|]. split; [nia|]. split; [lia|].
    by rewrite Hgrid. }
  split; [done|]. split; [done|].
  assert (Hmd : mask_downsample_of mask out = Ok md).
  { rewrite (mask_downsample_unfold mask out b (h * w) c) by (done || nia).
    rewrite Hrate. unfold interpolate_nearest.
    unfold mask_grid in Hgrid. rewrite Hrate in Hgrid.
    injection Hgrid as Hgh Hgw. rewrite Hgh, Hgw.
    rewrite decide_False by lia. cbn [mbind Result_bind mret Result_ret].
    subst md. unfold view_repeat, grid_samples. do 3 f_equal.
    rewrite flat_map_concat_map. f_equal.
    apply map_ext_in. intros i Hi%in_seq.
    apply map_ext_in. intros j Hj%in_seq.
    subst r. rewrite !interpolate_index_pow2 by (done || nia).
    rewrite HH, HW, !Nat.min_l by nia. done. }
  split; [done|]. split.
  - subst md. split; [by rewrite length_replicate|].
    apply Forall_replicate. split.
    + by rewrite length_map, grid_samples_length.
    + apply Forall_map, Forall_forall. intros x _. cbn.
      by rewrite length_replicate.
  - intros i j Hi Hj. unfold grid_samples.
    by rewrite (grid_lookup _ h w i j).
Qed.

Lemma bcast1_mismatch {A} (f : A → A → A) (x y : list A) :
  length x ≠ length y → length x ≠ 1 → length y ≠ 1 →
  bcast1 f x y = Raise RuntimeError.
Proof.
  intros Hxy Hx Hy. unfold bcast1. rewrite decide_False by done.
  destruct x as [|a [|a' x]]; destruct y as [|b [|b' y]]; done.
Qed.

(** The mask branch raises when the downsampled mask is empty (inside
    [F.interpolate]) and when its number of cells is neither the number of
    positions nor 1 (at the product). *)
Lemma apply_mask_raises (mask : Mat) (out ip_out : T3) (b tokens c : nat) :
  let grid := (mask_grid mask tokens).1 * (mask_grid mask tokens).2 in
  0 < b → has_shape b tokens c out → has_shape b tokens c ip_out →
  0 < tokens → 0 < mask_rate mask tokens →
  grid = 0 ∨ (grid ≠ tokens ∧ grid ≠ 1 ∧ tokens ≠ 1) →
  apply_mask (Some mask) out ip_out = Raise RuntimeError.
Proof.
  intros grid Hb Hout Hip Ht Hrate Hgrid.
  unfold apply_mask.
  rewrite (mask_downsample_unfold mask out b tokens c) by done.
  destruct (interpolate_nearest mask _) as [m|e] eqn:Hm.
  2: { unfold interpolate_nearest in Hm.
       case_decide; [by injection Hm as <-|done]. }
  pose proof (interpolate_nearest_cells mask m _ Hm) as Hcells.
  assert (Hpos : grid ≠ 0).
  { unfold interpolate_nearest in Hm. case_decide as Hz; [done|].
    unfold grid, mask_grid. cbn [fst snd]. nia. }
  destruct Hgrid as [?|(Hgrid & Hg1 & Ht1)]; [done|].
  cbn [mbind Result_bind mret Result_ret].
  destruct Hip as [Hlen Hall].
  destruct ip_out as [|x ip_out]; [cbn in Hlen; lia|].
  apply Forall_cons in Hall as [[Hx _] _].
  destruct b as [|b]; [lia|].
  unfold tmul, ewise, view_repeat. cbn [replicate zip_with sequence].
  rewrite bcast1_mismatch; [done|..]; rewrite ?length_map, ?Hx;
    unfold grid, mask_grid in *; cbn [fst snd] in *; lia.
Qed.

(** ** A call on well-shaped operands *)

Lemma tscale_by_zero (b n c : nat) (t : T3) :
  has_shape b n c t → tscale t 0 = full b n c 0.
Proof.
  intros Ht. rewrite <- (map3_const_full b n c 0 t Ht). unfold tscale.
  apply list_fmap_ext. intros _ m _. apply list_fmap_ext. intros _ r _.
  apply list_fmap_ext. intros _ a _. lra.
Qed.

Lemma ip_attention_fits (ctx : DType) (opts : ExtraOptions)
    (b n num bp : nat) (sel : list Z) (q : T3) (kw : PatchKwargs) :
  0 < n_heads opts → 0 < dim_head opts →
  has_shape b n (n_heads opts * dim_head opts) q →
  Forall (fun i => (-2 ≤ i < 2)%Z) sel →
  tokens_fit (n_heads opts) (dim_head opts) b num bp sel kw →
  ∃ ip_out,
    ip_attention ctx num q opts bp sel (kw_cond kw) (kw_uncond kw)
                 (kw_ipadapter kw) = Ok ip_out
    ∧ has_shape b n (n_heads opts * dim_head opts) ip_out.
Proof.
  intros Hh Hd Hq Hsel
    (bc & t & cad & to_k & to_v & Hc & Hu & Ht & Hb & Hk & Hkl & _ & Hv & Hvl
     & _).
  unfold ip_attention.
  destruct (select_tokens (kw_cond kw) (kw_uncond kw) bp sel) as [uc|] eqn:Huc.
  2: { rewrite select_tokens_eq, decide_True in Huc by done. done. }
  pose proof (select_tokens_shape _ _ _ _ _ _ _ _ Hc Hu Huc) as Hucs.
  rewrite Hb in Hucs. unfold list_get. rewrite Hk, Hv.
  cbn [mbind Result_bind mret Result_ret]. eexists. split; [done|].
  apply (attention_shape ctx opts b n t); [done..| |].
  - rewrite <- Hkl, <- (length_map (cast1 ctx) to_k).
    apply (linear3_shape _ b t cad). by apply autocast_shape.
  - rewrite <- Hvl, <- (length_map (cast1 ctx) to_v).
    apply (linear3_shape _ b t cad). by apply autocast_shape.
Qed.

Lemma masked_call_raises (kw : PatchKwargs) (kws : list PatchKwargs)
    (mask : Mat) (n ck cv : Tensor) (opts : ExtraOptions) (sel : list Z)
    (b tokens m : nat) :
  let h := n_heads opts in
  let d := dim_head opts in
  let grid := (mask_grid mask tokens).1 * (mask_grid mask tokens).2 in
  0 < h → 0 < d → 0 < b → 0 < m →
  has_shape b tokens (h * d) (t_data n) →
  has_shape b m (h * d) (t_data ck) →
  has_shape b m (h * d) (t_data cv) →
  sel ≠ [] → Forall (fun i => (-2 ≤ i < 2)%Z) sel →
  tokens_fit h d b (kw_number kw) (b / length sel) sel kw →
  kw_mask kw = Some mask →
  0 < tokens → 0 < mask_rate mask tokens →
  grid = 0 ∨ (grid ≠ tokens ∧ grid ≠ 1 ∧ tokens ≠ 1) →
  CrossAttentionPatch_call (stack kw kws) n ck cv opts (Some sel)
  = Raise RuntimeError.
Proof.
  intros h d grid Hh Hd Hb Hm Hq Hk Hv Hne Hsel Hfit Hmask Ht Hrate Hgrid.
  rewrite call_unfold by done. rewrite bundles_stack.
  destruct (stack_lists kw kws) as (_ & _ & _ & _ & _ & ->).
  pose proof Hq as [Hlen _]. rewrite Hlen.
  cbn [map foldlM].
  set (ctx := dtype (stack kw kws)).
  pose proof (attention_shape ctx opts b tokens m _ _ _ Hh Hd Hm Hq Hk Hv)
    as Hout.
  destruct (ip_attention_fits ctx opts b tokens (kw_number kw)
              (b / length sel) sel (t_data n) kw)
    as (ip_out & Hip & Hipshape); [done..|].
  assert (Hstep : patch_step ctx (kw_number kw) (t_data n) opts
                    (b / length sel) sel
                    (attention ctx (t_data n) (t_data ck) (t_data cv) opts)
                    (bundle_of kw) = Raise RuntimeError).
  { unfold patch_step, bundle_of. rewrite Hip, Hmask.
    cbn [mbind Result_bind].
    by rewrite (apply_mask_raises mask _ ip_out b tokens (h * d)). }
  by rewrite Hstep.
Qed.

(** X10. A mask that does not fit fails loudly.  Let [rate] be the integer
    downsample rate the call computes and [grid] the number of cells of the
    mask that [F.interpolate] returns for the scale factor [1/8/rate].  On
    well-shaped operands, with a valid selector and a first bundle whose
    tokens fit the layer, if the rate is positive and [grid] is neither
    the number of attention positions nor 1, and there is more than one
    position, then the call raises a runtime (shape) error, in
    [F.interpolate] when the grid is empty and at the product with the
    mask otherwise; it never returns a blended output. *)
Theorem ill_fitting_mask_raises_shape_error (kw : PatchKwargs)
    (kws : list PatchKwargs) (mask : Mat)
    (n context_attn2 value_attn2 : Tensor) (extra_options : ExtraOptions)
    (cond_or_uncond : list Z) (b tokens m : nat) :
  let h := n_heads extra_options in
  let d := dim_head extra_options in
  let rate := mask_rate mask tokens in
  let grid := (mask_grid mask tokens).1 * (mask_grid mask tokens).2 in
  0 < h → 0 < d → 0 < b → 0 < m →
  has_shape b tokens (h * d) (t_data n) →
  has_shape b m (h * d) (t_data context_attn2) →
  has_shape b m (h * d) (t_data value_attn2) →
  cond_or_uncond ≠ [] → Forall (fun i => (-2 ≤ i < 2)%Z) cond_or_uncond →
  tokens_fit h d b (kw_number kw) (b / length cond_or_uncond) cond_or_uncond
             kw →
  kw_mask kw = Some mask →
  1 < tokens → 0 < rate → grid ≠ tokens → grid ≠ 1 →
  CrossAttentionPatch_call (stack kw kws) n context_attn2 value_attn2
                           extra_options (Some cond_or_uncond)
  = Raise RuntimeError.
Proof.
  intros h d rate grid Hh Hd Hb Hm Hq Hk Hv Hne Hsel Hfit Hmask Ht Hrate
    Hgrid Hg1.
  apply (masked_call_raises kw kws mask _ _ _ _ _ b tokens m);
    try done; [lia|]. right. repeat split; [done..|lia].
Qed.


Lemma patch_step_fits (ctx : DType) (opts : ExtraOptions)
    (b n num bp : nat) (sel : list Z) (q out : T3) (kw : PatchKwargs) :
  let c := n_heads opts * dim_head opts in
  0 < n_heads opts → 0 < dim_head opts → 0 < b →
  has_shape b n c q → has_shape b n c out →
  Forall (fun i => (-2 ≤ i < 2)%Z) sel →
  bundle_fits (n_heads opts) (dim_head opts) b n num bp sel kw →
  ∃ out',
    patch_step ctx num q opts bp sel out (bundle_of kw) = Ok out'
    ∧ has_shape b n c out'
    ∧ (kw_weight kw = 0%R → out' = out).
Proof.
  intros c Hh Hd Hb Hq Hout Hsel [Htokens Hmask].
  destruct (ip_attention_fits ctx opts b n num bp sel q kw)
    as (ip_out & Hip & Hipshape); [done..|].
  fold c in Hipshape.
  unfold patch_step, bundle_of. rewrite Hip. cbn [mbind Result_bind].
  assert (Hmasked : ∃ ip', apply_mask (kw_mask kw) out ip_out = Ok ip'
                           ∧ has_shape b n c ip').
  { destruct (kw_mask kw) as [mask|]; cbn [apply_mask]; [|by eexists].
    destruct (mask_downsample_shape mask out b n c) as (md & -> & Hmd);
      [exact Hb|exact Hout|exact Hmask|].
    cbn [mbind Result_bind]. unfold tmul.
    destruct (ewise_same_shape Rmult b n c ip_out md) as [-> ?]; [done..|].
    by eexists. }
  destruct Hmasked as (ip' & -> & Hip').
  cbn [mbind Result_bind].
  assert (Hscaled : has_shape b n c (tscale ip' (kw_weight kw)))
    by (by apply has_shape_map3).
  unfold tadd.
  destruct (ewise_same_shape Rplus b n c out (tscale ip' (kw_weight kw)))
    as [Hadd Hsum]; [done..|].
  rewrite Hadd. eexists. split; [done|]. split; [done|].
  intros Hw. rewrite Hw in Hadd.
  rewrite (tscale_by_zero b n c) in Hadd by done.
  fold (tadd out (full b n c 0)) in Hadd.
  rewrite (tadd_zeros b n c) in Hadd by done.
  rewrite Hw. rewrite (tscale_by_zero b n c) by done.
  by injection Hadd as <-.
Qed.

Lemma foldlM_fits (ctx : DType) (opts : ExtraOptions)
    (b n num bp : nat) (sel : list Z) (q : T3) (kws : list PatchKwargs) :
  let c := n_heads opts * dim_head opts in
  0 < n_heads opts → 0 < dim_head opts → 0 < b →
  has_shape b n c q →
  Forall (fun i => (-2 ≤ i < 2)%Z) sel →
  Forall (bundle_fits (n_heads opts) (dim_head opts) b n num bp sel) kws →
  ∀ out, has_shape b n c out →
    ∃ out',
      foldlM (patch_step ctx num q opts bp sel) out (map bundle_of kws)
      = Ok out'
      ∧ has_shape b n c out'
      ∧ (Forall (fun kw => kw_weight kw = 0%R) kws → out' = out).
Proof.
  intros c Hh Hd Hb Hq Hsel Hfits.
  induction Hfits as [|kw kws Hfit Hfits IH]; intros out Hout.
  - exists out. split; [done|]. split; done.
  - destruct (patch_step_fits ctx opts b n num bp sel q out kw)
      as (out1 & Hstep & Hout1 & Hzero); [done..|].
    destruct (IH out1 Hout1) as (out' & Hrest & Hout' & Hzeros).
    exists out'. cbn [map foldlM]. rewrite Hstep. cbn [mbind Result_bind].
    split; [done|]. split; [done|].
    intros [Hw Hws]%Forall_cons. rewrite Hzeros by done. by apply Hzero.
Qed.

Lemma foldlM_app {A B} (f : A → B → Result A) (a : A) (l1 l2 : list B) :
  foldlM f a (l1 ++ l2) = (a' ← foldlM f a l1; foldlM f a' l2).
Proof.
  revert a. induction l1 as [|b l1 IH]; intros a; [done|].
  cbn. destruct (f a b) as [a1|]; [|done]. cbn. apply IH.
Qed.

Lemma to_shape (d : DType) (b n c : nat) (t : T3) :
  has_shape b n c t → has_shape b n c (t_data (to d t)).
Proof. apply has_shape_map3. Qed.

Lemma well_shaped_call (kw : PatchKwargs) (kws : list PatchKwargs)
    (n ck cv : Tensor) (opts : ExtraOptions) (sel : list Z)
    (b tokens m : nat) :
  let p := stack kw kws in
  let c := n_heads opts * dim_head opts in
  0 < n_heads opts → 0 < dim_head opts → 0 < b → 0 < m →
  has_shape b tokens c (t_data n) →
  has_shape b m c (t_data ck) →
  has_shape b m c (t_data cv) →
  sel ≠ [] → Forall (fun i => (-2 ≤ i < 2)%Z) sel →
  Forall (bundle_fits (n_heads opts) (dim_head opts) b tokens (kw_number kw)
                      (b / length sel) sel) (kw :: kws) →
  ∃ out,
    CrossAttentionPatch_call p n ck cv opts (Some sel)
    = Ok (to (t_dtype n) out)
    ∧ has_shape b tokens c out
    ∧ (Forall (fun kw => kw_weight kw = 0%R) (kw :: kws) →
       out = attention (dtype p) (t_data n) (t_data ck) (t_data cv) opts).
Proof.
  intros p c Hh Hd Hb Hm Hq Hk Hv Hne Hsel Hfits.
  rewrite call_unfold by done. subst p.
  rewrite bundles_stack.
  destruct (stack_lists kw kws) as (_ & _ & _ & _ & _ & ->).
  pose proof Hq as [Hlen _]. rewrite Hlen.
  destruct (foldlM_fits (dtype (stack kw kws)) opts b tokens (kw_number kw)
              (b / length sel) sel (t_data n) (kw :: kws))
    with (out := attention (dtype (stack kw kws)) (t_data n) (t_data ck)
                           (t_data cv) opts)
    as (out' & -> & Hout' & Hzero); [done..| |].
  { by apply (attention_shape _ opts b tokens m). }
  exists out'. by cbn.
Qed.

(** X11. A call on well-shaped operands returns.  If the query is
    [b] x [n] x [h d], the context key and value are [b] x [m] x [h d] with
    [m] positive, every selector entry is one of -2, -1, 0, 1, and every
    registered bundle fits the layer (token sets of one shape filling the
    batch, projectors at the patch's layer number that map the tokens'
    width to [h d], and a mask, if there is one, that [F.interpolate]
    downsamples to one cell per position), then the call returns a tensor
    of the query's shape and dtype. *)
Theorem well_shaped_call_returns_query_shape (kw : PatchKwargs)
    (kws : list PatchKwargs) (n context_attn2 value_attn2 : Tensor)
    (extra_options : ExtraOptions) (cond_or_uncond : list Z)
    (b tokens m : nat) :
  let h := n_heads extra_options in
  let d := dim_head extra_options in
  0 < h → 0 < d → 0 < b → 0 < m →
  has_shape b tokens (h * d) (t_data n) →
  has_shape b m (h * d) (t_data context_attn2) →
  has_shape b m (h * d) (t_data value_attn2) →
  cond_or_uncond ≠ [] → Forall (fun i => (-2 ≤ i < 2)%Z) cond_or_uncond →
  Forall (bundle_fits h d b tokens (kw_number kw)
                      (b / length cond_or_uncond) cond_or_uncond)
         (kw :: kws) →
  ∃ t, CrossAttentionPatch_call (stack kw kws) n context_attn2 value_attn2
                                extra_options (Some cond_or_uncond) = Ok t
       ∧ t_dtype t = t_dtype n
       ∧ has_shape b tokens (h * d) (t_data t).
Proof.
  intros h d Hh Hd Hb Hm Hq Hk Hv Hne Hsel Hfits.
  destruct (well_shaped_call kw kws n context_attn2 value_attn2 extra_options
              cond_or_uncond b tokens m) as (out & -> & Hout & _); [done..|].
  eexists. split; [done|]. split; [done|]. by apply to_shape.
Qed.

(** X12. Adapters of weight 0 leave the attention untouched: on
    well-shaped operands a call of a patch all of whose bundles fit the
    layer and have weight 0, with or without a mask, returns the baseline
    attention over (query, context key, context value), cast to the
    query's dtype.  Tensor entries are real numbers here: an adapter pass
    that overflows to infinity or NaN in floating point, where [x * 0] is
    not 0, is outside the statement. *)
Theorem zero_weight_call_returns_baseline (kw : PatchKwargs)
    (kws : list PatchKwargs) (n context_attn2 value_attn2 : Tensor)
    (extra_options : ExtraOptions) (cond_or_uncond : list Z)
    (b tokens m : nat) :
  let h := n_heads extra_options in
  let d := dim_head extra_options in
  0 < h → 0 < d → 0 < b → 0 < m →
  has_shape b tokens (h * d) (t_data n) →
  has_shape b m (h * d) (t_data context_attn2) →
  has_shape b m (h * d) (t_data value_attn2) →
  cond_or_uncond ≠ [] → Forall (fun i => (-2 ≤ i < 2)%Z) cond_or_uncond →
  Forall (bundle_fits h d b tokens (kw_number kw)
                      (b / length cond_or_uncond) cond_or_uncond)
         (kw :: kws) →
  Forall (fun kw => kw_weight kw = 0%R) (kw :: kws) →
  CrossAttentionPatch_call (stack kw kws) n context_attn2 value_attn2
                           extra_options (Some cond_or_uncond)
  = Ok (to (t_dtype n)
           (attention (dtype (stack kw kws)) (t_data n) (t_data context_attn2)
                      (t_data value_attn2) extra_options)).
Proof.
  intros h d Hh Hd Hb Hm Hq Hk Hv Hne Hsel Hfits Hzero.
  destruct (well_shaped_call kw kws n context_attn2 value_attn2 extra_options
              cond_or_uncond b tokens m) as (out & -> & _ & Hbase); [done..|].
  by rewrite Hbase.
Qed.

(** X13. Stacking an adapter of weight 0 on a patch changes the output
    only through the precision: on well-shaped operands and bundles that
    fit the layer, the call of the stacked patch returns what the patch
    without the new adapter returns when its autocast block runs under the
    new adapter's dtype; if the new adapter's dtype is the patch's own,
    the two calls agree.  Tensor entries are real numbers here, as in
    X12. *)
Theorem stacking_zero_weight_adapter (kw : PatchKwargs)
    (kws : list PatchKwargs) (kw' : PatchKwargs)
    (n context_attn2 value_attn2 : Tensor) (extra_options : ExtraOptions)
    (cond_or_uncond : list Z) (b tokens m : nat) :
  let h := n_heads extra_options in
  let d := dim_head extra_options in
  let p := stack kw kws in
  let p' := set_new_condition p kw' in
  0 < h → 0 < d → 0 < b → 0 < m →
  has_shape b tokens (h * d) (t_data n) →
  has_shape b m (h * d) (t_data context_attn2) →
  has_shape b m (h * d) (t_data value_attn2) →
  cond_or_uncond ≠ [] → Forall (fun i => (-2 ≤ i < 2)%Z) cond_or_uncond →
  Forall (bundle_fits h d b tokens (kw_number kw)
                      (b / length cond_or_uncond) cond_or_uncond)
         (kw :: kws ++ [kw']) →
  kw_weight kw' = 0%R →
  CrossAttentionPatch_call p' n context_attn2 value_attn2 extra_options
                           (Some cond_or_uncond)
  = (out ← autocast_block (kw_dtype kw') p n context_attn2 value_attn2
                          extra_options cond_or_uncond;
     mret (to (t_dtype n) out))
  ∧ (kw_dtype kw' = dtype p →
     CrossAttentionPatch_call p' n context_attn2 value_attn2 extra_options
                              (Some cond_or_uncond)
     = CrossAttentionPatch_call p n context_attn2 value_attn2 extra_options
                                (Some cond_or_uncond)).
Proof.
  intros h d p p' Hh Hd Hb Hm Hq Hk Hv Hne Hsel Hfits Hw.
  assert (Hcall : CrossAttentionPatch_call p' n context_attn2 value_attn2
                    extra_options (Some cond_or_uncond)
                  = (out ← autocast_block (kw_dtype kw') p n context_attn2
                             value_attn2 extra_options cond_or_uncond;
                     mret (to (t_dtype n) out))).
  { rewrite call_unfold by done. unfold autocast_block.
    rewrite decide_False by (by destruct cond_or_uncond).
    subst p'.
    change (dtype (set_new_condition p kw')) with (kw_dtype kw').
    change (number (set_new_condition p kw')) with (number p).
    subst p. rewrite <- stack_snoc, !bundles_stack.
    destruct (stack_lists kw kws) as (_ & _ & _ & _ & _ & ->).
    change (kw :: kws ++ [kw']) with ((kw :: kws) ++ [kw']) in Hfits |- *.
    apply Forall_app in Hfits as [Hfits [Hfit' _]%Forall_cons].
    rewrite map_app, foldlM_app.
    pose proof Hq as [Hlen _]. rewrite Hlen.
    destruct (foldlM_fits (kw_dtype kw') extra_options b tokens (kw_number kw)
                (b / length cond_or_uncond) cond_or_uncond (t_data n)
                (kw :: kws))
      with (out := attention (kw_dtype kw') (t_data n) (t_data context_attn2)
                             (t_data value_attn2) extra_options)
      as (out1 & -> & Hout1 & _); [done..| |].
    { by apply (attention_shape _ extra_options b tokens m). }
    cbn [mbind Result_bind map foldlM].
    destruct (patch_step_fits (kw_dtype kw') extra_options b tokens
                (kw_number kw) (b / length cond_or_uncond) cond_or_uncond
                (t_data n) out1 kw')
      as (out2 & -> & _ & Hzero); [done..|].
    cbn [mbind Result_bind]. by rewrite Hzero. }
  split; [exact Hcall|].
  intros Hdt. rewrite Hcall, Hdt. unfold CrossAttentionPatch_call.
  by cbn [mbind Result_bind].
Qed.

(** ** The two code paths of [attention] *)

(** X14. On a query of shape [b] x [n] x [h d] and a key and value of
    shape [b] x [m] x [h d] with [m] positive, [attention] returns a tensor
    of the query's shape, on the einsum path and on the fused path
    alike. *)
Theorem attention_keeps_query_shape (ctx : DType)
    (extra_options : ExtraOptions) (b n m : nat) (q k v : T3) :
  let h := n_heads extra_options in
  let d := dim_head extra_options in
  0 < h → 0 < d → 0 < m →
  has_shape b n (h * d) q →
  has_shape b m (h * d) k →
  has_shape b m (h * d) v →
  has_shape b n (h * d) (attention ctx q k v extra_options).
Proof. apply attention_shape. Qed.

Lemma nth_chunks {A} (k i : nat) (l : list A) :
  i < length l / k → nth i (chunks k l) [] = take k (drop (i * k) l).
Proof.
  intros Hi. unfold chunks.
  rewrite (nth_indep _ [] ((fun i => take k (drop (i * k) l)) 0))
    by (by rewrite length_map, length_seq).
  rewrite (map_nth (fun i => take k (drop (i * k) l))), seq_nth by done.
  done.
Qed.

Lemma view_heads_split_heads (h d b n : nat) (t : T3) :
  0 < h → 0 < d → 0 < b → 0 < n →
  has_shape b n (h * d) t → view_heads h d t = split_heads h t.
Proof.
  intros Hh Hd Hb Hn Ht.
  destruct (has_shape_hd b n (h * d) t Ht Hb Hn) as [_ Hdim].
  unfold view_heads, split_heads.
  rewrite Hdim, Nat.mul_comm, Nat.div_mul by lia.
  destruct Ht as [_ Hall]. rewrite !flat_map_concat_map. f_equal.
  apply Forall_fmap_ext_1. eapply Forall_impl; [exact Hall|].
  intros x [Hx Hrows]. cbn.
  assert (Hgroups : chunks h (chunks d (concat x)) = map (chunks d) x).
  { rewrite (chunks_concat_rows d h) by done.
    apply chunks_concat; [done|].
    apply Forall_map. eapply Forall_impl; [exact Hrows|].
    intros r Hr. cbn in Hr |- *. rewrite chunks_length, Hr.
    by apply Nat.div_mul; lia. }
  rewrite Hgroups. apply map_ext_in. intros hi Hhi. apply in_seq in Hhi.
  rewrite map_map. apply Forall_fmap_ext_1.
  eapply Forall_impl; [exact Hrows|]. intros r Hr. cbn in Hr |- *.
  apply nth_chunks. rewrite Hr, Nat.div_mul by lia. lia.
Qed.

Lemma concat_map_concat {A} (l : list (list (list A))) :
  concat (map (fun x => concat x) l) = concat (concat l).
Proof.
  induction l as [|x l IH]; [done|]. cbn. by rewrite concat_app, IH.
Qed.

Lemma unview_heads_merge_heads (h d b n : nat) (t : T3) :
  0 < h → 0 < d → has_shape (b * h) n d t →
  unview_heads h d t = merge_heads h t.
Proof.
  intros Hh Hd Ht. destruct (chunks_groups h b n d t Hh Ht) as [_ Hgroups].
  unfold unview_heads, merge_heads. apply Forall_fmap_ext_1.
  eapply Forall_impl; [exact Hgroups|]. intros g [Hg Hall]. cbn.
  assert (Hn : length (hd [] g) = n).
  { destruct g as [|x g]; [cbn in Hg; lia|].
    by apply Forall_cons in Hall as [[? _] _]. }
  rewrite Hn, flat_map_concat_map, <- concat_map_concat, map_map.
  apply chunks_concat; [nia|].
  apply Forall_map, Forall_forall. intros i Hi. cbn.
  apply elem_of_seq in Hi as [_ Hi]. cbn in Hi.
  rewrite (concat_length_const d), length_map, Hg; [done|].
  apply Forall_map. eapply Forall_impl; [exact Hall|].
  intros x [Hx Hrows]. cbn. by apply (nth_row_length n).
Qed.

Lemma inv_sqrt_power (x : R) :
  (0 < x)%R → Rpower x (- (1 / 2)) = (/ sqrt x)%R.
Proof.
  intros Hx. rewrite Rpower_Ropp.
  replace (1 / 2)%R with (/ 2)%R by lra. by rewrite Rpower_sqrt.
Qed.

(** X15. With exact arithmetic (every cast the identity) the einsum path
    and the fused scaled-dot-product path of [attention] compute the same
    tensor on well-shaped operands: which path runs depends only on the
    installed torch, not on the result. *)
Theorem attention_paths_agree (rnd0 : DType → R → R)
    (init0 : nat → nat → nat → Mat) (ctx : DType)
    (extra_options : ExtraOptions) (b n m : nat) (q k v : T3) :
  let h := n_heads extra_options in
  let d := dim_head extra_options in
  let einsum_torch :=
    {| rnd := rnd0; init_weight := init0; has_mha := false |} in
  let fused_torch :=
    {| rnd := rnd0; init_weight := init0; has_mha := true |} in
  (∀ dt x, rnd0 dt x = x) →
  0 < h → 0 < d → 0 < b → 0 < n → 0 < m →
  has_shape b n (h * d) q →
  has_shape b m (h * d) k →
  has_shape b m (h * d) v →
  attention (torch := fused_torch) ctx q k v extra_options
  = attention (torch := einsum_torch) ctx q k v extra_options.
Proof.
  intros h d einsum_torch fused_torch Hrnd Hh Hd Hb Hn Hm Hq Hk Hv.
  assert (Hcast : ∀ (T : Torch), @rnd T = rnd0 → ∀ t, @autocast T ctx t = t).
  { intros T HT t. unfold autocast, cast3, cast2, cast1. rewrite HT.
    apply map3_id. intros a. apply Hrnd. }
  unfold attention. cbn [has_mha einsum_torch fused_torch negb].
  rewrite !(Hcast fused_torch eq_refl), !(Hcast einsum_torch eq_refl).
  fold h d.
  rewrite (view_heads_split_heads h d b n q) by done.
  rewrite (view_heads_split_heads h d b m k) by done.
  rewrite (view_heads_split_heads h d b m v) by done.
  pose proof (split_heads_shape h d b n q Hh Hq) as Hqs.
  pose proof (split_heads_shape h d b m k Hh Hk) as Hks.
  pose proof (split_heads_shape h d b m v Hh Hv) as Hvs.
  unfold scaled_dot_product_attention.
  destruct (has_shape_hd (b * h) n d _ Hqs) as [_ ->]; [nia|done|].
  rewrite (unview_heads_merge_heads h d b n).
  - do 2 f_equal. f_equal.
    apply list_fmap_ext. intros _ x _. apply list_fmap_ext. intros _ r _.
    apply list_fmap_ext. intros _ s _. cbn.
    rewrite inv_sqrt_power by (apply lt_0_INR; lia). done.
  - done.
  - done.
  - apply (einsum_sv_shape _ _ m); [done| |done].
    apply (has_shape_map_rows _ _ _ m);
      [intros r Hr; by rewrite softmax_row_length|].
    apply has_shape_map3. by apply (einsum_qk_shape _ _ _ d).
Qed.

(** ** The unconditional tokens of the shallow projector *)

Lemma dot_zeros_like (r w : Vec) : dot (map (fun _ => 0%R) r) w = 0%R.
Proof.
  unfold dot. revert w. induction r as [|a r IH]; intros w; [done|].
  destruct w as [|b w]; [done|]. cbn. rewrite IH. lra.
Qed.

Lemma zip_with_plus_zeros (W : Mat) (bias : Vec) :
  length bias = length W →
  zip_with Rplus (map (fun _ => 0%R) W) bias = bias.
Proof.
  revert bias. induction W as [|w W IH]; intros [|b bias] Hlen; try done.
  cbn in Hlen |- *. rewrite IH by lia. f_equal. lra.
Qed.

Lemma linear2_zeros_like (W : Mat) (bias : Vec) (x : Mat) :
  length bias = length W →
  linear2 W (Some bias) (zeros_like x) = map (fun _ => bias) x.
Proof.
  intros Hlen. unfold linear2, zeros_like. rewrite map_map.
  apply map_ext. intros r. cbn.
  rewrite (map_ext _ (fun _ => 0%R)) by (intros w; apply dot_zeros_like).
  by apply zip_with_plus_zeros.
Qed.

Lemma forward_zeros_like (m : ImageProjModel) (x : Mat) :
  ImageProjModel_wf m →
  ImageProjModel_forward m (zeros_like x)
  = replicate (length x)
      (map (layer_norm_row LayerNorm_eps (norm_weight m) (norm_bias m))
           (chunks (cross_attention_dim m) (proj_bias m))).
Proof.
  intros (HT & HC & HW & Hb & Hg & Hbe).
  unfold ImageProjModel_forward.
  rewrite linear2_zeros_like by lia.
  rewrite reshape_m1_rows; [|done..|].
  - unfold layer_norm. rewrite !map_map. apply map_const_replicate.
  - apply Forall_map, Forall_forall. by intros r _.
Qed.

(** X16. For the shallow projector the unconditional branch is the
    projection of [zeros_like(image_embeds)], so on an encoder output of
    shape (batch, clip_embeddings_dim) the unconditional tokens depend
    neither on the image nor on the projection weight: every batch row is
    the layer normalisation of the projection bias regrouped into tokens.
    The same holds after the casts of the load, for the cast parameters,
    when the format represents 0 exactly. *)
Theorem shallow_unconditional_tokens_come_from_bias (m : ImageProjModel)
    (outputs zero_outputs : ClipVisionOutput) (clip_embeddings_dim : nat) :
  ImageProjModel_wf m →
  Forall (fun row : Vec => length row = clip_embeddings_dim) (proj_weight m) →
  Forall (fun row : Vec => length row = clip_embeddings_dim)
         (image_embeds outputs) →
  let uncond := (clip_vision_encode outputs zero_outputs false).2 in
  project (Shallow m) uncond
  = Ok (replicate (length (image_embeds outputs))
          (map (layer_norm_row LayerNorm_eps (norm_weight m) (norm_bias m))
               (chunks (cross_attention_dim m) (proj_bias m))))
  ∧ ∀ d, rnd d 0%R = 0%R →
      project (Shallow (ImageProjModel_to d m)) (pcast d uncond)
      = Ok (replicate (length (image_embeds outputs))
              (map (layer_norm_row LayerNorm_eps (cast1 d (norm_weight m))
                                   (cast1 d (norm_bias m)))
                   (chunks (cross_attention_dim m)
                           (cast1 d (proj_bias m))))).
Proof.
  intros Hwf _ _ uncond. subst uncond.
  cbn [clip_vision_encode snd project rows_of pcast]. split.
  - f_equal. by apply forward_zeros_like.
  - intros d Hzero.
    assert (Hcast : cast2 d (zeros_like (image_embeds outputs))
                    = zeros_like (image_embeds outputs)).
    { unfold cast2, cast1, zeros_like. rewrite map_map.
      apply map_ext. intros r. rewrite map_map. by apply map_ext. }
    rewrite Hcast. f_equal.
    by rewrite (forward_zeros_like _ _ (ImageProjModel_to_wf d m Hwf)).
Qed.

(** ** The model list *)

(** X17. The model list offered by the node is the directory listing
    without the placeholder file: a file is offered exactly when it is in
    the listing and is not [put_models_here.txt], files keep their order,
    and filtering an already filtered listing changes nothing. *)
Theorem get_file_list_drops_only_the_placeholder (listing : list string) :
  (∀ file, file ∈ get_file_list listing
           ↔ file ∈ listing ∧ file ≠ "put_models_here.txt")
  ∧ sublist (get_file_list listing) listing
  ∧ get_file_list (get_file_list listing) = get_file_list listing
  ∧ ("put_models_here.txt" ∉ listing → get_file_list listing = listing).
Proof.
  unfold get_file_list. split; [|split; [|split]].
  - intros file. rewrite list_elem_of_filter. tauto.
  - apply sublist_filter.
  - apply list_filter_filter_l. done.
  - intros Hnot. induction listing as [|file listing IH]; [done|].
    apply not_elem_of_cons in Hnot as [Hne Hnot].
    rewrite filter_cons_True by done. by rewrite IH.
Qed.

(** ** Loading on a host that already has patches *)

Lemma install_list_at (kw : PatchKwargs) (l : list (LayerKey * nat)) : ∀ m,
  NoDup l.*1 →
  Forall (fun '(key, n) =>
            patch_at (install_list kw m l) key
            = Some (match patch_at m key with
                    | None => CrossAttentionPatch_init (set_number kw n)
                    | Some p => set_new_condition p (set_number kw n)
                    end)) l.
Proof.
  induction l as [|[k n] l IH]; intros m Hnd; [constructor|].
  cbn in Hnd. apply NoDup_cons in Hnd as [Hk Hnd].
  constructor.
  - cbn. fold (install_list kw (set_model_patch_replace m (set_number kw n) k) l).
    rewrite install_list_other by done.
    by rewrite patch_at_set, decide_True.
  - cbn. fold (install_list kw (set_model_patch_replace m (set_number kw n) k) l).
    specialize (IH (set_model_patch_replace m (set_number kw n) k) Hnd).
    rewrite Forall_forall in IH |- *. intros [key n'] Hin.
    specialize (IH _ Hin). lazy beta iota in IH |- *. rewrite IH.
    rewrite patch_at_set, decide_False; [done|].
    intros ->. apply Hk. apply list_elem_of_fmap. by exists (key, n').
Qed.

Lemma install_list_family (kw : PatchKwargs) (l : list (LayerKey * nat))
    (family : string) : ∀ m,
  family ≠ "attn2" →
  family_at (install_list kw m l) family = family_at m family.
Proof.
  induction l as [|[k n] l IH]; intros m Hne; [done|].
  cbn. fold (install_list kw (set_model_patch_replace m (set_number kw n) k) l).
  rewrite IH by done. by apply family_at_set.
Qed.

(** X18. Loading an adapter never disturbs what the host already has.
    After a successful load on any host, the tables of other patch families
    are unchanged, every coordinate outside the variant's list keeps its
    patch, and at each coordinate of the list the adapter's bundle, with
    its layer number, is either installed as a new patch (coordinate free)
    or stacked on the patch found there. *)
Theorem adapter_extends_the_patch_table (model : TransformerOptions)
    (ckpt : Checkpoint) (clip_vision : bool → PTensor * PTensor)
    (weight : R) (dt : string) (mask : option Mat)
    (m' : TransformerOptions) :
  adapter model ckpt clip_vision weight dt mask = Ok m' →
  (∀ family, family ≠ "attn2" → family_at m' family = family_at model family)
  ∧ ∃ sdxl kw,
      kw_weight kw = weight ∧ kw_mask kw = mask
      ∧ (∀ key, key ∉ coordinates sdxl → patch_at m' key = patch_at model key)
      ∧ Forall (fun '(key, n) =>
                  patch_at m' key
                  = Some (match patch_at model key with
                          | None => CrossAttentionPatch_init (set_number kw n)
                          | Some p => set_new_condition p (set_number kw n)
                          end))
               (zip (coordinates sdxl) (seq 0 (length (coordinates sdxl)))).
Proof.
  intros Hok.
  apply adapter_inv in Hok as (w & kw & _ & Hn & Hw & Hm & ->).
  rewrite install_with_install_list. split.
  - intros family Hne. by apply install_list_family.
  - exists (bool_decide (length (hd [] w) = 2048)), kw.
    split; [done|]. split; [done|]. split.
    + intros key Hnot. apply install_list_other.
      by rewrite enumerate_layers_keys.
    + pose proof (install_list_at kw
                    (enumerate_layers
                       (bool_decide (length (hd [] w) = 2048)) kw) model)
        as Hat.
      rewrite enumerate_layers_keys in Hat.
      rewrite enumerate_layers_eq, Hn in Hat |- *.
      apply Hat, coordinates_NoDup.
Qed.

(** ** The tokens a shallow checkpoint installs *)

Lemma ImageProjModel_forward_shape (m : ImageProjModel) (x : Mat) :
  ImageProjModel_wf m →
  has_shape (length x) (clip_extra_context_tokens m) (cross_attention_dim m)
            (ImageProjModel_forward m x).
Proof.
  intros (HT & HC & HW & Hb & Hg & Hbe).
  pose proof (linear2_rows (proj_weight m) (proj_bias m) x ltac:(lia))
    as Hrows.
  unfold ImageProjModel_forward.
  rewrite reshape_m1_rows; [|done..|by rewrite <- HW].
  unfold layer_norm, linear2 in *.
  split; [by rewrite !length_map|].
  apply Forall_map, Forall_map. eapply Forall_impl; [exact Hrows|].
  intros r Hr. cbn in Hr |- *.
  rewrite length_map, chunks_length, Hr, HW.
  split; [by apply Nat.div_mul; lia|].
  apply Forall_map. eapply Forall_impl; [apply chunks_Forall|].
  intros v Hv. cbn in *. rewrite layer_norm_row_length; lia.
Qed.

Lemma ImageProjModel_load_dims (cad clip_dim tokens : nat)
    (sd : list (string * PTensor)) (m : ImageProjModel) :
  ImageProjModel_load cad clip_dim tokens sd = Ok m →
  cross_attention_dim m = cad ∧ clip_extra_context_tokens m = tokens.
Proof.
  unfold ImageProjModel_load.
  destruct (dict_get sd "proj.weight") as [[| W |]|]; try done.
  destruct (dict_get sd "proj.bias") as [[b | |]|]; try done.
  destruct (dict_get sd "norm.weight") as [[g | |]|]; try done.
  destruct (dict_get sd "norm.bias") as [[be | |]|]; try done.
  case_decide; [|done]. by intros [= <-].
Qed.

Lemma rows_of_pcast_length (d : DType) (p : PTensor) :
  length (rows_of (pcast d p)) = length (rows_of p).
Proof.
  destruct p as [v|x|t]; cbn [pcast rows_of]; [done| |].
  - unfold cast2. by rewrite length_map.
  - unfold cast3, cast2. by rewrite <- concat_map, length_map.
Qed.

(** X19. The token count of a shallow checkpoint is read off its
    projection weight.  When a checkpoint without [latents] is accepted,
    with [proj.weight] of [rows] rows and cross-attention dimensionality
    [cad] at most [rows], the conditional and unconditional tokens handed
    to every patch have shape (batch, rows // cad, cad), the batch being
    that of the encoder output. *)
Theorem shallow_checkpoint_token_shape (model : TransformerOptions)
    (ckpt : Checkpoint) (clip_vision : bool → PTensor * PTensor)
    (weight : R) (dt : string) (mask : option Mat)
    (m' : TransformerOptions) (w : Mat) (pw : PTensor) :
  dict_has (image_proj ckpt) "latents" = false →
  dict_get (ip_adapter ckpt) "1.to_k_ip.weight" = Ok w →
  dict_get (image_proj ckpt) "proj.weight" = Ok pw →
  length (hd [] w) ≤ hd 0 (pshape pw) →
  adapter model ckpt clip_vision weight dt mask = Ok m' →
  let cad := length (hd [] w) in
  let tokens := hd 0 (pshape pw) / cad in
  ∃ kw,
    m' = (install_with set_model_patch_replace (bool_decide (cad = 2048))
                       model kw).1
    ∧ has_shape (length (rows_of (clip_vision false).1)) tokens cad
                (kw_cond kw)
    ∧ has_shape (length (rows_of (clip_vision false).2)) tokens cad
                (kw_uncond kw).
Proof.
  intros Hplus Hw Hpw Hrows Hok cad tokens.
  apply adapter_inv_full
    in Hok as (w' & T & ipa & embeds & cond & uncond & d
               & _ & Hclip & Hw' & HT & Hinit & Hembeds & ->).
  rewrite Hw in Hw'. injection Hw' as <-. fold cad in HT, Hinit |- *.
  rewrite Hplus in HT, Hinit, Hclip. rewrite Hclip. cbn [fst snd].
  rewrite Hpw in HT. cbn [mbind Result_bind] in HT.
  case_decide as Hcad; [done|]. injection HT as <-. fold tokens in Hinit.
  assert (Htok : 0 < tokens).
  { subst tokens. apply Nat.div_str_pos. lia. }
  unfold IPAdapterModel_init in Hinit. inv_bind Hinit.
  destruct (ImageProjModel_load cad _ tokens _) as [m|] eqn:Hload; [|done].
  cbn in Heqr. injection Heqr as <-.
  inv_bind Hinit. injection Hinit as <-.
  destruct (ImageProjModel_load_dims _ _ _ _ _ Hload) as [Hcd Htk].
  apply ImageProjModel_load_wf in Hload; [|done|lia].
  apply (ImageProjModel_to_wf d) in Hload as Hwf.
  change (cross_attention_dim (ImageProjModel_to d m))
    with (cross_attention_dim m) in Hwf |- *.
  change (clip_extra_context_tokens (ImageProjModel_to d m))
    with (clip_extra_context_tokens m) in Hwf |- *.
  unfold get_image_embeds in Hembeds.
  cbn [IPAdapterModel_to image_proj_model project mbind Result_bind mret
       Result_ret] in Hembeds.
  injection Hembeds as <-. cbn [fst snd].
  eexists. split; [reflexivity|]. cbn [kw_cond kw_uncond].
  rewrite <- (rows_of_pcast_length d cond), <- (rows_of_pcast_length d uncond).
  assert (Hshape : ∀ e, has_shape (length e) tokens cad
                          (ImageProjModel_forward (ImageProjModel_to d m) e)).
  { intros e.
    pose proof (ImageProjModel_forward_shape (ImageProjModel_to d m) e Hwf)
      as Hx.
    change (cross_attention_dim (ImageProjModel_to d m))
      with (cross_attention_dim m) in Hx.
    change (clip_extra_context_tokens (ImageProjModel_to d m))
      with (clip_extra_context_tokens m) in Hx.
    by rewrite Hcd, Htk in Hx. }
  split; apply has_shape_map3, Hshape.
Qed.

(** ** A mask that collapses to one cell *)

Lemma bcast1_singleton_r {A} (f : A → A → A) (x : list A) (b : A) :
  1 < length x → bcast1 f x [b] = Ok (map (fun a => f a b) x).
Proof.
  intros Hx. unfold bcast1. rewrite decide_False by (cbn; lia).
  destruct x as [|a [|a' x]]; cbn in Hx; [lia..|done].
Qed.

Lemma sequence_map_Ok {A B} (g : A → Result B) (h : A → B) (l : list A) :
  Forall (fun a => g a = Ok (h a)) l → sequence (map g l) = Ok (map h l).
Proof.
  induction 1 as [|a l Ha Hl IH]; [done|]. cbn. by rewrite Ha, IH.
Qed.

(** X20. An ill-fitting mask is accepted silently in one case.  If the
    mask that [F.interpolate] returns has a single cell while the layer
    has more than one position, the product broadcasts: every entry of the
    adapter's pass is multiplied by the mask's top-left pixel and no error
    is raised.  At a power-of-two rate, where the scale factor is exact,
    the downsampled mask has a single cell when both sides of the mask
    divided by [8 rate] give 1. *)
Theorem one_cell_mask_broadcasts (mask : Mat) (out ip_out : T3)
    (b tokens c : nat) :
  let rate := Nat.sqrt (length mask * length (hd [] mask) / 64 / tokens) in
  let broadcast :=
    apply_mask (Some mask) out ip_out
    = Ok (map (map (map (fun a => (a * nth 0 (nth 0 mask []) 0)%R))) ip_out) in
  0 < b → 1 < tokens →
  has_shape b tokens c out → has_shape b tokens c ip_out →
  0 < rate →
  (mask_grid mask tokens = (1, 1) → broadcast)
  ∧ (∀ k, rate = 2 ^ k →
       (Z.of_nat (length mask) < 2 ^ 53)%Z →
       (Z.of_nat (length (hd [] mask)) < 2 ^ 53)%Z →
       length mask / (8 * rate) = 1 →
       length (hd [] mask) / (8 * rate) = 1 →
       broadcast).
Proof.
  intros rate broadcast Hb Ht Hout Hip Hrate.
  assert (Hone : mask_grid mask tokens = (1, 1) → broadcast).
  { intros Hgrid. subst broadcast. unfold apply_mask.
    rewrite (mask_downsample_unfold mask out b tokens c) by (done || lia).
    unfold mask_grid in Hgrid. injection Hgrid as Hh Hw.
    unfold interpolate_nearest. rewrite Hh, Hw.
    rewrite decide_False by lia.
    cbn [mbind Result_bind mret Result_ret seq map].
    rewrite !interpolate_index_0.
    destruct Hip as [Hlen Hall].
    unfold view_repeat, tmul, ewise. cbn [concat map app].
    rewrite <- Hlen, zip_with_replicate_r.
    apply sequence_map_Ok. eapply Forall_impl; [exact Hall|].
    intros x [Hx Hrows]. cbn in Hx, Hrows |- *.
    rewrite bcast1_singleton_r by lia. f_equal.
    apply Forall_fmap_ext_1. eapply Forall_impl; [exact Hrows|].
    intros r Hr. cbn in Hr |- *. rewrite <- Hr. apply zip_with_replicate_r. }
  split; [exact Hone|].
  intros k Hk HH HW Hh Hw. apply Hone.
  assert (Hle : 2 ^ k ≤ length mask).
  { rewrite <- Hk. destruct (decide (rate ≤ length mask)); [done|].
    rewrite Nat.div_small in Hh by lia. lia. }
  pose proof (pow2_bound k (length mask) 53 Hle ltac:(lia) HH).
  rewrite (mask_grid_pow2 mask tokens k) by (done || lia).
  rewrite <- Hk. by rewrite Hh, Hw.
Qed.

End Theory.

(** * Concrete instances *)

Section Instances.

#[local] Existing Instance exact_torch.
#[local] Existing Instance unit_resampler.

(** ** Witnesses *)

Lemma tiny_shape (n : nat) (t : T3) :
  t = [replicate n [1%R]] → has_shape 1 n (1 * 1) t.
Proof.
  intros ->. split; [done|]. constructor; [|constructor].
  split; [by rewrite length_replicate|].
  apply Forall_replicate. done.
Qed.

Lemma tiny_ip_shape :
  has_shape 1 1 (1 * 1)
    (linear3 (cast2 float16 [[1%R]]) None (autocast float16 [[[1%R]]])).
Proof. split; [done|]. repeat constructor. Qed.


Lemma load_state_dict_is_positional_witness :
  NoDup (dict_keys tiny_state)
  ∧ To_KV_load_state_dict tiny_bank tiny_state
    = Ok {| to_kvs := [[[5%R; 6%R]]; [[7%R]]; [[3%R]]] |}.
Proof.
  assert (Hnd : NoDup (dict_keys tiny_state)).
  { apply (bool_decide_unpack _). by vm_compute. }
  split; [exact Hnd|].
  apply (proj1 (load_state_dict_is_positional tiny_bank tiny_state Hnd)).
  cbn. lia.
Defined.

Lemma every_dimension_selects_a_variant_witness :
  0 < 512
  ∧ ∃ kw, kw_number kw = 0
          ∧ adapter fresh_model checkpoint_dim_512 (pooled_embeds 1024)
                    1%R "fp16" None
            = Ok (install_with set_model_patch_replace false fresh_model kw).1.
Proof.
  assert (Hpos : 0 < 512) by lia.
  split; [exact Hpos|].
  exact (proj1 (proj2 (proj2
    (every_dimension_selects_a_variant 512 fresh_model 1%R "fp16" None Hpos)))).
Defined.

Lemma shallow_projector_is_linear_reshape_norm_witness :
  ImageProjModel_wf tiny_projector
  ∧ ImageProjModel_forward tiny_projector [[1%R; 2%R]]
    = shallow_projector_spec tiny_projector [[1%R; 2%R]]
  ∧ has_shape 1 1 2 (ImageProjModel_forward tiny_projector [[1%R; 2%R]]).
Proof.
  assert (Hwf : ImageProjModel_wf tiny_projector).
  { unfold ImageProjModel_wf. cbn. lia. }
  split; [exact Hwf|].
  exact (shallow_projector_is_linear_reshape_norm tiny_projector
           [[1%R; 2%R]] Hwf).
Defined.

Lemma single_adapter_adds_one_attention_pass_witness :
  let kw := tiny_kwargs 1 None in
  let ip := linear3 (cast2 float16 [[1%R]]) None (autocast float16 [[[1%R]]]) in
  kw_weight kw = 1%R
  ∧ kw_mask kw = None
  ∧ [0%Z] ≠ []
  ∧ CrossAttentionPatch_call (CrossAttentionPatch_init kw) query1 context1
                             context1 tiny_options (Some [0%Z])
    = (out ← tadd (attention float16 [[[1%R]]] [[[1%R]]] [[[1%R]]] tiny_options)
                  (attention float16 [[[1%R]]] ip ip tiny_options);
       mret (to float32 out))
  ∧ is_ok (CrossAttentionPatch_call (CrossAttentionPatch_init kw) query1
             context1 context1 tiny_options (Some [0%Z])) = true.
Proof.
  intros kw ip.
  assert (Hw : kw_weight kw = 1%R) by reflexivity.
  assert (Hm : kw_mask kw = None) by reflexivity.
  assert (Hsel : [0%Z] ≠ []) by discriminate.
  pose proof (proj1 (single_adapter_adds_one_attention_pass kw query1
                       context1 context1 tiny_options [0%Z] [[[1%R]]] [[1%R]]
                       [[1%R]] Hw Hm Hsel eq_refl eq_refl eq_refl)) as Hcall.
  split; [exact Hw|]. split; [exact Hm|]. split; [exact Hsel|].
  split; [exact Hcall|].
  rewrite Hcall. cbn [kw kw_dtype tiny_kwargs t_data query1 context1].
  rewrite (tadd_same_shape 1 1 (1 * 1)); [reflexivity| |].
  - apply (attention_shape float16 tiny_options 1 1 1); cbn; try lia.
    all: by apply (tiny_shape 1).
  - apply (attention_shape float16 tiny_options 1 1 1); cbn; try lia.
    + by apply (tiny_shape 1).
    + apply tiny_ip_shape.
    + apply tiny_ip_shape.
Defined.

Lemma mask8x8_constant (v : R) : constant_mask v (mask8x8 v).
Proof. apply Forall_replicate, Forall_replicate. done. Qed.

Lemma query2_tokens :
  length (hd [] (attention float16 (t_data query2) (t_data context1)
                           (t_data context1) tiny_options)) = 2.
Proof.
  apply (has_shape_hd 1 2 (1 * 1)); [|lia..].
  apply (attention_shape float16 tiny_options 1 2 1); cbn; try lia.
  - by apply (tiny_shape 2).
  - by apply (tiny_shape 1).
  - by apply (tiny_shape 1).
Qed.

Lemma masked_call_divides_by_zero_witness :
  let kw := tiny_kwargs 1 (Some (mask8x8 1)) in
  kw_mask kw = Some (mask8x8 1)
  ∧ 8 * 8 / 64 / 2 = 0
  ∧ CrossAttentionPatch_call (stack kw []) query2 context1 context1
                             tiny_options (Some [0%Z])
    = Raise ZeroDivisionError.
Proof.
  intros kw.
  assert (Hmask : kw_mask kw = Some (mask8x8 1)) by reflexivity.
  assert (Hzero : length (mask8x8 1) * length (hd [] (mask8x8 1)) / 64
                  / length (hd [] (attention (dtype (stack kw []))
                                     (t_data query2) (t_data context1)
                                     (t_data context1) tiny_options)) = 0).
  { change (dtype (stack kw [])) with float16. by rewrite query2_tokens. }
  split; [exact Hmask|]. split; [reflexivity|].
  refine (proj1 (proj2 (proj2 (masked_call_divides_by_zero kw [] (mask8x8 1) query2
                          context1 context1 tiny_options Hmask Hzero)))
                [0%Z] _ _ eq_refl).
  discriminate.
Defined.

Lemma v12_enumeration_is_fixed_witness :
  ∃ w m',
    dict_get (ip_adapter checkpoint_16_weights) "1.to_k_ip.weight" = Ok w
    ∧ length (hd [] w) = 768
    ∧ adapter fresh_model checkpoint_16_weights (pooled_embeds 1024) 1%R
              "fp16" None = Ok m'
    ∧ ∃ kw, kw_number kw = 0
            ∧ m' = (install_with set_model_patch_replace false fresh_model kw).1
            ∧ (enumerate_layers false kw).*1 = v12_coordinates
            ∧ (enumerate_layers false kw).*2 = seq 0 16
            ∧ length (enumerate_layers false kw) = 16
            ∧ length SD_V12_CHANNELS / 2 = 16.
Proof.
  destruct (synthetic_dimension 768 4 1024 (take 16 SD_V12_CHANNELS))
    as (w & Hw & Hdim); [cbn; lia|].
  destruct (adapter_accepts_synthetic fresh_model 768 4 1024
              (take 16 SD_V12_CHANNELS) 1%R "fp16" None)
    as (kw & _ & _ & _ & Hok); [lia| lia| cbn; lia| vm_compute; lia|].
  exists w, (install_with set_model_patch_replace false fresh_model kw).1.
  split; [exact Hw|]. split; [exact Hdim|]. split; [exact Hok|].
  exact (v12_enumeration_is_fixed fresh_model checkpoint_16_weights
           (pooled_embeds 1024) 1%R "fp16" None w _ Hw Hdim Hok).
Defined.

(** ** Counterexamples *)

(** C2 as stated fails: a state whose first projection has output width 1,
    where the V1_2 schedule has 320, loads without error and lands in
    projector 0. *)
Lemma load_state_dict_accepts_wrong_width :
  SD_V12_CHANNELS !! 0 = Some 320
  ∧ (snd <$> state_narrow_first !! 0) = Some (zeros 1 768)
  ∧ length (zeros 1 768) ≠ 320
  ∧ ∃ kv, To_KV_load_state_dict (To_KV_init 768) state_narrow_first = Ok kv
          ∧ to_kvs kv !! 0 = Some (zeros 1 768).
Proof.
  split; [reflexivity|]. split; [reflexivity|].
  split; [unfold zeros; rewrite length_replicate; lia|].
  unfold To_KV_load_state_dict.
  rewrite (load_loop_positional _ _ [zeros 1 768]).
  - eexists. split; [reflexivity|]. reflexivity.
  - by repeat constructor.
  - rewrite To_KV_init_length. vm_compute. lia.
Qed.

(** C3 as stated fails: a checkpoint of cross-attention dimensionality 512,
    which is none of 768, 1024, 2048, is accepted. *)
Lemma dimension_512_is_accepted :
  (∃ w, dict_get (ip_adapter checkpoint_dim_512) "1.to_k_ip.weight" = Ok w
        ∧ length (hd [] w) = 512)
  ∧ (512 ∉ [768; 1024; 2048])
  ∧ is_ok (adapter fresh_model checkpoint_dim_512 (pooled_embeds 1024) 1%R
                   "fp16" None) = true.
Proof.
  split; [apply synthetic_dimension; cbn; lia|].
  split; [apply (bool_decide_unpack _); by vm_compute|].
  destruct (adapter_accepts_synthetic fresh_model 512 4 1024 SD_V12_CHANNELS
              1%R "fp16" None)
    as (kw & _ & _ & _ & Hok); [lia| lia| cbn; lia| vm_compute; lia|].
  unfold checkpoint_dim_512. by rewrite Hok.
Qed.

(** C6 as stated fails: with cross-attention dimensionality 768, no
    learnable-query tensor and 16 stored weights, the installer visits 16
    coordinates, not 16 // 2 = 8, and the middle layer gets number 15. *)
Lemma sixteen_weights_get_sixteen_coordinates :
  dict_has (image_proj checkpoint_16_weights) "latents" = false
  ∧ length (ip_adapter checkpoint_16_weights) = 16
  ∧ (∃ w, dict_get (ip_adapter checkpoint_16_weights) "1.to_k_ip.weight" = Ok w
          ∧ length (hd [] w) = 768)
  ∧ ∃ kw m',
      adapter fresh_model checkpoint_16_weights (pooled_embeds 1024) 1%R
              "fp16" None = Ok m'
      ∧ m' = (install_with set_model_patch_replace false fresh_model kw).1
      ∧ length (enumerate_layers false kw) = 16
      ∧ length (enumerate_layers false kw)
        ≠ length (ip_adapter checkpoint_16_weights) / 2
      ∧ number <$> patch_at m' (Key2 middle 0) = Some 15.
Proof.
  assert (Hlen : length (ip_adapter checkpoint_16_weights) = 16).
  { unfold checkpoint_16_weights, synthetic_checkpoint. cbn [ip_adapter].
    by rewrite length_imap. }
  split; [reflexivity|]. split; [exact Hlen|].
  split; [apply synthetic_dimension; cbn; lia|].
  destruct (adapter_accepts_synthetic fresh_model 768 4 1024
              (take 16 SD_V12_CHANNELS) 1%R "fp16" None)
    as (kw & Hn & _ & _ & Hok); [lia| lia| cbn; lia| vm_compute; lia|].
  exists kw, (install_with set_model_patch_replace false fresh_model kw).1.
  split; [exact Hok|]. split; [reflexivity|].
  rewrite Hlen, enumerate_layers_eq, length_zip_with, length_seq.
  split; [reflexivity|]. split; [by vm_compute|].
  pose proof (fresh_install_numbers false kw) as Hnum.
  rewrite enumerate_layers_eq, Hn in Hnum.
  rewrite Forall_forall in Hnum.
  apply (Hnum (Key2 middle 0, 15)).
  apply list_elem_of_lookup. exists 15. reflexivity.
Qed.

(** ** Witnesses of the further properties *)

Lemma installed_patches_find_their_projectors_witness :
  ∃ m', adapter fresh_model checkpoint_16_weights (pooled_embeds 1024) 1%R
                "fp16" None = Ok m'
        ∧ ∃ p ipa, patch_at m' (Key2 middle 0) = Some p
                   ∧ number p = 15
                   ∧ ipadapters p = [ipa]
                   ∧ is_Some (to_kvs (ip_layers ipa) !! 31).
Proof.
  destruct (adapter_accepts_synthetic fresh_model 768 4 1024
              (take 16 SD_V12_CHANNELS) 1%R "fp16" None)
    as (kw & _ & _ & _ & Hok); [lia| lia| cbn; lia| vm_compute; lia|].
  eexists. split; [exact Hok|].
  destruct (installed_patches_find_their_projectors checkpoint_16_weights
              (pooled_embeds 1024) 1%R "fp16" None _ Hok) as [sdxl Hall].
  destruct sdxl.
  - exfalso. rewrite Forall_forall in Hall.
    destruct (Hall (Key3 input 4 0, 0)) as (p & ipa & Hp & _);
      [apply list_elem_of_lookup; by exists 0|].
    pose proof (fresh_install_patches false kw) as Hfresh.
    rewrite install_with_install_list in Hp.
    rewrite install_list_other in Hp; [done|].
    rewrite enumerate_layers_keys. apply (bool_decide_unpack _). by vm_compute.
  - rewrite Forall_forall in Hall.
    destruct (Hall (Key2 middle 0, 15)) as (p & ipa & Hp & Hn & Hi & _ & _ & Hv);
      [apply list_elem_of_lookup; by exists 15|].
    exists p, ipa. rewrite Hn in Hv. by repeat split.
Defined.

Lemma oversized_state_is_rejected_witness :
  ∃ w, dict_get (ip_adapter checkpoint_xl_sized_dim_768) "1.to_k_ip.weight"
       = Ok w
       ∧ length (hd [] w) = 768
       ∧ length (ip_adapter checkpoint_xl_sized_dim_768) = 140
       ∧ is_ok (adapter fresh_model checkpoint_xl_sized_dim_768
                        (pooled_embeds 1024) 1%R "fp16" None) = false.
Proof.
  destruct (synthetic_dimension 768 4 1024 SD_XL_CHANNELS)
    as (w & Hw & Hdim); [cbn; lia|].
  assert (Hlen : length (ip_adapter checkpoint_xl_sized_dim_768) = 140).
  { unfold checkpoint_xl_sized_dim_768, synthetic_checkpoint.
    cbn [ip_adapter]. by rewrite length_imap. }
  exists w. split; [exact Hw|]. split; [exact Hdim|]. split; [exact Hlen|].
  refine (proj2 (oversized_state_is_rejected fresh_model
                   checkpoint_xl_sized_dim_768 (pooled_embeds 1024) 1%R
                   "fp16" None w Hw _)).
  rewrite Hdim, Hlen. vm_compute. lia.
Defined.

Lemma explicit_shape (b n c : nat) (t : T3) :
  bool_decide (length t = b
               ∧ Forall (fun x : Mat =>
                           length x = n ∧ Forall (fun r : Vec => length r = c) x)
                        t) = true →
  has_shape b n c t.
Proof. intros Hd. exact (bool_decide_eq_true_1 _ Hd). Qed.

Lemma square_mask_rows (side : nat) (v : R) :
  length (square_mask side v) = side
  ∧ Forall (fun row : Vec => length row = side) (square_mask side v).
Proof.
  unfold square_mask. split; [by rewrite length_replicate|].
  apply Forall_replicate. by rewrite length_replicate.
Qed.

Lemma square_mask_width (side : nat) (v : R) :
  length (hd [] (square_mask side v)) = side.
Proof.
  unfold square_mask. destruct side as [|side]; [done|].
  change (length (replicate (S side) v) = S side). apply length_replicate.
Qed.

Lemma square_mask_grid (side tokens : nat) (v : R) :
  mask_rate (square_mask side v) tokens
  = Nat.sqrt (side * side / 64 / tokens)
  ∧ mask_grid (square_mask side v) tokens
    = (interpolate_size side
         (scale_factor (Nat.sqrt (side * side / 64 / tokens))),
       interpolate_size side
         (scale_factor (Nat.sqrt (side * side / 64 / tokens)))).
Proof.
  unfold mask_grid, mask_rate. rewrite square_mask_width.
  by rewrite (proj1 (square_mask_rows side v)).
Qed.


Lemma evenly_downsampled_mask_samples_cell_corners_witness :
  let mask := square_mask 32 1 in
  let out := full 1 4 1 0 in
  0 < 1 ∧ has_shape 1 (2 * 2) 1 out
  ∧ length mask = 8 * 2 ^ 1 * 2
  ∧ Forall (fun row : Vec => length row = 8 * 2 ^ 1 * 2) mask
  ∧ (Z.of_nat (8 * 2 ^ 1 * 2) < 2 ^ 24)%Z
  ∧ mask_rate mask (2 * 2) = 2 ^ 1
  ∧ mask_fits mask (2 * 2)
  ∧ mask_downsample_of mask out
    = Ok (replicate 1 (map (fun x => replicate 1 x)
                           (grid_samples mask (2 ^ 1) 2 2))).
Proof.
  intros mask out.
  assert (Hb : 0 < 1) by lia.
  assert (Hout : has_shape 1 (2 * 2) 1 out) by (by apply explicit_shape).
  destruct (square_mask_rows 32 1) as [Hlen Hrows].
  assert (Hlt : (Z.of_nat (8 * 2 ^ 1 * 2) < 2 ^ 24)%Z) by (by vm_compute).
  split; [exact Hb|]. split; [exact Hout|]. split; [exact Hlen|].
  split; [exact Hrows|]. split; [exact Hlt|].
  destruct (evenly_downsampled_mask_samples_cell_corners mask out 1 1 1 2 2
              Hb Hout ltac:(lia) ltac:(lia) Hlen Hrows Hlt Hlt)
    as (Hrate & Hfits & Hmd & _).
  split; [exact Hrate|]. split; [exact Hfits|exact Hmd].
Defined.

Lemma tiny_tokens_fit (weight : R) (mask : option Mat) :
  tokens_fit 1 1 1 0 (1 / 1) [0%Z] (tiny_kwargs weight mask).
Proof.
  exists 1, 1, 1, [[1%R]], [[1%R]].
  split; [by apply explicit_shape|]. split; [by apply explicit_shape|].
  split; [lia|]. split; [done|]. split; [done|]. split; [done|].
  split; [by repeat constructor|]. split; [done|]. split; [done|].
  by repeat constructor.
Qed.

Lemma tiny_bundle_fits (n : nat) (weight : R) :
  bundle_fits 1 1 1 n 0 (1 / 1) [0%Z] (tiny_kwargs weight None).
Proof. split; [apply tiny_tokens_fit|done]. Qed.

Lemma tiny_operand_shape : has_shape 1 1 (1 * 1) [[[1%R]]].
Proof. by apply explicit_shape. Qed.

Lemma ill_fitting_mask_raises_shape_error_witness :
  let mask := square_mask 24 1 in
  let kw := tiny_kwargs 1 (Some mask) in
  has_shape 1 4 (1 * 1) (t_data query4)
  ∧ tokens_fit 1 1 1 (kw_number kw) (1 / 1) [0%Z] kw
  ∧ mask_rate mask 4 = 1
  ∧ mask_grid mask 4 = (3, 3)
  ∧ CrossAttentionPatch_call (stack kw []) query4 context1 context1
                             tiny_options (Some [0%Z])
    = Raise RuntimeError.
Proof.
  intros mask kw.
  assert (Hq : has_shape 1 4 (1 * 1) (t_data query4))
    by (by apply explicit_shape).
  assert (Hfit : tokens_fit 1 1 1 (kw_number kw) (1 / 1) [0%Z] kw)
    by apply tiny_tokens_fit.
  destruct (square_mask_grid 24 4 1) as [Hmr Hmg].
  assert (Hrate : mask_rate mask 4 = 1)
    by (unfold mask; rewrite Hmr; by vm_compute).
  assert (Hgrid : mask_grid mask 4 = (3, 3))
    by (unfold mask; rewrite Hmg; by vm_compute).
  split; [exact Hq|]. split; [exact Hfit|]. split; [exact Hrate|].
  split; [exact Hgrid|].
  refine (ill_fitting_mask_raises_shape_error kw [] mask query4 context1
            context1 tiny_options [0%Z] 1 4 1 _ _ _ _ Hq tiny_operand_shape
            tiny_operand_shape _ _ Hfit eq_refl _ _ _ _).
  - cbn; lia.
  - cbn; lia.
  - lia.
  - lia.
  - discriminate.
  - by repeat constructor.
  - lia.
  - rewrite Hrate. lia.
  - rewrite Hgrid. cbn. lia.
  - rewrite Hgrid. cbn. lia.
Defined.

Lemma well_shaped_call_returns_query_shape_witness :
  ∃ t, CrossAttentionPatch_call
         (stack (tiny_kwargs 1 None) [tiny_kwargs (1 / 2) None]) query1
         context1 context1 tiny_options (Some [0%Z]) = Ok t
       ∧ t_dtype t = float32
       ∧ has_shape 1 1 (1 * 1) (t_data t).
Proof.
  refine (well_shaped_call_returns_query_shape (tiny_kwargs 1 None)
            [tiny_kwargs (1 / 2) None] query1 context1 context1 tiny_options
            [0%Z] 1 1 1 _ _ _ _ tiny_operand_shape tiny_operand_shape
            tiny_operand_shape _ _ _); try (cbn; lia).
  - discriminate.
  - by repeat constructor.
  - cbn [app].
    repeat (apply Forall_cons; split; [apply tiny_bundle_fits|]).
    constructor.
Defined.

Lemma zero_weight_call_returns_baseline_witness :
  Forall (fun kw => kw_weight kw = 0%R) [tiny_kwargs 0 None]
  ∧ CrossAttentionPatch_call (stack (tiny_kwargs 0 None) []) query1 context1
                             context1 tiny_options (Some [0%Z])
    = Ok (to float32 (attention float16 [[[1%R]]] [[[1%R]]] [[[1%R]]]
                                tiny_options)).
Proof.
  assert (Hzero : Forall (fun kw : PatchKwargs => kw_weight kw = 0%R)
                         [tiny_kwargs 0 None]) by (by repeat constructor).
  split; [exact Hzero|].
  refine (zero_weight_call_returns_baseline (tiny_kwargs 0 None) [] query1
            context1 context1 tiny_options [0%Z] 1 1 1 _ _ _ _
            tiny_operand_shape tiny_operand_shape tiny_operand_shape _ _ _
            Hzero); try (cbn; lia).
  - discriminate.
  - by repeat constructor.
  - cbn [app].
    repeat (apply Forall_cons; split; [apply tiny_bundle_fits|]).
    constructor.
Defined.

Lemma stacking_zero_weight_adapter_witness :
  kw_weight (tiny_kwargs 0 None) = 0%R
  ∧ CrossAttentionPatch_call
      (set_new_condition (stack (tiny_kwargs 1 None) []) (tiny_kwargs 0 None))
      query1 context1 context1 tiny_options (Some [0%Z])
    = CrossAttentionPatch_call (stack (tiny_kwargs 1 None) []) query1 context1
                               context1 tiny_options (Some [0%Z]).
Proof.
  split; [reflexivity|].
  refine (proj2 (stacking_zero_weight_adapter (tiny_kwargs 1 None) []
                   (tiny_kwargs 0 None) query1 context1 context1 tiny_options
                   [0%Z] 1 1 1 _ _ _ _ tiny_operand_shape tiny_operand_shape
                   tiny_operand_shape _ _ _ eq_refl) eq_refl);
    try (cbn; lia).
  - discriminate.
  - by repeat constructor.
  - cbn [app].
    repeat (apply Forall_cons; split; [apply tiny_bundle_fits|]).
    constructor.
Defined.

Lemma attention_keeps_query_shape_witness :
  has_shape 1 4 (1 * 1) (t_data query4)
  ∧ has_shape 1 1 (1 * 1) (t_data context1)
  ∧ has_shape 1 4 (1 * 1)
      (attention float16 (t_data query4) (t_data context1) (t_data context1)
                 tiny_options).
Proof.
  assert (Hq : has_shape 1 4 (1 * 1) (t_data query4))
    by (by apply explicit_shape).
  split; [exact Hq|]. split; [exact tiny_operand_shape|].
  refine (attention_keeps_query_shape float16 tiny_options 1 4 1 _ _ _ _ _ _
            Hq tiny_operand_shape tiny_operand_shape); cbn; lia.
Defined.

Lemma attention_paths_agree_witness :
  let exact := fun (_ : DType) (x : R) => x in
  (∀ dt x, exact dt x = x)
  ∧ attention
      (torch := {| rnd := exact;
                   init_weight := fun _ out inp => zeros out inp;
                   has_mha := true |})
      float16 (t_data query4) (t_data context1) (t_data context1) tiny_options
    = attention
        (torch := {| rnd := exact;
                     init_weight := fun _ out inp => zeros out inp;
                     has_mha := false |})
        float16 (t_data query4) (t_data context1) (t_data context1)
        tiny_options.
Proof.
  intros exact.
  assert (Hexact : ∀ dt x, exact dt x = x) by reflexivity.
  split; [exact Hexact|].
  refine (attention_paths_agree exact (fun _ out inp => zeros out inp) float16
            tiny_options 1 4 1 _ _ _ Hexact _ _ _ _ _ _ tiny_operand_shape
            tiny_operand_shape); try (cbn; lia).
  by apply explicit_shape.
Defined.

Lemma shallow_unconditional_tokens_come_from_bias_witness :
  ImageProjModel_wf tiny_projector
  ∧ Forall (fun row : Vec => length row = 2) (image_embeds tiny_outputs)
  ∧ project (Shallow tiny_projector)
            (clip_vision_encode tiny_outputs tiny_outputs false).2
    = Ok (replicate 2
            [layer_norm_row LayerNorm_eps [1%R; 1%R] [0%R; 0%R] [0%R; 0%R]]).
Proof.
  assert (Hwf : ImageProjModel_wf tiny_projector).
  { unfold ImageProjModel_wf. cbn. lia. }
  assert (Hrows : Forall (fun row : Vec => length row = 2)
                         (image_embeds tiny_outputs))
    by (by repeat constructor).
  split; [exact Hwf|]. split; [exact Hrows|].
  refine (proj1 (shallow_unconditional_tokens_come_from_bias tiny_projector
                   tiny_outputs tiny_outputs 2 Hwf _ Hrows)).
  by repeat constructor.
Defined.

Lemma one_cell_mask_broadcasts_witness :
  let mask := square_mask 15 (1 / 2) in
  let out := full 1 2 1 0 in
  let ip_out := [[[2%R]; [3%R]]] in
  Nat.sqrt (length mask * length (hd [] mask) / 64 / 2) = 2 ^ 0
  ∧ mask_grid mask 2 = (1, 1)
  ∧ length mask / (8 * 2 ^ 0) = 1
  ∧ has_shape 1 2 1 out ∧ has_shape 1 2 1 ip_out
  ∧ apply_mask (Some mask) out ip_out
    = Ok (map (map (map (fun a => (a * nth 0 (nth 0 mask []) 0)%R))) ip_out).
Proof.
  intros mask out ip_out.
  destruct (square_mask_grid 15 2 (1 / 2)) as [Hmr Hmg].
  assert (Hrate : Nat.sqrt (length mask * length (hd [] mask) / 64 / 2)
                  = 2 ^ 0) by (exact Hmr).
  assert (Hgrid : mask_grid mask 2 = (1, 1))
    by (unfold mask; rewrite Hmg; by vm_compute).
  assert (Hh : length mask / (8 * 2 ^ 0) = 1).
  { unfold mask. by rewrite (proj1 (square_mask_rows 15 (1 / 2))). }
  assert (Hout : has_shape 1 2 1 out) by (by apply explicit_shape).
  assert (Hip : has_shape 1 2 1 ip_out) by (by apply explicit_shape).
  split; [exact Hrate|]. split; [exact Hgrid|]. split; [exact Hh|].
  split; [exact Hout|]. split; [exact Hip|].
  refine (proj1 (one_cell_mask_broadcasts mask out ip_out 1 2 1 _ _ Hout Hip
                   _) Hgrid).
  - lia.
  - lia.
  - rewrite Hrate. cbn. lia.
Defined.

Lemma adapter_extends_the_patch_table_witness :
  ∃ m', adapter fresh_model checkpoint_16_weights (pooled_embeds 1024) 1%R
                "fp16" None = Ok m'
        ∧ ∀ family, family ≠ "attn2" →
            family_at m' family = family_at fresh_model family.
Proof.
  destruct (adapter_accepts_synthetic fresh_model 768 4 1024
              (take 16 SD_V12_CHANNELS) 1%R "fp16" None)
    as (kw & _ & _ & _ & Hok); [lia| lia| cbn; lia| vm_compute; lia|].
  eexists. split; [exact Hok|].
  exact (proj1 (adapter_extends_the_patch_table fresh_model
                  checkpoint_16_weights (pooled_embeds 1024) 1%R "fp16" None
                  _ Hok)).
Defined.

Lemma shallow_checkpoint_token_shape_witness :
  ∃ m' w pw,
    dict_has (image_proj checkpoint_16_weights) "latents" = false
    ∧ dict_get (ip_adapter checkpoint_16_weights) "1.to_k_ip.weight" = Ok w
    ∧ dict_get (image_proj checkpoint_16_weights) "proj.weight" = Ok pw
    ∧ length (hd [] w) = 768
    ∧ hd 0 (pshape pw) = 4 * 768
    ∧ adapter fresh_model checkpoint_16_weights (pooled_embeds 1024) 1%R
              "fp16" None = Ok m'
    ∧ ∃ kw, has_shape 1 (4 * 768 / 768) 768 (kw_cond kw)
            ∧ has_shape 1 (4 * 768 / 768) 768 (kw_uncond kw).
Proof.
  destruct (synthetic_dimension 768 4 1024 (take 16 SD_V12_CHANNELS))
    as (w & Hw & Hdim); [cbn; lia|].
  destruct (adapter_accepts_synthetic fresh_model 768 4 1024
              (take 16 SD_V12_CHANNELS) 1%R "fp16" None)
    as (kw0 & _ & _ & _ & Hok); [lia| lia| cbn; lia| vm_compute; lia|].
  assert (Hpw : dict_get (image_proj checkpoint_16_weights) "proj.weight"
                = Ok (P2 (zeros (4 * 768) 1024))) by reflexivity.
  assert (Hrows : hd 0 (pshape (P2 (zeros (4 * 768) 1024))) = 4 * 768).
  { cbn [pshape shape2 hd]. unfold zeros. by rewrite length_replicate. }
  eexists _, w, _.
  split; [reflexivity|]. split; [exact Hw|]. split; [exact Hpw|].
  split; [exact Hdim|]. split; [exact Hrows|]. split; [exact Hok|].
  destruct (shallow_checkpoint_token_shape fresh_model checkpoint_16_weights
              (pooled_embeds 1024) 1%R "fp16" None _ w _ eq_refl Hw Hpw
              ltac:(rewrite Hdim, Hrows; lia) Hok)
    as (kw & _ & Hc & Hu).
  exists kw. rewrite Hdim, Hrows in Hc, Hu. split; [exact Hc|exact Hu].
Defined.

Lemma select_tokens_by_selector_witness :
  has_shape 1 1 1 [[[1%R]]] ∧ has_shape 1 1 1 [[[0%R]]]
  ∧ select_tokens [[[1%R]]] [[[0%R]]] 1 [0; -1]%Z = Ok [[[1%R]]; [[0%R]]]
  ∧ has_shape 2 1 1 [[[1%R]]; [[0%R]]].
Proof.
  assert (Hc : has_shape 1 1 1 [[[1%R]]]) by (by apply explicit_shape).
  assert (Hu : has_shape 1 1 1 [[[0%R]]]) by (by apply explicit_shape).
  split; [exact Hc|]. split; [exact Hu|].
  refine (select_tokens_by_selector [[[1%R]]] [[[0%R]]] 1 1 1 1 [0; -1]%Z _
            Hc Hu).
  discriminate.
Defined.

Lemma call_rejects_bad_selector_witness :
  ¬ Forall (fun i => (-2 ≤ i < 2)%Z) [2%Z]
  ∧ CrossAttentionPatch_call (stack (tiny_kwargs 1 None) []) query1 context1
                             context1 tiny_options (Some [2%Z])
    = Raise IndexError.
Proof.
  assert (Hsel : ¬ Forall (fun i => (-2 ≤ i < 2)%Z) [2%Z]).
  { intros [H _]%Forall_cons. lia. }
  split; [exact Hsel|].
  refine (proj2 (proj2 (call_rejects_bad_selector (tiny_kwargs 1 None) []
                          query1 context1 context1 tiny_options))
            [2%Z] 1 1 1 _ _ _ tiny_operand_shape tiny_operand_shape
            tiny_operand_shape _ Hsel).
  - cbn; lia.
  - cbn; lia.
  - lia.
  - discriminate.
Defined.

Lemma adapter_rejects_incomplete_checkpoint_witness :
  adapter fresh_model checkpoint_without_key (pooled_embeds 1) 1%R "fp16" None
  = Raise KeyError
  ∧ adapter fresh_model checkpoint_without_proj (pooled_embeds 1) 1%R "fp16"
            None
    = Raise KeyError
  ∧ adapter fresh_model checkpoint_zero_dim (pooled_embeds 1) 1%R "fp16" None
    = Raise ZeroDivisionError.
Proof.
  split; [|split].
  - exact (proj1 (adapter_rejects_incomplete_checkpoint fresh_model
                    checkpoint_without_key (pooled_embeds 1) 1%R "fp16" None)
                 eq_refl).
  - exact (proj1 (proj2 (adapter_rejects_incomplete_checkpoint fresh_model
                           checkpoint_without_proj (pooled_embeds 1) 1%R
                           "fp16" None))
                 eq_refl eq_refl eq_refl).
  - exact (proj2 (proj2 (adapter_rejects_incomplete_checkpoint fresh_model
                           checkpoint_zero_dim (pooled_embeds 1) 1%R "fp16"
                           None))
                 [[]] eq_refl eq_refl eq_refl eq_refl).
Defined.

Lemma get_file_list_drops_only_the_placeholder_witness :
  ("put_models_here.txt" ∉ ["ip-adapter_sd15.bin"; "ip-adapter_sdxl.bin"])
  ∧ get_file_list ["ip-adapter_sd15.bin"; "ip-adapter_sdxl.bin"]
    = ["ip-adapter_sd15.bin"; "ip-adapter_sdxl.bin"].
Proof.
  assert (Hclean : "put_models_here.txt"
                   ∉ ["ip-adapter_sd15.bin"; "ip-adapter_sdxl.bin"]).
  { apply (bool_decide_unpack _). by vm_compute. }
  split; [exact Hclean|].
  exact (proj2 (proj2 (proj2 (get_file_list_drops_only_the_placeholder
                                ["ip-adapter_sd15.bin"; "ip-adapter_sdxl.bin"])))
               Hclean).
Defined.


(** ** The masked path at downsample rate 49 *)

Lemma square_mask_evenly (r g : nat) (v : R) :
  0 < r → 0 < g → downsamples_evenly (square_mask (8 * r * g) v) (g * g).
Proof.
  intros Hr Hg. exists r, g, g.
  destruct (square_mask_rows (8 * r * g) v) as [Hlen Hrows].
  by repeat split.
Qed.

Lemma square_mask_rate (r g : nat) (v : R) :
  0 < r → 0 < g → mask_rate (square_mask (8 * r * g) v) (g * g) = r.
Proof.
  intros Hr Hg. destruct (square_mask_rows (8 * r * g) v) as [Hlen Hrows].
  by apply (evenly_mask_rate _ r g g).
Qed.

Lemma tiny_call_returns (tokens : nat) (q : Tensor) :
  t_data q = [replicate tokens [1%R]] →
  is_ok (CrossAttentionPatch_call
           (CrossAttentionPatch_init (tiny_kwargs 1 None)) q context1
           context1 tiny_options (Some [0%Z])) = true.
Proof.
  intros Hq.
  destruct (well_shaped_call (tiny_kwargs 1 None) [] q context1 context1
              tiny_options [0%Z] 1 tokens 1)
    as (out & Hcall & _); try (cbn; lia).
  - by apply tiny_shape.
  - apply tiny_operand_shape.
  - apply tiny_operand_shape.
  - discriminate.
  - by repeat constructor.
  - apply Forall_singleton, tiny_bundle_fits.
  - cbn [stack foldl] in Hcall. by rewrite Hcall.
Qed.

Lemma tiny_masked_call_raises (side tokens : nat) (q : Tensor) :
  let mask := square_mask side 1 in
  let grid := (mask_grid mask tokens).1 * (mask_grid mask tokens).2 in
  t_data q = [replicate tokens [1%R]] →
  0 < tokens → 0 < mask_rate mask tokens →
  grid = 0 ∨ (grid ≠ tokens ∧ grid ≠ 1 ∧ tokens ≠ 1) →
  CrossAttentionPatch_call
    (CrossAttentionPatch_init (tiny_kwargs 1 (Some mask))) q context1
    context1 tiny_options (Some [0%Z])
  = Raise RuntimeError.
Proof.
  intros mask grid Hq Ht Hrate Hgrid.
  apply (masked_call_raises (tiny_kwargs 1 (Some mask)) [] mask q context1
           context1 tiny_options [0%Z] 1 tokens 1); try (cbn; lia); try done.
  - by apply tiny_shape.
  - apply tiny_operand_shape.
  - apply tiny_operand_shape.
  - by repeat constructor.
  - apply tiny_tokens_fit.
Qed.

(** C5. The claim fails on the code at downsample rate 49.  An all-ones
    mask of 392 x 392 pixels on a layer with one position, and one of
    3136 x 3136 pixels on a layer with 64 positions, downsample evenly
    (392 = 8 * 49 * 1 and 3136 = 8 * 49 * 8) and the call computes the rate
    49.  But [392 * (1/8/49)] is [0.9999999999999999] in binary64 and
    [3136 * (1/8/49)] is below 8, so [F.interpolate] returns a mask of
    0 x 0 and of 7 x 7 cells, and the call raises a runtime error where the
    same bundle without a mask returns. *)
Theorem evenly_dividing_ones_mask_raises_at_rate_49 :
  let call q m :=
    CrossAttentionPatch_call (CrossAttentionPatch_init (tiny_kwargs 1 m)) q
      context1 context1 tiny_options (Some [0%Z]) in
  (downsamples_evenly (square_mask 392 1) 1
   ∧ constant_mask 1 (square_mask 392 1)
   ∧ mask_rate (square_mask 392 1) 1 = 49
   ∧ mask_grid (square_mask 392 1) 1 = (0, 0)
   ∧ call query1 (Some (square_mask 392 1)) = Raise RuntimeError
   ∧ is_ok (call query1 None) = true)
  ∧ (downsamples_evenly (square_mask 3136 1) 64
     ∧ constant_mask 1 (square_mask 3136 1)
     ∧ mask_rate (square_mask 3136 1) 64 = 49
     ∧ mask_grid (square_mask 3136 1) 64 = (7, 7)
     ∧ call query64 (Some (square_mask 3136 1)) = Raise RuntimeError
     ∧ is_ok (call query64 None) = true).
Proof.
  intros call.
  assert (Hconst : ∀ side, constant_mask 1 (square_mask side 1)).
  { intros side. apply Forall_replicate, Forall_replicate. done. }
  assert (Hrate1 : mask_rate (square_mask 392 1) 1 = 49)
    by (apply (square_mask_rate 49 1); lia).
  assert (Hrate64 : mask_rate (square_mask 3136 1) 64 = 49)
    by (apply (square_mask_rate 49 8); lia).
  assert (Hgrid1 : mask_grid (square_mask 392 1) 1 = (0, 0)).
  { unfold mask_grid. rewrite Hrate1, square_mask_width.
    rewrite (proj1 (square_mask_rows 392 1)). by vm_compute. }
  assert (Hgrid64 : mask_grid (square_mask 3136 1) 64 = (7, 7)).
  { unfold mask_grid. rewrite Hrate64, square_mask_width.
    rewrite (proj1 (square_mask_rows 3136 1)). by vm_compute. }
  split.
  - split; [apply (square_mask_evenly 49 1); lia|].
    split; [apply Hconst|]. split; [exact Hrate1|]. split; [exact Hgrid1|].
    split; [|by apply (tiny_call_returns 1)].
    apply (tiny_masked_call_raises 392 1); [done|lia|lia|].
    left. by rewrite Hgrid1.
  - split; [apply (square_mask_evenly 49 8); lia|].
    split; [apply Hconst|]. split; [exact Hrate64|]. split; [exact Hgrid64|].
    split; [|by apply (tiny_call_returns 64)].
    apply (tiny_masked_call_raises 3136 64); [done|lia|lia|].
    right. rewrite Hgrid64. cbn. lia.
Qed.

End Instances.
